(** * Ghost Chat: room lifecycle, message relay policies and client-side
      encryption, embedded from the edge function [room-operations], the
      SQL migrations and [lib/crypto.ts]. *)

From Stdlib Require Import ZArith NArith List String Ascii Bool Lia ZifyBool ZifyNat.
From Stdlib Require Strings.Byte.
Import ListNotations.
Open Scope Z_scope.

(** ** The relational store (supabase/migrations) *)

Module Db.

(** [gen_random_uuid()] values; only equality is ever used. *)
Definition uuid := N.

(** [status VARCHAR(20) CHECK (status IN ('waiting','active','expired'))] *)
Inductive room_status := waiting | active | expired.

Definition room_status_eqb (a b : room_status) : bool :=
  match a, b with
  | waiting, waiting | active, active | expired, expired => true
  | _, _ => false
  end.

(** Timestamps are milliseconds since the epoch, the resolution of the
    JavaScript [Date] the edge function compares them with. *)
Record room := mkRoom
  { id : uuid;
    code : string;
    duration_minutes : Z;
    created_at : Z;
    expires_at : Z;
    status : room_status;
    participant_count : Z }.

Record participant := mkParticipant
  { rp_id : uuid;
    rp_room_id : uuid;
    session_token : string;
    participant_number : Z;
    rp_created_at : Z }.

Record message := mkMessage
  { m_id : uuid;
    m_room_id : uuid;
    sender_id : string;
    content : option string;
    image_url : option string;
    message_type : string;
    m_created_at : Z }.

Record database := mkDb
  { rooms : list room;
    room_participants : list participant;
    messages : list message }.

(** What a statement can be refused with. *)
Inductive pg_error :=
| unique_violation
| foreign_key_violation
| check_violation
| value_too_long
| no_rows
| multiple_rows.

Definition result (A : Type) : Type := (pg_error + A)%type.

(** PostgREST's [.single()] and [.maybeSingle()] on the rows a statement
    returns. *)
Definition single {A} (rows : list A) : result A :=
  match rows with
  | [r] => inr r
  | [] => inl no_rows
  | _ => inl multiple_rows
  end.

Definition maybeSingle {A} (rows : list A) : result (option A) :=
  match rows with
  | [] => inr None
  | [r] => inr (Some r)
  | _ => inl multiple_rows
  end.

(** [SELECT * FROM rooms WHERE code = c] *)
Definition select_rooms_by_code (db : database) (c : string) : list room :=
  filter (fun r => String.eqb (code r) c) (rooms db).

(** [SELECT * FROM room_participants WHERE room_id = r AND session_token = t] *)
Definition select_participants (db : database) (r : uuid) (t : string)
  : list participant :=
  filter (fun p => N.eqb (rp_room_id p) r && String.eqb (session_token p) t)
         (room_participants db).

(** [SELECT * FROM messages WHERE room_id = r ORDER BY created_at]; rows are
    kept in insertion order and [created_at] is assigned on insertion. *)
Definition select_messages (db : database) (r : uuid) : list message :=
  filter (fun m => N.eqb (m_room_id m) r) (messages db).

(** What the unique indexes and the foreign key look up. *)
Definition room_id_used (db : database) (i : uuid) : bool :=
  existsb (fun r => N.eqb (id r) i) (rooms db).

Definition code_used (db : database) (c : string) : bool :=
  existsb (fun r => String.eqb (code r) c) (rooms db).

Definition participant_id_used (db : database) (i : uuid) : bool :=
  existsb (fun p => N.eqb (rp_id p) i) (room_participants db).

Definition token_used (db : database) (t : string) : bool :=
  existsb (fun p => String.eqb (session_token p) t) (room_participants db).

Definition slot_taken (db : database) (room : uuid) (n : Z) : bool :=
  existsb (fun p => N.eqb (rp_room_id p) room && (participant_number p =? n))
          (room_participants db).

(** [INSERT INTO rooms]: primary key, [code VARCHAR(8) UNIQUE]. *)
Definition insert_room (db : database) (r : room) : result database :=
  if room_id_used db (id r) then inl unique_violation
  else if code_used db (code r) then inl unique_violation
  else if (8 <? String.length (code r))%nat then inl value_too_long
  else inr (mkDb (rooms db ++ [r]) (room_participants db) (messages db)).

(** [INSERT INTO room_participants]: primary key, the foreign key to
    [rooms(id)], [session_token UNIQUE],
    [CHECK (participant_number IN (1, 2))] and the unique index
    [idx_room_participant_number] on [(room_id, participant_number)]. *)
Definition insert_participant (db : database) (p : participant)
  : result database :=
  if participant_id_used db (rp_id p) then inl unique_violation
  else if negb (room_id_used db (rp_room_id p)) then inl foreign_key_violation
  else if token_used db (session_token p) then inl unique_violation
  else if negb ((participant_number p =? 1) || (participant_number p =? 2))
       then inl check_violation
  else if slot_taken db (rp_room_id p) (participant_number p)
       then inl unique_violation
  else inr (mkDb (rooms db) (room_participants db ++ [p]) (messages db)).

(** [UPDATE rooms SET status = 'active', participant_count = 2 WHERE id = i
    RETURNING *]: the rows after the update and the store. *)
Definition activate (r : room) : room :=
  mkRoom (id r) (code r) (duration_minutes r) (created_at r) (expires_at r)
         active 2.

Definition update_room_active (db : database) (i : uuid)
  : list room * database :=
  let upd := fun r => if N.eqb (id r) i then activate r else r in
  (map activate (filter (fun r => N.eqb (id r) i) (rooms db)),
   mkDb (map upd (rooms db)) (room_participants db) (messages db)).

(** [DELETE FROM rooms WHERE id = i], with [ON DELETE CASCADE] on both
    referencing tables. *)
Definition delete_room (db : database) (i : uuid) : database :=
  mkDb (filter (fun r => negb (N.eqb (id r) i)) (rooms db))
       (filter (fun p => negb (N.eqb (rp_room_id p) i)) (room_participants db))
       (filter (fun m => negb (N.eqb (m_room_id m) i)) (messages db)).

(** [cleanup_expired_rooms()], at database time [now]. *)
Definition mark_expired (now : Z) (r : room) : room :=
  if (expires_at r <? now) && negb (room_status_eqb (status r) expired)
  then mkRoom (id r) (code r) (duration_minutes r) (created_at r)
              (expires_at r) expired (participant_count r)
  else r.

Definition purgeable (now : Z) (r : room) : bool :=
  room_status_eqb (status r) expired && (expires_at r <? now - 3600000).

Definition cleanup_expired_rooms (now : Z) (db : database) : database :=
  let marked := map (mark_expired now) (rooms db) in
  let gone := fun i => existsb (fun r => N.eqb (id r) i && purgeable now r) marked in
  mkDb (filter (fun r => negb (purgeable now r)) marked)
       (filter (fun p => negb (gone (rp_room_id p))) (room_participants db))
       (filter (fun m => negb (gone (m_room_id m))) (messages db)).

End Db.

(** ** The edge function [room-operations] *)

Module Edge.
Import Db.

Local Open Scope string_scope.
Local Open Scope Z_scope.

(** The JSON body of a request: [action] and the fields the handlers and the
    client library ([lib/room.ts]) use; an absent field is [None]. *)
Record request := mkRequest
  { action : string;
    durationMinutes : option Z;
    req_code : option string;
    roomId : option uuid;
    sessionToken : option string;
    req_content : option string;
    messageType : option string;
    imageUrl : option string }.

Inductive body :=
| Error (error : string)
| Joined (room : Db.room) (sessionToken : string) (participantNumber : Z)
| Found (room : Db.room) (participantNumber : Z)
| Messages (messages : list Db.message).

(** [new Response(JSON.stringify(body), { status })]; 200 when no status is
    given. *)
Record response := mkResponse { http_status : Z; payload : body }.

(** What one invocation reads from outside the store: the draws of
    [Math.random] (as [Math.floor(Math.random() * chars.length)]), the bytes
    of [crypto.getRandomValues], the edge function's clock [Date.now()], the
    database's clock [now()] and the row identifiers the database generates.
    Each insert is a statement of its own and reads [now()] for its
    [created_at]: [db_now] at the first insert of the invocation and
    [db_now_second] at the second, which only [create] has. *)
Record env := mkEnv
  { random_index : nat -> nat;
    random_byte : nat -> Byte.byte;
    date_now : Z;
    db_now : Z;
    room_uuid : uuid;
    participant_uuid : uuid;
    db_now_second : Z }.

Definition chars : string := "ABCDEFGHJKLMNPQRSTUVWXYZ23456789".

Definition charAt (s : string) (i : nat) : string :=
  match String.get i s with
  | Some c => String c EmptyString
  | None => EmptyString
  end.

Fixpoint generateRoomCode_loop (draw : nat -> nat) (i n : nat) : string :=
  match n with
  | O => ""
  | S n' => (charAt chars (draw i mod String.length chars)%nat
             ++ generateRoomCode_loop draw (S i) n')%string
  end.

Definition generateRoomCode (draw : nat -> nat) : string :=
  generateRoomCode_loop draw 0 6.

Definition hex_digit (n : N) : ascii :=
  match String.get (N.to_nat n) "0123456789abcdef" with
  | Some c => c
  | None => "0"%char
  end.

(** [byte.toString(16).padStart(2, '0')] *)
Definition hex_byte (b : Byte.byte) : string :=
  let n := Byte.to_N b in
  String (hex_digit (n / 16)) (String (hex_digit (n mod 16)) EmptyString).

Definition generateSessionToken (bytes : nat -> Byte.byte) : string :=
  String.concat "" (map (fun i => hex_byte (bytes i)) (seq 0 32)).

Definition upper_ascii (c : ascii) : ascii :=
  let n := nat_of_ascii c in
  if ((97 <=? n) && (n <=? 122))%nat then ascii_of_nat (n - 32) else c.

(** [code.toUpperCase()], on the ASCII codes the join page lets through. *)
Fixpoint toUpperCase (s : string) : string :=
  match s with
  | EmptyString => EmptyString
  | String c s' => String (upper_ascii c) (toUpperCase s')
  end.

(** The strings on which this module's [String.length] and [toUpperCase]
    are those of JavaScript: every character is below 128 and so one UTF-16
    code unit that [toUpperCase] maps as [upper_ascii] does. Above that a
    character can count for more than one and can change to one below 128
    (U+017F becomes S). *)
Definition is_ascii (s : string) : bool :=
  forallb (fun c => (nat_of_ascii c <? 128)%nat) (list_ascii_of_string s).

Definition error_response (st : Z) (msg : string) : response :=
  mkResponse st (Error msg).

(** *** [action === 'create'] *)

Definition invalid_duration (d : option Z) : bool :=
  match d with
  | None => true
  | Some d => (d =? 0) || (d <? 1) || (d >? 120)
  end.

Definition create (e : env) (req : request) (db : database)
  : response * database :=
  if invalid_duration (durationMinutes req) then
    (error_response 400 "Invalid duration. Must be between 1 and 120 minutes.", db)
  else
    let d := match durationMinutes req with Some d => d | None => 0 end in
    let code := generateRoomCode (random_index e) in
    let sessionToken := generateSessionToken (random_byte e) in
    let expiresAt := date_now e + d * 60 * 1000 in
    let row := mkRoom (room_uuid e) code d (db_now e) expiresAt waiting 1 in
    match insert_room db row with
    | inl _ => (error_response 500 "Failed to create room", db)
    | inr db1 =>
        match insert_participant db1
                (mkParticipant (participant_uuid e) (id row) sessionToken 1
                               (db_now_second e)) with
        | inl _ =>
            (error_response 500 "Failed to register as participant",
             delete_room db1 (id row))
        | inr db2 => (mkResponse 200 (Joined row sessionToken 1), db2)
        end
    end.

(** *** [action === 'join']

    The handler awaits three statements; each is one function here, so that
    other requests can be placed between them. *)

(** Lines 143-200: the lookup and the checks on the row it returned. *)
Definition join_lookup (e : env) (req : request) (db : database)
  : response + room :=
  match req_code req with
  | None => inl (error_response 400 "Invalid room code")
  | Some code =>
      if negb (String.length code =? 6)%nat then
        inl (error_response 400 "Invalid room code")
      else
        match maybeSingle (select_rooms_by_code db (toUpperCase code)) with
        | inl _ => inl (error_response 500 "Database error")
        | inr None => inl (error_response 404 "Room not found")
        | inr (Some room) =>
            if expires_at room <? date_now e then
              inl (error_response 400 "This room has expired")
            else if room_status_eqb (status room) expired then
              inl (error_response 400 "This room is no longer available")
            else if room_status_eqb (status room) active
                    && (participant_count room >=? 2) then
              inl (error_response 400 "This room is already full")
            else inr room
        end
  end.

(** Lines 202-219: the token and the insert of the slot-2 row. *)
Definition join_register (e : env) (room : Db.room) (db : database)
  : response + database :=
  let sessionToken := generateSessionToken (random_byte e) in
  match insert_participant db
          (mkParticipant (participant_uuid e) (id room) sessionToken 2
                         (db_now e)) with
  | inl _ => inl (error_response 400 "Failed to join room. It may be full.")
  | inr db1 => inr db1
  end.

(** Lines 221-248: the update of the room row, filtered by [id] alone. *)
Definition join_activate (e : env) (room : Db.room) (db : database)
  : response * database :=
  let (rows, db1) := update_room_active db (id room) in
  match single rows with
  | inl _ => (error_response 500 "Failed to join room", db1)
  | inr updatedRoom =>
      (mkResponse 200 (Joined updatedRoom (generateSessionToken (random_byte e)) 2),
       db1)
  end.

Definition join (e : env) (req : request) (db : database)
  : response * database :=
  match join_lookup e req db with
  | inl resp => (resp, db)
  | inr room =>
      match join_register e room db with
      | inl resp => (resp, db)
      | inr db1 => join_activate e room db1
      end
  end.

(** *** [action === 'get'] *)

Definition is_empty (s : option string) : bool :=
  match s with
  | None => true
  | Some s => String.eqb s ""
  end.

Definition get (req : request) (db : database) : response :=
  if is_empty (req_code req) || is_empty (sessionToken req) then
    error_response 400 "Missing code or session token"
  else
    let code := match req_code req with Some c => c | None => "" end in
    let token := match sessionToken req with Some t => t | None => "" end in
    match single (select_rooms_by_code db (toUpperCase code)) with
    | inl _ => error_response 404 "Room not found"
    | inr room =>
        match single (select_participants db (id room) token) with
        | inl _ => error_response 403 "Not authorized to access this room"
        | inr p => mkResponse 200 (Found room (participant_number p))
        end
    end.

(** *** [action === 'getMessages'] *)

Definition getMessages (req : request) (db : database) : response :=
  match roomId req with
  | None => error_response 400 "Missing roomId or session token"
  | Some r =>
      if is_empty (sessionToken req) then
        error_response 400 "Missing roomId or session token"
      else
        let token := match sessionToken req with Some t => t | None => "" end in
        match single (select_participants db r token) with
        | inl _ => error_response 403 "Not authorized to access this room"
        | inr _ => mkResponse 200 (Messages (select_messages db r))
        end
  end.

(** *** The dispatch on [body.action] *)

Definition room_operations (e : env) (req : request) (db : database)
  : response * database :=
  if String.eqb (action req) "create" then create e req db
  else if String.eqb (action req) "join" then join e req db
  else if String.eqb (action req) "get" then (get req db, db)
  else if String.eqb (action req) "getMessages" then (getMessages req db, db)
  else (error_response 400 "Invalid action", db).

(** The request [sendMessage] of [lib/room.ts] puts on the wire. *)
Definition sendMessage_request (room : uuid) (token content : string)
  (type : string) (image : option string) : request :=
  mkRequest "sendMessage" None None (Some room) (Some token)
            (if String.eqb type "text" then Some content else None)
            (Some type)
            (if String.eqb type "image" then image else None).

Definition create_request (d : Z) : request :=
  mkRequest "create" (Some d) None None None None None None.

(** [joinRoom] of [lib/room.ts] upper-cases before it sends. *)
Definition join_request (code : string) : request :=
  mkRequest "join" None (Some (toUpperCase code)) None None None None None.

End Edge.

(** ** Two clients joining at once

    Each client runs the join handler; the store serves one statement at a
    time, in any order the schedule picks. *)

Module Race.
Import Db Edge.

(** Where a running join handler stands. *)
Inductive join_pc :=
| AtLookup
| AtRegister (room : Db.room)
| AtActivate (room : Db.room)
| Returned (resp : response).

Definition join_step (e : env) (req : request) (pc : join_pc) (db : database)
  : join_pc * database :=
  match pc with
  | AtLookup =>
      match join_lookup e req db with
      | inl resp => (Returned resp, db)
      | inr room => (AtRegister room, db)
      end
  | AtRegister room =>
      match join_register e room db with
      | inl resp => (Returned resp, db)
      | inr db1 => (AtActivate room, db1)
      end
  | AtActivate room =>
      let (resp, db1) := join_activate e room db in (Returned resp, db1)
  | Returned resp => (Returned resp, db)
  end.

Inductive client := First | Second.

Record system := mkSystem
  { pc1 : join_pc;
    pc2 : join_pc;
    store : database }.

Definition step (e1 e2 : env) (req1 req2 : request) (s : system) (who : client)
  : system :=
  match who with
  | First =>
      let (pc, db) := join_step e1 req1 (pc1 s) (store s) in
      mkSystem pc (pc2 s) db
  | Second =>
      let (pc, db) := join_step e2 req2 (pc2 s) (store s) in
      mkSystem (pc1 s) pc db
  end.

Definition run (e1 e2 : env) (req1 req2 : request) (sched : list client)
  (s : system) : system :=
  fold_left (step e1 e2 req1 req2) sched s.

Definition start (db : database) : system := mkSystem AtLookup AtLookup db.

(** The two ways the handler answers that the room is taken (both 400). *)
Definition room_full (r : response) : bool :=
  match r with
  | mkResponse st (Error msg) =>
      (st =? 400)
      && (String.eqb msg "This room is already full"
          || String.eqb msg "Failed to join room. It may be full.")
  | _ => false
  end.

(** The row a join writes. *)
Definition binding (e : env) (room : Db.room) : participant :=
  mkParticipant (participant_uuid e) (id room)
                (generateSessionToken (random_byte e)) 2 (db_now e).

Definition joined (e : env) (room : Db.room) : response :=
  mkResponse 200
    (Joined (activate room) (generateSessionToken (random_byte e)) 2).

(** Primary key and [UNIQUE (code)] hold of the rooms table. *)
Definition keys_ok (db : database) : Prop :=
  NoDup (map id (rooms db)) /\ NoDup (map code (rooms db)).

(** What a client brings that the store has not seen. *)
Definition fresh (e : env) (db : database) : Prop :=
  token_used db (generateSessionToken (random_byte e)) = false
  /\ participant_id_used db (participant_uuid e) = false.

(** A client of the race for [room] in store [db0]: its request carries a
    six character code that names the room, it arrives before the room
    expires, and its token and row identifier are new. *)
Record entrant (db0 : database) (room : Db.room) (e : env) (req : request)
  : Prop := mkEntrant
  { entrant_code : exists c, req_code req = Some c
                             /\ String.length c = 6%nat
                             /\ toUpperCase c = code room;
    entrant_in_time : date_now e <= expires_at room;
    entrant_fresh : fresh e db0 }.

(** The store [db0] once client [w] has written its row for [room], and
    once it has also updated the room. *)
Definition registered (db0 : database) (room : Db.room) (w : env) : database :=
  mkDb (rooms db0) (room_participants db0 ++ [binding w room]) (messages db0).

Definition activated (db0 : database) (room : Db.room) (w : env) : database :=
  mkDb (map (fun r => if N.eqb (id r) (id room) then activate r else r)
            (rooms db0))
       (room_participants db0 ++ [binding w room]) (messages db0).

(** The slot-[n] rows of a room. *)
Definition slot_rows (db : database) (room : uuid) (n : Z) : list participant :=
  filter (fun p => N.eqb (rp_room_id p) room && (participant_number p =? n))
         (room_participants db).

(** Where the handlers of a race can stand. A client still in the running
    has looked the room up at most; one that will be turned away may also
    have been answered that the room is full. *)
Inductive contender (room : Db.room) : join_pc -> Prop :=
| contender_lookup : contender room AtLookup
| contender_register : contender room (AtRegister room).

Inductive turned_away (room : Db.room) : join_pc -> Prop :=
| away_lookup : turned_away room AtLookup
| away_register : turned_away room (AtRegister room)
| away_returned r : room_full r = true -> turned_away room (Returned r).

Inductive invariant (e1 e2 : env) (db0 : database) (room : Db.room)
  : system -> Prop :=
| both_contending p1 p2 :
    contender room p1 -> contender room p2 ->
    invariant e1 e2 db0 room (mkSystem p1 p2 db0)
| first_registered p2 :
    turned_away room p2 ->
    invariant e1 e2 db0 room
      (mkSystem (AtActivate room) p2 (registered db0 room e1))
| first_joined p2 :
    turned_away room p2 ->
    invariant e1 e2 db0 room
      (mkSystem (Returned (joined e1 room)) p2 (activated db0 room e1))
| second_registered p1 :
    turned_away room p1 ->
    invariant e1 e2 db0 room
      (mkSystem p1 (AtActivate room) (registered db0 room e2))
| second_joined p1 :
    turned_away room p1 ->
    invariant e1 e2 db0 room
      (mkSystem p1 (Returned (joined e2 room)) (activated db0 room e2)).

(** How far a handler is: a step moves it on until it has returned. *)
Definition progress (pc : join_pc) : nat :=
  match pc with
  | AtLookup => 0
  | AtRegister _ => 1
  | AtActivate _ => 2
  | Returned _ => 3
  end.

Definition client_eqb (a b : client) : bool :=
  match a, b with
  | First, First | Second, Second => true
  | _, _ => false
  end.

(** The number of statements the schedule gives a client. *)
Definition turns (who : client) (sched : list client) : nat :=
  List.length (filter (client_eqb who) sched).

End Race.

(** ** Row level security on [messages] and the realtime channel *)

Module Rls.
Import Db.

Local Open Scope string_scope.
Local Open Scope list_scope.

(** The [USING] / [WITH CHECK] expressions the migrations write. *)
Inductive expr :=
| Always
      (* true *)
| RoomHasParticipant
      (* EXISTS (... WHERE rp.room_id = messages.room_id) *)
| SenderIsParticipant
      (* ... AND rp.session_token = messages.sender_id *)
| HeaderIsParticipant
      (* ... AND rp.session_token = request.headers ->> 'x-session-token' *).

Inductive command := SELECT | INSERT.

Definition command_eqb (a b : command) : bool :=
  match a, b with
  | SELECT, SELECT | INSERT, INSERT => true
  | _, _ => false
  end.

Record policy := mkPolicy
  { name : string;
    for_command : command;
    condition : expr }.

Inductive statement :=
| CREATE_POLICY (p : policy)
| DROP_POLICY (name : string)
| DROP_POLICY_IF_EXISTS (name : string).

Definition has_policy (ps : list policy) (n : string) : bool :=
  existsb (fun p => String.eqb (name p) n) ps.

Definition remove_policy (ps : list policy) (n : string) : list policy :=
  filter (fun p => negb (String.eqb (name p) n)) ps.

(** A statement fails ([None]) where PostgreSQL raises. *)
Definition exec (ps : list policy) (s : statement) : option (list policy) :=
  match s with
  | CREATE_POLICY p =>
      if has_policy ps (name p) then None else Some (ps ++ [p])
  | DROP_POLICY n =>
      if has_policy ps n then Some (remove_policy ps n) else None
  | DROP_POLICY_IF_EXISTS n => Some (remove_policy ps n)
  end.

Fixpoint exec_all (ps : list policy) (ss : list statement)
  : option (list policy) :=
  match ss with
  | [] => Some ps
  | s :: ss' =>
      match exec ps s with
      | Some ps' => exec_all ps' ss'
      | None => None
      end
  end.

(** The policy statements on [public.messages], migration by migration. *)
Definition migration_20251203195505 : list statement :=
  [ CREATE_POLICY (mkPolicy "Anyone can send messages" INSERT Always);
    CREATE_POLICY (mkPolicy "Anyone can view messages in room" SELECT Always) ].

Definition migration_room_participants : list statement :=
  [ DROP_POLICY_IF_EXISTS "Anyone can view messages in room";
    CREATE_POLICY (mkPolicy "Only room participants can view messages" SELECT
                            RoomHasParticipant);
    DROP_POLICY_IF_EXISTS "Anyone can send messages";
    CREATE_POLICY (mkPolicy "Only participants can send messages" INSERT
                            SenderIsParticipant) ].

Definition migration_remove_public_select : list statement :=
  [ DROP_POLICY_IF_EXISTS "Only room participants can view messages" ].

Definition migration_sender_id_varchar64 : list statement :=
  [ DROP_POLICY_IF_EXISTS "Only participants can send messages";
    CREATE_POLICY (mkPolicy "Only participants can send messages" INSERT
                            SenderIsParticipant) ].

Definition migration_20260210200118 : list statement :=
  [ CREATE_POLICY (mkPolicy "Participants can read messages" SELECT
                            SenderIsParticipant) ].

Definition migration_20260210200150 : list statement :=
  [ DROP_POLICY "Participants can read messages";
    CREATE_POLICY (mkPolicy "Participants can read messages" SELECT
                            HeaderIsParticipant) ].

Definition migration_20260210200247 : list statement :=
  [ DROP_POLICY "Participants can read messages";
    CREATE_POLICY (mkPolicy "Messages are readable" SELECT Always) ].

Definition migrations : list statement :=
  migration_20251203195505 ++ migration_room_participants
  ++ migration_remove_public_select ++ migration_sender_id_varchar64
  ++ migration_20260210200118 ++ migration_20260210200150
  ++ migration_20260210200247.

(** The policies in force once every migration has run. *)
Definition policies : list policy :=
  match exec_all [] migrations with
  | Some ps => ps
  | None => []
  end.

Definition bound (db : database) (room : uuid) (token : string) : bool :=
  existsb (fun p => N.eqb (rp_room_id p) room
                    && String.eqb (session_token p) token)
          (room_participants db).

(** A condition on row [m], for a request carrying [header] as
    [x-session-token]. *)
Definition holds (c : expr) (db : database) (header : option string)
  (m : message) : bool :=
  match c with
  | Always => true
  | RoomHasParticipant =>
      existsb (fun p => N.eqb (rp_room_id p) (m_room_id m))
              (room_participants db)
  | SenderIsParticipant => bound db (m_room_id m) (sender_id m)
  | HeaderIsParticipant =>
      match header with
      | Some t => bound db (m_room_id m) t
      | None => false
      end
  end.

(** Permissive policies of one command are joined by OR; with none the row
    is refused. *)
Definition permitted (ps : list policy) (c : command) (db : database)
  (header : option string) (m : message) : bool :=
  existsb (fun p => command_eqb (for_command p) c
                    && holds (condition p) db header m) ps.

(** A client of the realtime channel [room-messages-<roomId>] opened by
    [subscribeToMessages]: the filter [room_id=eq.<roomId>] and the session
    token its connection presents, if any (the call itself passes none). *)
Record subscriber := mkSubscriber
  { channel_room : uuid;
    presented_token : option string }.

Definition has_binding (db : database) (sub : subscriber) : bool :=
  match presented_token sub with
  | Some t => bound db (channel_room sub) t
  | None => false
  end.

(** A freshly inserted row reaches the subscriber when it passes the filter
    and the subscriber may SELECT it. *)
Definition delivered (ps : list policy) (db : database) (sub : subscriber)
  (m : message) : bool :=
  N.eqb (m_room_id m) (channel_room sub)
  && permitted ps SELECT db (presented_token sub) m.

(** The rows [onMessage] is called with while the rows of [inserted] are
    written to the table. *)
Definition subscribeToMessages (db : database) (sub : subscriber)
  (inserted : list message) : list message :=
  filter (delivered policies db sub) inserted.

End Rls.

(** ** Concrete stores and clients the statements are evaluated on *)

Module Sample.
Import Db Edge.

Definition alice : env :=
  mkEnv (fun i => i) (fun _ => Byte.x0a) 1000 1005 7%N 8%N 1009.

Definition bob : env :=
  mkEnv (fun i => (i + 6)%nat) (fun _ => Byte.x0b) 2000 2004 9%N 10%N 2008.

Definition carol : env :=
  mkEnv (fun i => (i + 12)%nat) (fun _ => Byte.x0c) 2001 2006 11%N 12%N 2010.

(** A client that arrives 100 ms before [alice]'s room expires. *)
Definition erin : env :=
  mkEnv (fun i => (i + 18)%nat) (fun _ => Byte.x0e) 1800900 1800950 15%N 16%N
        1800954.

(** A client whose draws spell the code [alice]'s did. *)
Definition dave : env :=
  mkEnv (fun i => i) (fun _ => Byte.x0d) 5000 5003 13%N 14%N 5007.

Definition empty : database := mkDb [] [] [].

(** The store after [alice] created a 30 minute room. *)
Definition lobby : database := snd (create alice (create_request 30) empty).

Definition lobby_room : room :=
  mkRoom 7%N "ABCDEF" 30 1005 1801000 waiting 1.

Definition hello : message :=
  mkMessage 20%N 7%N (generateSessionToken (random_byte alice))
            (Some "b64"%string) None "text" 3000.

End Sample.

(** ** JavaScript strings, [TextEncoder], [TextDecoder], [btoa], [atob] *)

Module Js.

(** A string is its sequence of UTF-16 code units. *)
Definition jsstring := list Z.

Definition code_unit (u : Z) : bool := (0 <=? u) && (u <=? 0xFFFF).

Definition is_string (s : jsstring) : bool := forallb code_unit s.

(** A string literal of the source, all ASCII. *)
Definition literal (s : string) : jsstring :=
  map (fun c => Z.of_nat (nat_of_ascii c)) (list_ascii_of_string s).

Definition byte := Byte.byte.

Definition b2z (b : byte) : Z := Z.of_N (Byte.to_N b).

(** Storing a number into a [Uint8Array] keeps it modulo 256. *)
Definition z2b (z : Z) : byte :=
  match Byte.of_N (Z.to_N (z mod 256)) with
  | Some b => b
  | None => Byte.x00
  end.

Inductive exception :=
| InvalidCharacterError
| OperationError.

(** *** UTF-16 and scalar values *)

Definition is_lead (u : Z) : bool := (0xD800 <=? u) && (u <=? 0xDBFF).
Definition is_trail (u : Z) : bool := (0xDC00 <=? u) && (u <=? 0xDFFF).

(** The conversion of a string to scalar values the encoder starts with: a
    surrogate pair is one scalar value, an unpaired surrogate becomes
    U+FFFD. *)
Fixpoint scalar_values (s : jsstring) : list Z :=
  match s with
  | [] => []
  | u :: r =>
      if is_lead u then
        match r with
        | v :: r' =>
            if is_trail v
            then (0x10000 + (u - 0xD800) * 0x400 + (v - 0xDC00))
                 :: scalar_values r'
            else 0xFFFD :: scalar_values r
        | [] => [0xFFFD]
        end
      else if is_trail u then 0xFFFD :: scalar_values r
      else u :: scalar_values r
  end.

(** A scalar value: a code point that is no surrogate. *)
Definition scalar_value (c : Z) : bool :=
  ((0 <=? c) && (c <? 0xD800)) || ((0xE000 <=? c) && (c <=? 0x10FFFF)).

Definition utf16_encode (c : Z) : list Z :=
  if c <? 0x10000 then [c]
  else [0xD800 + (c - 0x10000) / 0x400; 0xDC00 + (c - 0x10000) mod 0x400].

(** No unpaired surrogate. *)
Fixpoint well_formed (s : jsstring) : bool :=
  match s with
  | [] => true
  | u :: r =>
      if is_lead u then
        match r with
        | v :: r' => is_trail v && well_formed r'
        | [] => false
        end
      else negb (is_trail u) && well_formed r
  end.

Definition starts_with_bom (s : jsstring) : bool :=
  match s with
  | u :: _ => u =? 0xFEFF
  | [] => false
  end.

(** *** [TextEncoder.encode] *)

Definition utf8_encode (c : Z) : list byte :=
  if c <? 0x80 then [z2b c]
  else if c <? 0x800 then
    [z2b (0xC0 + c / 0x40); z2b (0x80 + c mod 0x40)]
  else if c <? 0x10000 then
    [z2b (0xE0 + c / 0x1000); z2b (0x80 + (c / 0x40) mod 0x40);
     z2b (0x80 + c mod 0x40)]
  else
    [z2b (0xF0 + c / 0x40000); z2b (0x80 + (c / 0x1000) mod 0x40);
     z2b (0x80 + (c / 0x40) mod 0x40); z2b (0x80 + c mod 0x40)].

Definition encode (s : jsstring) : list byte :=
  flat_map utf8_encode (scalar_values s).

(** *** [TextDecoder.decode], UTF-8, not fatal, BOM not ignored *)

Record utf8_state := mkUtf8
  { code_point : Z;
    bytes_seen : Z;
    bytes_needed : Z;
    lower_boundary : Z;
    upper_boundary : Z }.

Definition utf8_initial : utf8_state := mkUtf8 0 0 0 0x80 0xBF.

(** A byte read when no sequence is open: the new state and what is
    emitted. *)
Definition utf8_first (b : Z) : utf8_state * list Z :=
  if b <=? 0x7F then (utf8_initial, [b])
  else if (0xC2 <=? b) && (b <=? 0xDF) then
    (mkUtf8 (b mod 0x20) 0 1 0x80 0xBF, [])
  else if (0xE0 <=? b) && (b <=? 0xEF) then
    (mkUtf8 (b mod 0x10) 0 2
            (if b =? 0xE0 then 0xA0 else 0x80)
            (if b =? 0xED then 0x9F else 0xBF), [])
  else if (0xF0 <=? b) && (b <=? 0xF4) then
    (mkUtf8 (b mod 0x08) 0 3
            (if b =? 0xF0 then 0x90 else 0x80)
            (if b =? 0xF4 then 0x8F else 0xBF), [])
  else (utf8_initial, [0xFFFD]).

(** A byte outside the boundaries ends the open sequence with U+FFFD and is
    read again as a first byte. *)
Definition utf8_handler (st : utf8_state) (b : Z) : utf8_state * list Z :=
  if bytes_needed st =? 0 then utf8_first b
  else if negb ((lower_boundary st <=? b) && (b <=? upper_boundary st)) then
    let (st', out) := utf8_first b in (st', 0xFFFD :: out)
  else
    let cp := code_point st * 0x40 + b mod 0x40 in
    if bytes_seen st + 1 =? bytes_needed st then (utf8_initial, [cp])
    else (mkUtf8 cp (bytes_seen st + 1) (bytes_needed st) 0x80 0xBF, []).

Fixpoint utf8_decode (st : utf8_state) (bs : list byte) : list Z :=
  match bs with
  | [] => if bytes_needed st =? 0 then [] else [0xFFFD]
  | b :: bs' =>
      let (st', out) := utf8_handler st (b2z b) in
      out ++ utf8_decode st' bs'
  end.

Definition strip_bom (cs : list Z) : list Z :=
  match cs with
  | c :: r => if c =? 0xFEFF then r else cs
  | [] => []
  end.

Definition decode (bs : list byte) : jsstring :=
  flat_map utf16_encode (strip_bom (utf8_decode utf8_initial bs)).

(** [String.prototype.toWellFormed]. *)
Definition toWellFormed (s : jsstring) : jsstring :=
  flat_map utf16_encode (scalar_values s).

(** *** [String.fromCharCode(...bytes)] and [btoa]

    The spread passes every byte as one argument; the bound an engine puts
    on the number of arguments of a call is not part of this model. *)

Definition fromCharCode (bs : list byte) : jsstring := map b2z bs.

Definition base64_char (i : Z) : Z :=
  if i <? 26 then 65 + i
  else if i <? 52 then 97 + (i - 26)
  else if i <? 62 then 48 + (i - 52)
  else if i =? 62 then 43
  else 47.

Fixpoint btoa_loop (s : list Z) : list Z :=
  match s with
  | [] => []
  | [a] => [base64_char (a / 4); base64_char (a mod 4 * 16); 61; 61]
  | [a; b] =>
      [base64_char (a / 4); base64_char (a mod 4 * 16 + b / 16);
       base64_char (b mod 16 * 4); 61]
  | a :: b :: c :: r =>
      base64_char (a / 4) :: base64_char (a mod 4 * 16 + b / 16)
      :: base64_char (b mod 16 * 4 + c / 64) :: base64_char (c mod 64)
      :: btoa_loop r
  end.

Definition btoa (s : jsstring) : exception + jsstring :=
  if forallb (fun u => u <=? 255) s then inr (btoa_loop s)
  else inl InvalidCharacterError.

(** *** [atob]: forgiving-base64 decode *)

Definition ascii_whitespace (c : Z) : bool :=
  (c =? 9) || (c =? 10) || (c =? 12) || (c =? 13) || (c =? 32).

(** One or two U+003D at the end are removed. *)
Fixpoint remove_trailing_equals (s : list Z) : list Z :=
  match s with
  | [] => []
  | [a] => if a =? 61 then [] else [a]
  | [a; b] =>
      if b =? 61 then (if a =? 61 then [] else [a]) else [a; b]
  | a :: r => a :: remove_trailing_equals r
  end.

Definition base64_value (c : Z) : option Z :=
  if (65 <=? c) && (c <=? 90) then Some (c - 65)
  else if (97 <=? c) && (c <=? 122) then Some (c - 71)
  else if (48 <=? c) && (c <=? 57) then Some (c + 4)
  else if c =? 43 then Some 62
  else if c =? 47 then Some 63
  else None.

Fixpoint base64_values (s : list Z) : option (list Z) :=
  match s with
  | [] => Some []
  | c :: r =>
      match base64_value c, base64_values r with
      | Some v, Some vs => Some (v :: vs)
      | _, _ => None
      end
  end.

(** Four values give three bytes; of a rest of three or two values the
    last four or two bits are dropped. *)
Fixpoint atob_loop (v : list Z) : list Z :=
  match v with
  | a :: b :: c :: d :: r =>
      (a * 4 + b / 16) :: (b mod 16 * 16 + c / 4) :: (c mod 4 * 64 + d)
      :: atob_loop r
  | [a; b; c] => [a * 4 + b / 16; b mod 16 * 16 + c / 4]
  | [a; b] => [a * 4 + b / 16]
  | _ => []
  end.

Definition atob (s : jsstring) : exception + jsstring :=
  let data := filter (fun c => negb (ascii_whitespace c)) s in
  let data := if (List.length data mod 4 =? 0)%nat
              then remove_trailing_equals data else data in
  if (List.length data mod 4 =? 1)%nat then inl InvalidCharacterError
  else
    match base64_values data with
    | None => inl InvalidCharacterError
    | Some v => inr (atob_loop v)
    end.

(** [new Uint8Array(s.split("").map((c) => c.charCodeAt(0)))] *)
Definition Uint8Array_from (s : jsstring) : list byte := map z2b s.

End Js.

(** ** [lib/crypto.ts] *)

Module Crypto.
Import Js.

(** The primitives of [crypto.subtle] the module calls: PBKDF2 with SHA-256
    deriving a 256 bit key from a password, a salt and an iteration count,
    and AES-GCM with a 128 bit tag, whose decryption rejects (here [None],
    an [OperationError] in the source) what it cannot authenticate. *)
Record WebCrypto := mkWebCrypto
  { PBKDF2 : list byte -> list byte -> Z -> list byte;
    AES_GCM_encrypt : list byte -> list byte -> list byte -> list byte;
    AES_GCM_decrypt : list byte -> list byte -> list byte
                      -> option (list byte) }.

(** What is assumed of them: decryption under the key and the 96 bit IV of
    the encryption gives the data back, and data shorter than a tag is
    rejected. *)
Record lawful (W : WebCrypto) : Prop := mkLawful
  { decrypt_encrypt :
      forall key iv data, List.length iv = 12%nat ->
        AES_GCM_decrypt W key iv (AES_GCM_encrypt W key iv data) = Some data;
    decrypt_short :
      forall key iv data, (List.length data < 16)%nat ->
        AES_GCM_decrypt W key iv data = None }.

Section Messages.
Variable W : WebCrypto.

Definition getKey (roomCode : jsstring) : list byte :=
  PBKDF2 W (encode roomCode) (encode (literal "ghost-chat-salt-v1")) 100000.

(** [iv] is what [crypto.getRandomValues(new Uint8Array(12))] returned. The
    call [String.fromCharCode(...combined)] is taken as accepted here;
    [Engine.encryptMessage] below has the bound an engine puts on it. *)
Definition encryptMessage (iv : list byte) (text roomCode : jsstring)
  : exception + jsstring :=
  let key := getKey roomCode in
  let encoded := encode text in
  let ciphertext := AES_GCM_encrypt W key iv encoded in
  let combined := iv ++ ciphertext in
  btoa (fromCharCode combined).

Definition sentinel : jsstring := literal "[Message could not be decrypted]".

(** The body of the [try] block. *)
Definition decryptMessage_try (encryptedBase64 roomCode : jsstring)
  : exception + jsstring :=
  let key := getKey roomCode in
  match atob encryptedBase64 with
  | inl ex => inl ex
  | inr binary =>
      let combined := Uint8Array_from binary in
      let iv := firstn 12 combined in
      let ciphertext := skipn 12 combined in
      match AES_GCM_decrypt W key iv ciphertext with
      | None => inl OperationError
      | Some decrypted => inr (decode decrypted)
      end
  end.

Definition decryptMessage (encryptedBase64 roomCode : jsstring) : jsstring :=
  match decryptMessage_try encryptedBase64 roomCode with
  | inr text => text
  | inl _ => sentinel
  end.
End Messages.

(** A small instance to run the module on: the key is the password and the
    salt, the ciphertext is the data followed by a 16 byte tag that sums
    key, IV and data. *)
Module Model.

Definition checksum (bs : list byte) : Z :=
  fold_right (fun b acc => (b2z b + 31 * acc) mod 256) 7 bs.

Definition tag (key iv data : list byte) : list byte :=
  z2b (checksum (key ++ iv ++ data)) :: z2b (checksum key)
  :: repeat Byte.x00 14.

Definition bytes_eqb (a b : list byte) : bool :=
  if list_eq_dec Byte.byte_eq_dec a b then true else false.

Definition encrypt (key iv data : list byte) : list byte :=
  data ++ tag key iv data.

Definition decrypt (key iv data : list byte) : option (list byte) :=
  if (List.length data <? 16)%nat then None
  else
    let n := (List.length data - 16)%nat in
    if bytes_eqb (skipn n data) (tag key iv (firstn n data))
    then Some (firstn n data) else None.

Definition webcrypto : WebCrypto :=
  mkWebCrypto (fun password salt _ => password ++ salt) encrypt decrypt.

Definition iv : list byte := map (fun i => z2b (Z.of_nat i)) (seq 1 12).

End Model.

End Crypto.

(** ** [encryptMessage] on an engine

    [String.fromCharCode(...combined)] passes one argument for every byte of
    [combined]. The language sets no bound to the arguments of a call, an
    engine does: a call with more arguments than it takes throws a
    [RangeError]. [max_arguments] is the number the engine takes. *)
Module Engine.
Import Js Crypto.

Inductive thrown :=
| RangeError                      (* too many arguments in one call *)
| DOMException (ex : exception)   (* what [btoa] throws *).

Section Calls.
Variable max_arguments : nat.
Variable W : WebCrypto.

(** [String.fromCharCode(...combined)] *)
Definition fromCharCode_spread (combined : list byte) : thrown + jsstring :=
  if (List.length combined <=? max_arguments)%nat
  then inr (fromCharCode combined)
  else inl RangeError.

(** The bytes [encryptMessage] puts together: the IV, then the ciphertext. *)
Definition combined (iv : list byte) (text roomCode : jsstring) : list byte :=
  iv ++ AES_GCM_encrypt W (getKey W roomCode) iv (encode text).

Definition encryptMessage (iv : list byte) (text roomCode : jsstring)
  : thrown + jsstring :=
  let key := getKey W roomCode in
  let encoded := encode text in
  let ciphertext := AES_GCM_encrypt W key iv encoded in
  let combined := iv ++ ciphertext in
  match fromCharCode_spread combined with
  | inl t => inl t
  | inr binary =>
      match btoa binary with
      | inl ex => inl (DOMException ex)
      | inr base64 => inr base64
      end
  end.
End Calls.

End Engine.

(** ** Row level security on [public.room_participants]

    The table has row level security enabled. The edge function connects
    with the service role key, which bypasses it; a client of
    [@/integrations/supabase/client] connects with the publishable key and
    is subject to it, also inside the sub-selects that the policies on
    [rooms] and [messages] run on this table: PostgreSQL applies a table's
    policies wherever the table is read on behalf of the role of the
    query. *)
Module ParticipantsRls.
Import Db.

Local Open Scope string_scope.
Local Open Scope list_scope.

Inductive expr :=
| Always  (* true *)
| Never   (* false *).

Inductive command := SELECT | INSERT.

Definition command_eqb (a b : command) : bool :=
  match a, b with
  | SELECT, SELECT | INSERT, INSERT => true
  | _, _ => false
  end.

Record policy := mkPolicy
  { name : string;
    for_command : command;
    condition : expr }.

Inductive statement :=
| CREATE_POLICY (p : policy)
| DROP_POLICY_IF_EXISTS (name : string).

Definition has_policy (ps : list policy) (n : string) : bool :=
  existsb (fun p => String.eqb (name p) n) ps.

Definition remove_policy (ps : list policy) (n : string) : list policy :=
  filter (fun p => negb (String.eqb (name p) n)) ps.

Definition exec (ps : list policy) (s : statement) : option (list policy) :=
  match s with
  | CREATE_POLICY p =>
      if has_policy ps (name p) then None else Some (ps ++ [p])
  | DROP_POLICY_IF_EXISTS n => Some (remove_policy ps n)
  end.

Fixpoint exec_all (ps : list policy) (ss : list statement)
  : option (list policy) :=
  match ss with
  | [] => Some ps
  | s :: ss' =>
      match exec ps s with
      | Some ps' => exec_all ps' ss'
      | None => None
      end
  end.

(** The migration that creates the table. *)
Definition migration_room_participants : list statement :=
  [ CREATE_POLICY (mkPolicy "Participants can view own session" SELECT Always);
    CREATE_POLICY (mkPolicy "No direct insert" INSERT Never) ].

(** [Fix 1: Remove public SELECT from room_participants]. *)
Definition migration_remove_public_select : list statement :=
  [ DROP_POLICY_IF_EXISTS "Participants can view own session" ].

Definition migrations : list statement :=
  migration_room_participants ++ migration_remove_public_select.

Definition policies : list policy :=
  match exec_all [] migrations with
  | Some ps => ps
  | None => []
  end.

Definition holds (c : expr) (p : participant) : bool :=
  match c with
  | Always => true
  | Never => false
  end.

Definition may_read (p : participant) : bool :=
  existsb (fun q => command_eqb (for_command q) SELECT
                    && holds (condition q) p) policies.

(** [SELECT * FROM room_participants] on behalf of a client. *)
Definition select_participants (db : database) : list participant :=
  filter may_read (room_participants db).

(** The tables as a statement of a client reads them where a policy
    consults [room_participants]. *)
Definition as_client (db : database) : database :=
  mkDb (rooms db) (select_participants db) (messages db).

End ParticipantsRls.

(** ** Row level security on [rooms], and what a client may write itself *)

Module RoomsRls.
Import Db.

Local Open Scope string_scope.
Local Open Scope list_scope.
Local Open Scope Z_scope.

(** The conditions the migrations put on [public.rooms]. *)
Inductive expr :=
| Always
      (* true *)
| HasParticipantOrWaiting
      (* EXISTS (... WHERE rp.room_id = rooms.id) OR status = 'waiting' *)
| HasParticipant
      (* EXISTS (... WHERE rp.room_id = rooms.id) *)
| NotExpired
      (* status != 'expired' *)
| ActiveAndFullOrExpired
      (* (status = 'active' AND participant_count = 2) OR (status = 'expired') *).

Inductive command := SELECT | INSERT | UPDATE.

Definition command_eqb (a b : command) : bool :=
  match a, b with
  | SELECT, SELECT | INSERT, INSERT | UPDATE, UPDATE => true
  | _, _ => false
  end.

(** [USING] is asked of the row as it is, [WITH CHECK] of the row as it
    would be; a policy written with [USING] alone checks both with it. *)
Record policy := mkPolicy
  { name : string;
    for_command : command;
    using_expr : expr;
    check_expr : expr }.

Inductive statement :=
| CREATE_POLICY (p : policy)
| DROP_POLICY_IF_EXISTS (name : string).

Definition has_policy (ps : list policy) (n : string) : bool :=
  existsb (fun p => String.eqb (name p) n) ps.

Definition remove_policy (ps : list policy) (n : string) : list policy :=
  filter (fun p => negb (String.eqb (name p) n)) ps.

Definition exec (ps : list policy) (s : statement) : option (list policy) :=
  match s with
  | CREATE_POLICY p =>
      if has_policy ps (name p) then None else Some (ps ++ [p])
  | DROP_POLICY_IF_EXISTS n => Some (remove_policy ps n)
  end.

Fixpoint exec_all (ps : list policy) (ss : list statement)
  : option (list policy) :=
  match ss with
  | [] => Some ps
  | s :: ss' =>
      match exec ps s with
      | Some ps' => exec_all ps' ss'
      | None => None
      end
  end.

Definition migration_20251203195505 : list statement :=
  [ CREATE_POLICY (mkPolicy "Anyone can create rooms" INSERT Always Always);
    CREATE_POLICY (mkPolicy "Anyone can view rooms by code" SELECT Always Always);
    CREATE_POLICY (mkPolicy "Anyone can update room status" UPDATE Always Always) ].

Definition migration_room_participants : list statement :=
  [ DROP_POLICY_IF_EXISTS "Anyone can view rooms by code";
    CREATE_POLICY (mkPolicy "Rooms viewable by participants only" SELECT
                            HasParticipantOrWaiting HasParticipantOrWaiting) ].

Definition migration_remove_public_select : list statement :=
  [ DROP_POLICY_IF_EXISTS "Rooms viewable by participants only";
    CREATE_POLICY (mkPolicy "Rooms viewable by participants only" SELECT
                            HasParticipant HasParticipant) ].

Definition migration_restricted_updates : list statement :=
  [ DROP_POLICY_IF_EXISTS "Anyone can update room status";
    CREATE_POLICY (mkPolicy "Restricted room status updates" UPDATE
                            NotExpired ActiveAndFullOrExpired) ].

Definition migrations : list statement :=
  migration_20251203195505 ++ migration_room_participants
  ++ migration_remove_public_select ++ migration_restricted_updates.

Definition policies : list policy :=
  match exec_all [] migrations with
  | Some ps => ps
  | None => []
  end.

Definition holds (c : expr) (db : database) (r : room) : bool :=
  match c with
  | Always => true
  | HasParticipantOrWaiting =>
      existsb (fun p => N.eqb (rp_room_id p) (id r)) (room_participants db)
      || room_status_eqb (status r) waiting
  | HasParticipant =>
      existsb (fun p => N.eqb (rp_room_id p) (id r)) (room_participants db)
  | NotExpired => negb (room_status_eqb (status r) expired)
  | ActiveAndFullOrExpired =>
      (room_status_eqb (status r) active && (participant_count r =? 2))
      || room_status_eqb (status r) expired
  end.

(** Permissive policies of one command are joined by OR; their conditions
    are asked on behalf of the client. *)
Definition may_read (db : database) (r : room) : bool :=
  existsb (fun p => command_eqb (for_command p) SELECT
                    && holds (using_expr p) (ParticipantsRls.as_client db) r)
          policies.

Definition may_update (db : database) (r : room) : bool :=
  existsb (fun p => command_eqb (for_command p) UPDATE
                    && holds (using_expr p) (ParticipantsRls.as_client db) r)
          policies.

Definition may_become (db : database) (r : room) : bool :=
  existsb (fun p => command_eqb (for_command p) UPDATE
                    && holds (check_expr p) (ParticipantsRls.as_client db) r)
          policies.

(** [supabase.from('rooms').update(values).eq('id', i)] by a client: the
    rows with that id which the client may read and update are rewritten;
    a rewritten row that fails [WITH CHECK] fails the statement. *)
Definition targeted (db : database) (i : uuid) (r : room) : bool :=
  N.eqb (id r) i && may_read db r && may_update db r.

Definition update_rooms (db : database) (i : uuid) (f : room -> room)
  : result database :=
  if forallb (fun r => negb (targeted db i r) || may_become db (f r)) (rooms db)
  then inr (mkDb (map (fun r => if targeted db i r then f r else r) (rooms db))
                 (room_participants db) (messages db))
  else inl check_violation.

Definition set_expired (r : room) : room :=
  mkRoom (id r) (code r) (duration_minutes r) (created_at r) (expires_at r)
         expired (participant_count r).

(** [SELECT * FROM rooms] by a client. *)
Definition select_rooms (db : database) : list room :=
  filter (may_read db) (rooms db).

(** [subscribeToRoom] of [lib/room.ts]: the rows [onUpdate] is called with
    while the rows of [updated] are rewritten in the table, those of the
    channel's room that the client may read. *)
Definition subscribeToRoom (db : database) (roomId : uuid)
  (updated : list room) : list room :=
  filter (fun r => N.eqb (id r) roomId && may_read db r) updated.

End RoomsRls.

(** ** The store as the operations leave it *)

Module Store.
Import Db.

Local Open Scope Z_scope.

Definition slot (p : participant) : uuid * Z :=
  (rp_room_id p, participant_number p).

(** The rows bound to a room. *)
Definition bindings (db : database) (i : uuid) : list participant :=
  filter (fun p => N.eqb (rp_room_id p) i) (room_participants db).

(** What the schema declares: primary keys, [UNIQUE (code)],
    [UNIQUE (session_token)], the unique index on
    [(room_id, participant_number)], the [CHECK] on the slot number and the
    two foreign keys. *)
Record constrained (db : database) : Prop := mkConstrained
  { room_ids : NoDup (map id (rooms db));
    codes : NoDup (map code (rooms db));
    participant_ids : NoDup (map rp_id (room_participants db));
    tokens : NoDup (map session_token (room_participants db));
    slots : NoDup (map slot (room_participants db));
    slot_numbers :
      Forall (fun p => participant_number p = 1 \/ participant_number p = 2)
             (room_participants db);
    message_ids : NoDup (map m_id (messages db));
    participant_rooms :
      Forall (fun p => room_id_used db (rp_room_id p) = true)
             (room_participants db);
    message_rooms :
      Forall (fun m => room_id_used db (m_room_id m) = true) (messages db) }.

(** What the columns [participant_count] and [status] say of a room's
    bindings. *)
Record counted (db : database) (r : room) : Prop := mkCounted
  { count_is_bindings :
      participant_count r = Z.of_nat (List.length (bindings db (id r)));
    count_range : 1 <= participant_count r <= 2;
    waiting_alone : status r = waiting -> participant_count r = 1;
    active_full : status r = active -> participant_count r = 2 }.

Record consistent (db : database) : Prop := mkConsistent
  { schema : constrained db;
    counts : Forall (counted db) (rooms db) }.

(** A row inserted into [messages] by a client itself, as the first
    [sendMessage] of [lib/room.ts] did. PostgreSQL reports the first refusal
    it meets: the row is built with its values cast to the column types,
    then asked the [WITH CHECK] of the [INSERT] policy in force, then the
    [CHECK] constraint, then entered in the index of the primary key, and
    the foreign key is checked at the end of the statement. *)
Inductive refusal :=
| Constraint (e : pg_error)
| RowLevelSecurity.

Definition insert_message (db : database) (m : message)
  : refusal + database :=
  if (64 <? String.length (sender_id m))%nat
  then inl (Constraint value_too_long)
  else if (10 <? String.length (message_type m))%nat
       then inl (Constraint value_too_long)
  else if negb (Rls.permitted Rls.policies Rls.INSERT
                               (ParticipantsRls.as_client db) None m)
       then inl RowLevelSecurity
  else if negb (String.eqb (message_type m) "text"
                || String.eqb (message_type m) "image")
       then inl (Constraint check_violation)
  else if existsb (fun m' => N.eqb (m_id m') (m_id m)) (messages db)
       then inl (Constraint unique_violation)
  else if negb (room_id_used db (m_room_id m))
       then inl (Constraint foreign_key_violation)
  else inr (mkDb (rooms db) (room_participants db) (messages db ++ [m])).

(** [expireRoom] of [lib/room.ts], as far as the store goes: the error of
    the update is logged and dropped. *)
Definition expireRoom (i : uuid) (db : database) : database :=
  match RoomsRls.update_rooms db i RoomsRls.set_expired with
  | inr db' => db'
  | inl _ => db
  end.

(** What can happen to the store, one at a time. *)
Inductive operation :=
| Invoke (e : Edge.env) (req : Edge.request)
| Cleanup (now : Z)
| Expire (i : uuid)
| Insert (m : message).

Definition perform (db : database) (op : operation) : database :=
  match op with
  | Invoke e req => snd (Edge.room_operations e req db)
  | Cleanup now => cleanup_expired_rooms now db
  | Expire i => expireRoom i db
  | Insert m =>
      match insert_message db m with
      | inr db' => db'
      | inl _ => db
      end
  end.

Definition history (ops : list operation) : database :=
  fold_left perform ops (mkDb [] [] []).

(** The columns of a room no operation rewrites. *)
Definition fixed (r : room) : uuid * string * Z * Z * Z :=
  (id r, code r, duration_minutes r, created_at r, expires_at r).

End Store.

(** ** The rows a successful create writes *)

Module Created.
Import Db Edge.

Local Open Scope Z_scope.

Definition room (e : env) (d : Z) : Db.room :=
  mkRoom (room_uuid e) (generateRoomCode (random_index e)) d (db_now e)
         (date_now e + d * 60 * 1000) waiting 1.

Definition creator (e : env) : participant :=
  mkParticipant (participant_uuid e) (room_uuid e)
                (generateSessionToken (random_byte e)) 1 (db_now_second e).

Definition store (e : env) (d : Z) (db : database) : database :=
  mkDb (rooms db ++ [room e d]) (room_participants db ++ [creator e])
       (messages db).

End Created.

(** ** [lib/room.ts]: the client of the edge function *)

Module Client.
Import Db Edge.

Local Open Scope string_scope.
Local Open Scope list_scope.
Local Open Scope Z_scope.

(** [sessionStorage]: keys in the order they were first set. *)
Definition storage := list (string * string).

Definition getItem (k : string) (s : storage) : option string :=
  match find (fun kv => String.eqb (fst kv) k) s with
  | Some kv => Some (snd kv)
  | None => None
  end.

Definition setItem (k v : string) (s : storage) : storage :=
  if existsb (fun kv => String.eqb (fst kv) k) s
  then map (fun kv => if String.eqb (fst kv) k then (k, v) else kv) s
  else s ++ [(k, v)].

Definition removeItem (k : string) (s : storage) : storage :=
  filter (fun kv => negb (String.eqb (fst kv) k)) s.

Definition SESSION_TOKEN_KEY : string := "roomSessionToken".
Definition ROOM_CODE_KEY : string := "roomCode".

Definition getSessionToken (s : storage) : option string :=
  getItem SESSION_TOKEN_KEY s.

Definition setSessionToken (token : string) (s : storage) : storage :=
  setItem SESSION_TOKEN_KEY token s.

Definition clearSession (s : storage) : storage :=
  removeItem ROOM_CODE_KEY (removeItem SESSION_TOKEN_KEY s).

Definition getStoredRoomCode (s : storage) : option string :=
  getItem ROOM_CODE_KEY s.

Definition setStoredRoomCode (code : string) (s : storage) : storage :=
  setItem ROOM_CODE_KEY code s.

(** The fields the functions read off the parsed body; a field the body
    lacks reads [undefined], here [None]. *)
Definition data_error (b : body) : option string :=
  match b with
  | Error m => Some m
  | _ => None
  end.

Definition data_sessionToken (b : body) : option string :=
  match b with
  | Joined _ t _ => Some t
  | _ => None
  end.

Definition data_room (b : body) : option room :=
  match b with
  | Joined r _ _ | Found r _ => Some r
  | _ => None
  end.

Definition data_messages (b : body) : option (list message) :=
  match b with
  | Messages ms => Some ms
  | _ => None
  end.

(** No body of the edge function has a field [message]. *)
Definition data_message (b : body) : option message := None.

(** A string in a condition: [undefined] and the empty string are falsy. *)
Definition truthy (v : option string) : bool :=
  match v with
  | Some s => negb (String.eqb s "")
  | None => false
  end.

(** A value where a string is expected. *)
Definition to_string (v : option string) : string :=
  match v with
  | Some s => s
  | None => "undefined"
  end.

(** [supabase.functions.invoke] once the request has reached the function:
    an answer outside 200..299 comes back as [{ data: null, error }] with a
    [FunctionsHttpError], any other as [{ data, error: null }] with the
    parsed body. *)
Inductive FunctionsError :=
| FunctionsHttpError (status : Z).

Definition error_message (err : FunctionsError) : string :=
  "Edge Function returned a non-2xx status code".

Record invoked := mkInvoked
  { data : option body;
    error : option FunctionsError }.

Definition invoke (e : env) (req : request) (db : database)
  : invoked * database :=
  let (resp, db') := room_operations e req db in
  if (200 <=? http_status resp) && (http_status resp <=? 299)
  then (mkInvoked (Some (payload resp)) None, db')
  else (mkInvoked None (Some (FunctionsHttpError (http_status resp))), db').

(** What a call runs in: the tab's [sessionStorage] and the tables. *)
Record world := mkWorld
  { session : storage;
    store : database }.

Inductive thrown :=
| Thrown (err : FunctionsError)     (* throw error *)
| Error_ (message : string)         (* throw new Error(message) *)
| TypeError                         (* a property read of null or undefined *).

Definition createRoom (e : env) (durationMinutes : Z) (w : world)
  : (thrown + room) * world :=
  let (r, db) := invoke e (create_request durationMinutes) (store w) in
  match error r, data r with
  | Some err, _ => (inl (Thrown err), mkWorld (session w) db)
  | None, None => (inl TypeError, mkWorld (session w) db)
  | None, Some b =>
      if truthy (data_error b)
      then (inl (Error_ (to_string (data_error b))), mkWorld (session w) db)
      else
        let s1 := setSessionToken (to_string (data_sessionToken b))
                                  (session w) in
        match data_room b with
        | None => (inl TypeError, mkWorld s1 db)
        | Some room =>
            (inr room, mkWorld (setStoredRoomCode (code room) s1) db)
        end
  end.

(** [{ error }] or [{ room }]. *)
Inductive join_result :=
| JoinError (error : string)
| JoinRoom (room : option room).

Definition joinRoom (e : env) (code : string) (w : world)
  : (thrown + join_result) * world :=
  let (r, db) := invoke e (join_request code) (store w) in
  match error r, data r with
  | Some err, _ =>
      (inr (JoinError (if truthy (Some (error_message err))
                       then error_message err else "Failed to join room")),
       mkWorld (session w) db)
  | None, None => (inl TypeError, mkWorld (session w) db)
  | None, Some b =>
      if truthy (data_error b)
      then (inr (JoinError (to_string (data_error b))),
            mkWorld (session w) db)
      else
        let s1 := setSessionToken (to_string (data_sessionToken b))
                                  (session w) in
        match data_room b with
        | None => (inl TypeError, mkWorld s1 db)
        | Some room =>
            (inr (JoinRoom (Some room)),
             mkWorld (setStoredRoomCode (Db.code room) s1) db)
        end
  end.

(** [null] and [undefined] are both [None]. *)
Definition getRoomByCode (e : env) (code : string) (w : world)
  : option room * world :=
  if truthy (getSessionToken (session w)) then
    let sessionToken := to_string (getSessionToken (session w)) in
    let (r, db) :=
      invoke e (mkRequest "get" None (Some (toUpperCase code)) None
                          (Some sessionToken) None None None) (store w) in
    match error r, data r with
    | Some _, _ => (None, mkWorld (session w) db)
    | None, None => (None, mkWorld (session w) db)
    | None, Some b =>
        if truthy (data_error b) then (None, mkWorld (session w) db)
        else (data_room b, mkWorld (session w) db)
    end
  else (None, w).

Definition sendMessage (e : env) (roomId : uuid) (content senderId : string)
  (type : string) (imageUrl : option string) (w : world)
  : (thrown + option message) * world :=
  if truthy (getSessionToken (session w)) then
    let sessionToken := to_string (getSessionToken (session w)) in
    let (r, db) :=
      invoke e (sendMessage_request roomId sessionToken content type imageUrl)
             (store w) in
    match error r, data r with
    | Some err, _ => (inl (Thrown err), mkWorld (session w) db)
    | None, None => (inl TypeError, mkWorld (session w) db)
    | None, Some b =>
        if truthy (data_error b)
        then (inl (Error_ (to_string (data_error b))), mkWorld (session w) db)
        else (inr (data_message b), mkWorld (session w) db)
    end
  else (inl (Error_ "No valid session. Please rejoin the room."), w).

Definition getMessages (e : env) (roomId : uuid) (w : world)
  : list message * world :=
  if truthy (getSessionToken (session w)) then
    let sessionToken := to_string (getSessionToken (session w)) in
    let (r, db) :=
      invoke e (mkRequest "getMessages" None None (Some roomId)
                          (Some sessionToken) None None None) (store w) in
    match error r, data r with
    | Some _, _ => ([], mkWorld (session w) db)
    | None, None => ([], mkWorld (session w) db)
    | None, Some b =>
        if truthy (data_error b) then ([], mkWorld (session w) db)
        else (match data_messages b with Some ms => ms | None => [] end,
              mkWorld (session w) db)
    end
  else ([], w).

Definition expireRoom (roomId : uuid) (w : world) : world :=
  mkWorld (clearSession (session w)) (Store.expireRoom roomId (store w)).

Definition getParticipantId (s : storage) : string :=
  if truthy (getSessionToken s) then to_string (getSessionToken s) else "".

End Client.

(** ** [lib/room.ts]: the countdown *)

Module Countdown.

Local Open Scope string_scope.
Local Open Scope Z_scope.

Definition digit (d : Z) : ascii := ascii_of_nat (48 + Z.to_nat d).

Fixpoint toString_loop (fuel : nat) (n : Z) : string :=
  match fuel with
  | O => ""
  | S fuel' =>
      if n <? 10 then String (digit n) ""
      else toString_loop fuel' (n / 10) ++ String (digit (n mod 10)) ""
  end.

(** [n.toString()] for an integer [0 <= n < 1e21], the numbers JavaScript
    writes in plain decimal digits. *)
Definition toString (n : Z) : string := toString_loop 21 n.

(** [s.padStart(2, '0')] *)
Definition padStart2 (s : string) : string :=
  match String.length s with
  | O => "00"
  | S O => "0" ++ s
  | _ => s
  end.

(** [expires] and [now] are the [getTime()] of the two dates, in
    milliseconds. *)
Definition formatTimeRemaining (expires now : Z) : string :=
  let diff := expires - now in
  if diff <=? 0 then "00:00"
  else
    let minutes := diff / 60000 in
    let seconds := (diff mod 60000) / 1000 in
    padStart2 (toString minutes) ++ ":" ++ padStart2 (toString seconds).

Definition isTimeUrgent (expires now : Z) : bool :=
  let diff := expires - now in
  (diff <=? 60000) && (0 <? diff).

(** The number a string of decimal digits writes. *)
Definition digit_value (c : ascii) : Z := Z.of_nat (nat_of_ascii c) - 48.

Fixpoint numeral_loop (acc : Z) (s : string) : Z :=
  match s with
  | EmptyString => acc
  | String c s' => numeral_loop (10 * acc + digit_value c) s'
  end.

Definition numeral (s : string) : Z := numeral_loop 0 s.

End Countdown.

(** ** [pages/JoinRoom.tsx]: the six cells of the code *)

Module JoinRoomPage.
Import Js.

Local Open Scope list_scope.
Local Open Scope Z_scope.

Section Page.
(** [String.prototype.toUpperCase], on any string. *)
Variable toUpperCase : jsstring -> jsstring.

(** [[A-Z0-9]], on UTF-16 code units. *)
Definition allowed (u : Z) : bool :=
  ((48 <=? u) && (u <=? 57)) || ((65 <=? u) && (u <=? 90)).

(** [value.toUpperCase().replace(/[^A-Z0-9]/g, '')] *)
Definition clean (value : jsstring) : jsstring :=
  filter allowed (toUpperCase value).

Definition cells := list jsstring.

(** [useState(Array(6).fill(''))] *)
Definition initial : cells := repeat [] 6.

(** [newCode[index] = value] on a copy: an index past the end leaves holes
    before it, which [join] reads as empty. *)
Fixpoint assign (index : nat) (value : jsstring) (code : cells) : cells :=
  match index, code with
  | O, [] => [value]
  | O, _ :: rest => value :: rest
  | S i, [] => [] :: assign i value []
  | S i, c :: rest => c :: assign i value rest
  end.

Definition handleInputChange (index : nat) (value : jsstring) (code : cells)
  : cells :=
  let cleanValue := clean value in
  if (List.length cleanValue <=? 1)%nat then assign index cleanValue code
  else code.

(** [pastedText.slice(0, 6).split('')] *)
Definition handlePaste (text : jsstring) (code : cells) : cells :=
  let pastedText := clean text in
  if (6 <=? List.length pastedText)%nat
  then map (fun u => [u]) (firstn 6 pastedText)
  else code.

Inductive event :=
| Change (index : nat) (value : jsstring)
| Paste (text : jsstring).

Definition handle (code : cells) (ev : event) : cells :=
  match ev with
  | Change index value => handleInputChange index value code
  | Paste text => handlePaste text code
  end.

(** The inputs rendered by [code.map((char, index) => ...)] carry the
    indices of the cells there are. *)
Definition rendered (code : cells) (ev : event) : bool :=
  match ev with
  | Change index _ => (index <? List.length code)%nat
  | Paste _ => true
  end.

(** [code.join('')] *)
Definition roomCode (code : cells) : jsstring := List.concat code.

(** [handleJoin]: the code [joinRoom] is called with, if it is. *)
Definition handleJoin (code : cells) : option jsstring :=
  if (List.length (roomCode code) =? 6)%nat then Some (roomCode code)
  else None.
End Page.

(** Six cells, each empty or one character of [[A-Z0-9]]. *)
Definition well_kept (code : cells) : Prop :=
  List.length code = 6%nat
  /\ Forall (fun cell => (List.length cell <= 1)%nat
                         /\ Forall (fun u => allowed u = true) cell) code.

(** [toUpperCase] on the letters a to z alone. *)
Definition upper_a_z (s : jsstring) : jsstring :=
  map (fun u => if (97 <=? u) && (u <=? 122) then u - 32 else u) s.

End JoinRoomPage.

(** ** [pages/CreateRoom.tsx] *)

Module CreateRoomPage.

Local Open Scope string_scope.
Local Open Scope list_scope.
Local Open Scope Z_scope.

Record option_ := mkOption { value : Z; label : string }.

Definition DURATION_OPTIONS : list option_ :=
  [ mkOption 15 "15 min"; mkOption 30 "30 min"; mkOption 60 "1 hour";
    mkOption 180 "3 hours" ].

(** [useState(30)] *)
Definition initial_duration : Z := 30.

End CreateRoomPage.

(** ** What reaches a subscriber of the messages of a room *)

Module Stream.
Import Db.

(** The rows an operation has written to [messages]: those of the table
    after it whose [id] was not in the table before. *)
Definition inserted (before after : database) : list message :=
  filter (fun m => negb (existsb (fun m' => N.eqb (m_id m') (m_id m))
                                 (messages before)))
         (messages after).


End Stream.

(** * Properties *)

(** ** Rows and keys *)

Section Keys.
Context {A K : Type} (key : A -> K) (eqb : K -> K -> bool).
Hypothesis eqb_eq : forall a b, eqb a b = true <-> a = b.

Lemma filter_key_absent (l : list A) (k : K) :
  ~ In k (map key l) -> filter (fun y => eqb (key y) k) l = [].
Proof.
  induction l as [|a l IH]; simpl; intros Hn; [reflexivity|].
  destruct (eqb (key a) k) eqn:E.
  - apply eqb_eq in E. exfalso. apply Hn. now left.
  - apply IH. intros H. apply Hn. now right.
Qed.

Lemma filter_key_unique (l : list A) (x : A) :
  NoDup (map key l) -> In x l ->
  filter (fun y => eqb (key y) (key x)) l = [x].
Proof.
  induction l as [|a l IH]; simpl; intros Hnd Hin; [contradiction|].
  inversion Hnd as [|k ks Hnot Hnd']; subst.
  destruct Hin as [->|Hin].
  - assert (E : eqb (key x) (key x) = true) by now apply eqb_eq.
    rewrite E. f_equal. now apply filter_key_absent.
  - destruct (eqb (key a) (key x)) eqn:E.
    + apply eqb_eq in E. exfalso. apply Hnot. rewrite E.
      now apply in_map.
    + now apply IH.
Qed.

Lemma existsb_key_present (l : list A) (x : A) :
  In x l -> existsb (fun y => eqb (key y) (key x)) l = true.
Proof.
  intros Hin. apply existsb_exists. exists x. split; [assumption|].
  now apply eqb_eq.
Qed.
End Keys.

Lemma filter_map_stable {A} (p : A -> bool) (f : A -> A) (l : list A) :
  (forall a, p (f a) = p a) -> filter p (map f l) = map f (filter p l).
Proof.
  intros Hp. induction l as [|a l IH]; simpl; [reflexivity|].
  rewrite Hp. destruct (p a); simpl; now rewrite IH.
Qed.

Lemma filter_none {A} (p : A -> bool) (l : list A) :
  existsb p l = false -> filter p l = [].
Proof.
  induction l as [|a l IH]; cbn; [reflexivity|].
  destruct (p a); cbn; [discriminate | exact IH].
Qed.

Lemma charAt_length (s : string) (i : nat) :
  (i < String.length s)%nat -> String.length (Edge.charAt s i) = 1%nat.
Proof.
  unfold Edge.charAt. revert i.
  induction s as [|c s IH]; simpl; intros i Hi; [lia|].
  destruct i as [|i]; simpl; [reflexivity|].
  apply IH. lia.
Qed.

Lemma string_append_length (a b : string) :
  String.length (a ++ b) = (String.length a + String.length b)%nat.
Proof.
  induction a as [|c a IH]; simpl; [reflexivity|]. now rewrite IH.
Qed.

Lemma generateRoomCode_loop_length (draw : nat -> nat) (n i : nat) :
  String.length (Edge.generateRoomCode_loop draw i n) = n.
Proof.
  revert i. induction n as [|n IH]; intros i; [reflexivity|].
  change (Edge.generateRoomCode_loop draw i (S n))
    with (Edge.charAt Edge.chars (draw i mod String.length Edge.chars)%nat
          ++ Edge.generateRoomCode_loop draw (S i) n)%string.
  rewrite string_append_length, IH, charAt_length; [reflexivity|].
  apply Nat.mod_upper_bound. discriminate.
Qed.

Lemma generateRoomCode_length (draw : nat -> nat) :
  String.length (Edge.generateRoomCode draw) = 6%nat.
Proof. apply generateRoomCode_loop_length. Qed.

(** ** Creating a room *)

Section Create.
Import Db Edge.
Local Open Scope string_scope.
Local Open Scope Z_scope.

Variables (e : env) (db : database).

Lemma room_operations_create (req : request) :
  action req = "create" -> room_operations e req db = create e req db.
Proof. intros H. unfold room_operations. now rewrite H. Qed.

Lemma invalid_duration_spec (d : Z) :
  invalid_duration (Some d) = true <-> d < 1 \/ 120 < d.
Proof. unfold invalid_duration. lia. Qed.

Lemma insert_room_collision (r : room) :
  code_used db (code r) = true -> exists err, insert_room db r = inl err.
Proof.
  intros H. unfold insert_room.
  destruct (room_id_used db (id r)); [now eexists|].
  rewrite H. now eexists.
Qed.
End Create.

(** C5. A [create] request whose [durationMinutes] lies outside [1,120] is
    answered 400 "Invalid duration..." and the store is left as it was: no
    room row is written. *)
Theorem create_invalid_duration_rejected
  (e : Edge.env) (req : Edge.request) (db : Db.database) (d : Z) :
  Edge.action req = "create"%string ->
  Edge.durationMinutes req = Some d ->
  d < 1 \/ 120 < d ->
  Edge.room_operations e req db
  = (Edge.error_response 400
       "Invalid duration. Must be between 1 and 120 minutes.", db).
Proof.
  intros Ha Hd Hr. rewrite room_operations_create by assumption.
  unfold Edge.create. rewrite Hd.
  apply invalid_duration_spec in Hr. now rewrite Hr.
Qed.

Lemma create_invalid_duration_rejected_witness :
  Edge.room_operations Sample.bob (Edge.create_request 121) Sample.lobby
  = (Edge.error_response 400
       "Invalid duration. Must be between 1 and 120 minutes.", Sample.lobby).
Proof.
  apply (create_invalid_duration_rejected Sample.bob
           (Edge.create_request 121) Sample.lobby 121);
    [reflexivity | reflexivity | lia].
Defined.

(** C6 (as amended). A [create] request with [durationMinutes] in [1,120]
    whose generated identifiers, code and token are new to the store is
    answered 200 with a room in status [waiting], [participant_count] 1,
    [created_at] the database clock and [expires_at] the edge function's
    clock plus [durationMinutes * 60 * 1000] ms; so [expires_at] is
    [created_at] plus the duration exactly when the two clocks read the
    same. *)
Theorem create_valid_duration (e : Edge.env) (db : Db.database) (d : Z) :
  1 <= d <= 120 ->
  Db.room_id_used db (Edge.room_uuid e) = false ->
  Db.code_used db (Edge.generateRoomCode (Edge.random_index e)) = false ->
  Db.participant_id_used db (Edge.participant_uuid e) = false ->
  Db.token_used db (Edge.generateSessionToken (Edge.random_byte e)) = false ->
  Db.slot_taken db (Edge.room_uuid e) 1 = false ->
  exists room db',
    Edge.room_operations e (Edge.create_request d) db
    = (Edge.mkResponse 200
         (Edge.Joined room (Edge.generateSessionToken (Edge.random_byte e)) 1),
       db')
    /\ Db.rooms db' = Db.rooms db ++ [room]
    /\ Db.status room = Db.waiting
    /\ Db.participant_count room = 1
    /\ Db.duration_minutes room = d
    /\ Db.created_at room = Edge.db_now e
    /\ Db.expires_at room = Edge.date_now e + d * 60 * 1000
    /\ (Db.expires_at room = Db.created_at room + d * 60 * 1000
        <-> Edge.date_now e = Edge.db_now e).
Proof.
  intros Hd Hid Hcode Hpid Htok Hslot.
  rewrite room_operations_create by reflexivity.
  unfold Edge.create. cbn [Edge.create_request Edge.durationMinutes].
  assert (Hv : Edge.invalid_duration (Some d) = false).
  { unfold Edge.invalid_duration. lia. }
  rewrite Hv.
  unfold Db.insert_room. cbn [Db.id Db.code].
  rewrite Hid, Hcode, generateRoomCode_length. cbn [Nat.ltb Nat.leb].
  unfold Db.insert_participant.
  cbn [Db.rp_id Db.rp_room_id Db.session_token Db.participant_number].
  unfold Db.participant_id_used, Db.token_used, Db.slot_taken, Db.room_id_used
    in *.
  cbn [Db.rooms Db.room_participants Db.messages].
  rewrite Hpid, Htok, Hslot.
  rewrite existsb_app. cbn [existsb Db.id].
  rewrite N.eqb_refl, Bool.orb_true_r. cbn [negb Z.eqb orb].
  eexists. eexists. split; [reflexivity|].
  cbn [Db.rooms Db.status Db.participant_count Db.duration_minutes
       Db.created_at Db.expires_at].
  repeat split; lia.
Qed.

Lemma create_valid_duration_witness :
  exists room db',
    Edge.room_operations Sample.bob (Edge.create_request 30) Sample.lobby
    = (Edge.mkResponse 200
         (Edge.Joined room
            (Edge.generateSessionToken (Edge.random_byte Sample.bob)) 1),
       db')
    /\ Db.rooms db' = Db.rooms Sample.lobby ++ [room]
    /\ Db.status room = Db.waiting
    /\ Db.participant_count room = 1
    /\ Db.duration_minutes room = 30
    /\ Db.created_at room = Edge.db_now Sample.bob
    /\ Db.expires_at room = Edge.date_now Sample.bob + 30 * 60 * 1000
    /\ (Db.expires_at room = Db.created_at room + 30 * 60 * 1000
        <-> Edge.date_now Sample.bob = Edge.db_now Sample.bob).
Proof.
  apply (create_valid_duration Sample.bob Sample.lobby 30);
    [lia | reflexivity | reflexivity | reflexivity | reflexivity | reflexivity].
Defined.

(** C6, the claim as written fails: the room [alice] creates at edge time
    1000 and database time 1005 expires 30 minutes after the former, not
    after its [created_at]. *)
Lemma create_expiry_not_created_plus_duration :
  exists room tok db',
    Edge.room_operations Sample.alice (Edge.create_request 30) Sample.empty
    = (Edge.mkResponse 200 (Edge.Joined room tok 1), db')
    /\ Db.expires_at room <> Db.created_at room + 30 * 60 * 1000.
Proof.
  eexists. eexists. eexists. split; [reflexivity|].
  cbn. discriminate.
Qed.

(** C7 (as amended). When the generated code is already the code of a room
    row, [create] does not try another code: the failed insert is answered
    500 "Failed to create room" and the store is left as it was. *)
Theorem create_code_collision_surfaced
  (e : Edge.env) (db : Db.database) (d : Z) :
  1 <= d <= 120 ->
  Db.code_used db (Edge.generateRoomCode (Edge.random_index e)) = true ->
  Edge.room_operations e (Edge.create_request d) db
  = (Edge.error_response 500 "Failed to create room", db).
Proof.
  intros Hd Hcode. rewrite room_operations_create by reflexivity.
  unfold Edge.create. cbn [Edge.create_request Edge.durationMinutes].
  assert (Hv : Edge.invalid_duration (Some d) = false).
  { unfold Edge.invalid_duration. lia. }
  rewrite Hv.
  match goal with
  | |- context [Db.insert_room db ?r] =>
      destruct (insert_room_collision db r Hcode) as [err ->]
  end.
  reflexivity.
Qed.

Lemma create_code_collision_surfaced_witness :
  Edge.room_operations Sample.dave (Edge.create_request 15) Sample.lobby
  = (Edge.error_response 500 "Failed to create room", Sample.lobby).
Proof.
  apply (create_code_collision_surfaced Sample.dave Sample.lobby 15);
    [lia | reflexivity].
Defined.

(** C7, the claim as written fails: one collision with the code of the room
    in [Sample.lobby] is reported to the caller as a 500. *)
Lemma create_single_collision_fatal :
  Db.code_used Sample.lobby
    (Edge.generateRoomCode (Edge.random_index Sample.dave)) = true
  /\ Edge.http_status
       (fst (Edge.room_operations Sample.dave (Edge.create_request 15)
               Sample.lobby)) = 500.
Proof. split; reflexivity. Qed.

(** ** Sending a message *)

(** C8, what the edge function does with the request [sendMessage] of
    [lib/room.ts] sends: no handler matches the action, so every such
    request, whatever its token, is answered 400 "Invalid action" (not 403)
    and the store is left as it was. *)
Theorem sendMessage_invalid_action
  (e : Edge.env) (db : Db.database) (room : Db.uuid) (token content type : string)
  (image : option string) :
  Edge.room_operations e
    (Edge.sendMessage_request room token content type image) db
  = (Edge.error_response 400 "Invalid action", db).
Proof. reflexivity. Qed.

(** ** Reading the message stream *)

Lemma policies_in_force :
  Rls.policies
  = [ Rls.mkPolicy "Only participants can send messages" Rls.INSERT
                   Rls.SenderIsParticipant;
      Rls.mkPolicy "Messages are readable" Rls.SELECT Rls.Always ].
Proof. reflexivity. Qed.

Lemma unbound_no_rows (db : Db.database) (r : Db.uuid) (t : string) :
  Rls.bound db r t = false -> Db.select_participants db r t = [].
Proof. intros H. apply filter_none. exact H. Qed.

(** What the policies on [messages] do with a row written to the table:
    it reaches a subscriber of the room channel exactly when its [room_id]
    is the one the channel filters on, whatever token the subscriber
    presents; [getMessages] answers 403 to a token that is not bound to the
    room. *)
Lemma delivery_policy_by_room
  (db : Db.database) (sub : Rls.subscriber) (m : Db.message) :
  Rls.delivered Rls.policies db sub m
  = N.eqb (Db.m_room_id m) (Rls.channel_room sub)
  /\ forall req r t,
       Edge.roomId req = Some r -> Edge.sessionToken req = Some t ->
       t <> ""%string -> Rls.bound db r t = false ->
       Edge.getMessages req db
       = Edge.error_response 403 "Not authorized to access this room".
Proof.
  split.
  - unfold Rls.delivered. rewrite policies_in_force.
    cbn. now rewrite Bool.andb_true_r.
  - intros req r t Hr Ht Hne Hb. unfold Edge.getMessages.
    rewrite Hr, Ht. cbn [Edge.is_empty].
    destruct (String.eqb t "") eqn:E; [now apply String.eqb_eq in E|].
    now rewrite (unbound_no_rows db r t Hb).
Qed.

(** Were the row [Sample.hello] written to the table, by a hand other than
    the edge function's and the client's, a subscriber without a binding
    would be passed it. *)
Example policy_passes_any_subscriber :
  Rls.has_binding Sample.lobby (Rls.mkSubscriber 7%N None) = false
  /\ Rls.subscribeToMessages Sample.lobby (Rls.mkSubscriber 7%N None)
       [Sample.hello] = [Sample.hello].
Proof. repeat split; reflexivity. Qed.

(** ** Joining a room *)

Section JoinSteps.
Import Db Edge Race.
Local Open Scope Z_scope.

(** A store [db0] holding the waiting [room] with its second slot free. *)
Variables (db0 : database) (room : Db.room).
Hypothesis Hkeys : keys_ok db0.
Hypothesis Hin : In room (rooms db0).
Hypothesis Hwaiting : status room = waiting.
Hypothesis Hfree : slot_taken db0 (id room) 2 = false.

Local Abbreviation registered := (Race.registered db0 room).
Local Abbreviation activated := (Race.activated db0 room).

Lemma rows_by_code : select_rooms_by_code db0 (code room) = [room].
Proof using Hkeys Hin.
  unfold select_rooms_by_code.
  apply (filter_key_unique code String.eqb String.eqb_eq);
    [apply Hkeys | exact Hin].
Qed.

Lemma rows_by_id :
  filter (fun r => N.eqb (id r) (id room)) (rooms db0) = [room].
Proof using Hkeys Hin.
  apply (filter_key_unique id N.eqb N.eqb_eq); [apply Hkeys | exact Hin].
Qed.

Lemma rows_by_code_activated (w : env) :
  select_rooms_by_code (activated w) (code room) = [activate room].
Proof using Hkeys Hin.
  unfold select_rooms_by_code, activated. cbn [rooms].
  rewrite filter_map_stable.
  - fold (select_rooms_by_code db0 (code room)). rewrite rows_by_code.
    cbn. now rewrite N.eqb_refl.
  - intros a. now destruct (N.eqb (id a) (id room)).
Qed.

Lemma slot_taken_registered (w : env) :
  slot_taken (registered w) (id room) 2 = true.
Proof using Type.
  unfold slot_taken, registered. cbn [room_participants].
  rewrite existsb_app. cbn. now rewrite N.eqb_refl, Bool.orb_true_r.
Qed.

Lemma slot_taken_activated (w : env) :
  slot_taken (activated w) (id room) 2 = true.
Proof using Type. exact (slot_taken_registered w). Qed.

(** One client: its request names the room and arrives before the room
    expires. *)
Variables (e : env) (req : request) (c : string).
Hypothesis Hreq : req_code req = Some c.
Hypothesis Hlen : String.length c = 6%nat.
Hypothesis Hcode : toUpperCase c = code room.
Hypothesis Hlive : date_now e <= expires_at room.

Lemma lookup_finds_waiting_room (db : database) :
  rooms db = rooms db0 -> join_lookup e req db = inr room.
Proof using Hkeys Hin Hwaiting Hreq Hlen Hcode Hlive.
  clear Hfree. intros Hrooms. unfold join_lookup. rewrite Hreq, Hlen, Hcode. cbn [Nat.eqb negb].
  unfold select_rooms_by_code. rewrite Hrooms.
  fold (select_rooms_by_code db0 (code room)). rewrite rows_by_code.
  cbn [maybeSingle].
  replace (expires_at room <? date_now e) with false by lia.
  now rewrite Hwaiting.
Qed.

Lemma lookup_finds_full_room (w : env) :
  join_lookup e req (activated w)
  = inl (error_response 400 "This room is already full").
Proof using Hkeys Hin Hreq Hlen Hcode Hlive.
  clear Hfree Hwaiting. unfold join_lookup. rewrite Hreq, Hlen, Hcode. cbn [Nat.eqb negb].
  rewrite rows_by_code_activated. cbn [maybeSingle activate expires_at status
    participant_count room_status_eqb].
  replace (expires_at room <? date_now e) with false by lia.
  reflexivity.
Qed.

Lemma register_refused (db : database) :
  slot_taken db (id room) 2 = true ->
  join_register e room db
  = inl (error_response 400 "Failed to join room. It may be full.").
Proof using Type.
  intros Htaken. unfold join_register, insert_participant.
  cbn [rp_id rp_room_id session_token participant_number].
  rewrite Htaken.
  destruct (participant_id_used db (participant_uuid e)); [reflexivity|].
  destruct (negb (room_id_used db (id room))); [reflexivity|].
  destruct (token_used db (generateSessionToken (random_byte e)));
    reflexivity.
Qed.

Lemma register_accepted :
  fresh e db0 -> join_register e room db0 = inr (registered e).
Proof using Hin Hfree.
  intros [Htok Hpid]. unfold join_register, insert_participant.
  cbn [rp_id rp_room_id session_token participant_number].
  rewrite Hpid, Htok, Hfree.
  unfold room_id_used.
  rewrite (existsb_key_present id N.eqb N.eqb_eq _ _ Hin).
  reflexivity.
Qed.

Lemma activate_answers (w : env) :
  join_activate e room (registered w) = (joined e room, activated w).
Proof using Hkeys Hin.
  unfold join_activate, update_room_active, registered.
  cbn [rooms room_participants messages]. rewrite rows_by_id.
  reflexivity.
Qed.
End JoinSteps.

Section JoinRace.
Import Db Edge Race.
Local Open Scope Z_scope.

Variables (db0 : database) (room : Db.room).
Hypothesis Hkeys : keys_ok db0.
Hypothesis Hin : In room (rooms db0).
Hypothesis Hwaiting : status room = waiting.
Hypothesis Hfree : slot_taken db0 (id room) 2 = false.

Local Abbreviation registered := (Race.registered db0 room).
Local Abbreviation activated := (Race.activated db0 room).

Local Abbreviation entrant := (Race.entrant db0 room).

Lemma contender_step (e : env) (req : request) (p : join_pc) :
  entrant e req -> contender room p ->
  (exists p', join_step e req p db0 = (p', db0) /\ contender room p')
  \/ join_step e req p db0 = (AtActivate room, registered e).
Proof.
  intros [(c & Hreq & Hlen & Hcode) Hlive Hfresh] [|].
  - left. exists (AtRegister room). split; [|constructor].
    cbn [join_step].
    now rewrite (lookup_finds_waiting_room db0 room Hkeys Hin Hwaiting
                   e req c Hreq Hlen Hcode Hlive db0 eq_refl).
  - right. cbn [join_step].
    now rewrite (register_accepted db0 room Hin Hfree e Hfresh).
Qed.

Lemma turned_away_step_registered (e w : env) (req : request) (p : join_pc) :
  entrant e req -> turned_away room p ->
  exists p', join_step e req p (registered w) = (p', registered w)
             /\ turned_away room p'.
Proof.
  intros [(c & Hreq & Hlen & Hcode) Hlive Hfresh] [| |r Hr].
  - exists (AtRegister room). split; [|constructor].
    cbn [join_step].
    now rewrite (lookup_finds_waiting_room db0 room Hkeys Hin Hwaiting
                   e req c Hreq Hlen Hcode Hlive (registered w) eq_refl).
  - eexists. split.
    + cbn [join_step].
      rewrite (register_refused room e (registered w)
                 (slot_taken_registered db0 room w)).
      reflexivity.
    + now constructor.
  - exists (Returned r). split; [reflexivity | now constructor].
Qed.

Lemma turned_away_step_activated (e w : env) (req : request) (p : join_pc) :
  entrant e req -> turned_away room p ->
  exists p', join_step e req p (activated w) = (p', activated w)
             /\ turned_away room p'.
Proof.
  intros [(c & Hreq & Hlen & Hcode) Hlive Hfresh] [| |r Hr].
  - eexists. split.
    + cbn [join_step].
      rewrite (lookup_finds_full_room db0 room Hkeys Hin e req c
                 Hreq Hlen Hcode Hlive w).
      reflexivity.
    + now constructor.
  - eexists. split.
    + cbn [join_step].
      rewrite (register_refused room e (activated w)
                 (slot_taken_activated db0 room w)).
      reflexivity.
    + now constructor.
  - exists (Returned r). split; [reflexivity | now constructor].
Qed.

Lemma contender_turned_away (p : join_pc) :
  contender room p -> turned_away room p.
Proof. intros [|]; constructor. Qed.

Variables (e1 e2 : env) (req1 req2 : request).
Hypothesis Hfirst : entrant e1 req1.
Hypothesis Hsecond : entrant e2 req2.

Local Abbreviation inv := (invariant e1 e2 db0 room).
Local Abbreviation step := (Race.step e1 e2 req1 req2).
Local Abbreviation run := (Race.run e1 e2 req1 req2).

Lemma invariant_start : inv (start db0).
Proof. apply both_contending; constructor. Qed.

Lemma invariant_step (s : system) (who : client) : inv s -> inv (step s who).
Proof.
  intros Hs. destruct who; unfold Race.step;
    destruct Hs as [p1 p2 H1 H2 | p2 H2 | p2 H2 | p1 H1 | p1 H1];
    cbn [pc1 pc2 store].
  - destruct (contender_step e1 req1 p1 Hfirst H1) as [(p' & -> & Hp') | ->].
    + now apply both_contending.
    + apply first_registered. now apply contender_turned_away.
  - cbn [join_step].
    rewrite (activate_answers db0 room Hkeys Hin e1 e1).
    now apply first_joined.
  - now apply first_joined.
  - destruct (turned_away_step_registered e1 e2 req1 p1 Hfirst H1)
      as (p' & -> & Hp').
    now apply second_registered.
  - destruct (turned_away_step_activated e1 e2 req1 p1 Hfirst H1)
      as (p' & -> & Hp').
    now apply second_joined.
  - destruct (contender_step e2 req2 p2 Hsecond H2) as [(p' & -> & Hp') | ->].
    + now apply both_contending.
    + apply second_registered. now apply contender_turned_away.
  - destruct (turned_away_step_registered e2 e1 req2 p2 Hsecond H2)
      as (p' & -> & Hp').
    now apply first_registered.
  - destruct (turned_away_step_activated e2 e1 req2 p2 Hsecond H2)
      as (p' & -> & Hp').
    now apply first_joined.
  - cbn [join_step].
    rewrite (activate_answers db0 room Hkeys Hin e2 e2).
    now apply second_joined.
  - now apply second_joined.
Qed.

Lemma invariant_run (sched : list client) (s : system) :
  inv s -> inv (run sched s).
Proof.
  revert s. induction sched as [|who sched IH]; intros s Hs; [exact Hs|].
  apply IH. now apply invariant_step.
Qed.
End JoinRace.

Section Progress.
Import Db Edge Race.

Variables (e1 e2 : env) (req1 req2 : request).

Lemma join_step_progress (e : env) (req : request) (pc : join_pc)
  (db : database) :
  (Nat.min 3 (S (progress pc)) <= progress (fst (join_step e req pc db)))%nat.
Proof.
  destruct pc as [|room|room|resp]; cbn [join_step].
  - destruct (join_lookup e req db); cbn [fst progress]; lia.
  - destruct (join_register e room db); cbn [fst progress]; lia.
  - destruct (join_activate e room db); cbn [fst progress]; lia.
  - cbn [fst progress]; lia.
Qed.

Lemma step_progress (s : system) (who : client) :
  (Nat.min 3 (progress (pc1 s) + (if client_eqb First who then 1 else 0))
     <= progress (pc1 (step e1 e2 req1 req2 s who))
   /\ Nat.min 3 (progress (pc2 s) + (if client_eqb Second who then 1 else 0))
     <= progress (pc2 (step e1 e2 req1 req2 s who)))%nat.
Proof.
  destruct who; unfold step; cbn [client_eqb].
  - pose proof (join_step_progress e1 req1 (pc1 s) (store s)) as H.
    destruct (join_step e1 req1 (pc1 s) (store s));
      cbn [fst pc1 pc2] in *. lia.
  - pose proof (join_step_progress e2 req2 (pc2 s) (store s)) as H.
    destruct (join_step e2 req2 (pc2 s) (store s));
      cbn [fst pc1 pc2] in *. lia.
Qed.

Lemma run_progress (sched : list client) (s : system) :
  (Nat.min 3 (progress (pc1 s) + turns First sched)
     <= progress (pc1 (run e1 e2 req1 req2 sched s))
   /\ Nat.min 3 (progress (pc2 s) + turns Second sched)
     <= progress (pc2 (run e1 e2 req1 req2 sched s)))%nat.
Proof.
  revert s. induction sched as [|who sched IH]; intros s.
  - unfold turns. cbn [run fold_left filter List.length]. lia.
  - specialize (IH (step e1 e2 req1 req2 s who)).
    pose proof (step_progress s who) as Hs.
    unfold turns, run in *. cbn [filter fold_left].
    destruct who; cbn [client_eqb List.length] in *; lia.
Qed.

Lemma progress_returned (pc : join_pc) :
  (3 <= progress pc)%nat -> exists r, pc = Returned r.
Proof. destruct pc; cbn; try lia. now eexists. Qed.
End Progress.

(** The update goes through on any row with the room's id, whatever its
    status and count. *)
Lemma activate_any_status (db : Db.database) (room r : Db.room) (e : Edge.env) :
  Race.keys_ok db -> In r (Db.rooms db) -> Db.id r = Db.id room ->
  fst (Edge.join_activate e room db)
  = Edge.mkResponse 200
      (Edge.Joined (Db.activate r)
         (Edge.generateSessionToken (Edge.random_byte e)) 2).
Proof.
  intros Hkeys Hin Hid. unfold Edge.join_activate, Db.update_room_active.
  rewrite <- Hid.
  rewrite (filter_key_unique Db.id N.eqb N.eqb_eq _ _ (proj1 Hkeys) Hin).
  reflexivity.
Qed.

Lemma activated_slot_rows (db0 : Db.database) (room : Db.room) (w : Edge.env) :
  Db.slot_taken db0 (Db.id room) 2 = false ->
  Race.slot_rows (Race.activated db0 room w) (Db.id room) 2
  = [Race.binding w room].
Proof.
  intros Hfree. unfold Race.slot_rows, Race.activated.
  cbn [Db.room_participants]. rewrite filter_app.
  rewrite (filter_none _ _ Hfree). cbn. now rewrite N.eqb_refl.
Qed.

(** C1 (as amended). Two join handlers race for a waiting room with one
    participant and a free second slot, their statements interleaved in any
    order that lets both finish. Exactly one is answered 200 with the room
    [active], [participant_count] 2 and slot 2; the other is answered 400
    with one of the two "full" errors, from the lookup or from the insert
    the unique index on [(room_id, participant_number)] refuses; the room
    row ends [active] with [participant_count] 2 and the room has one
    slot-2 row, the winner's. The update of the room row is no gate: it
    goes through on a row of any status and count. *)
Theorem join_race_one_winner
  (db0 : Db.database) (room : Db.room) (e1 e2 : Edge.env)
  (req1 req2 : Edge.request) (sched : list Race.client) :
  Race.keys_ok db0 ->
  In room (Db.rooms db0) ->
  Db.status room = Db.waiting ->
  Db.participant_count room = 1 ->
  Db.slot_taken db0 (Db.id room) 2 = false ->
  Race.entrant db0 room e1 req1 ->
  Race.entrant db0 room e2 req2 ->
  (3 <= Race.turns Race.First sched)%nat ->
  (3 <= Race.turns Race.Second sched)%nat ->
  exists r1 r2 w,
    Race.pc1 (Race.run e1 e2 req1 req2 sched (Race.start db0)) = Race.Returned r1
    /\ Race.pc2 (Race.run e1 e2 req1 req2 sched (Race.start db0))
       = Race.Returned r2
    /\ ((r1 = Race.joined e1 room /\ Race.room_full r2 = true /\ w = e1)
        \/ (Race.room_full r1 = true /\ r2 = Race.joined e2 room /\ w = e2))
    /\ Db.select_rooms_by_code
         (Race.store (Race.run e1 e2 req1 req2 sched (Race.start db0)))
         (Db.code room)
       = [Db.activate room]
    /\ Race.slot_rows
         (Race.store (Race.run e1 e2 req1 req2 sched (Race.start db0)))
         (Db.id room) 2
       = [Race.binding w room]
    /\ (forall db r e,
          Race.keys_ok db -> In r (Db.rooms db) -> Db.id r = Db.id room ->
          fst (Edge.join_activate e room db)
          = Edge.mkResponse 200
              (Edge.Joined (Db.activate r)
                 (Edge.generateSessionToken (Edge.random_byte e)) 2)).
Proof.
  intros Hkeys Hin Hwaiting _ Hfree H1 H2 Ht1 Ht2.
  pose proof (invariant_run db0 room Hkeys Hin Hwaiting Hfree e1 e2 req1 req2
                H1 H2 sched (Race.start db0)
                (invariant_start db0 room e1 e2)) as Hinv.
  destruct (run_progress e1 e2 req1 req2 sched (Race.start db0)) as [Hp1 Hp2].
  cbn [Race.start Race.pc1 Race.pc2 Race.progress] in Hp1, Hp2.
  destruct (progress_returned
              (Race.pc1 (Race.run e1 e2 req1 req2 sched (Race.start db0))))
    as [r1 Hr1]; [lia|].
  destruct (progress_returned
              (Race.pc2 (Race.run e1 e2 req1 req2 sched (Race.start db0))))
    as [r2 Hr2]; [lia|].
  clear Hp1 Hp2.
  destruct Hinv as [p1 p2 C1 C2 | p2 A2 | p2 A2 | p1 A1 | p1 A1];
    cbn [Race.pc1 Race.pc2 Race.store] in *.
  - subst p1. inversion C1.
  - discriminate Hr1.
  - exists r1, r2, e1. injection Hr1 as <-. subst p2.
    inversion A2 as [| |r Hfull]; subst.
    split; [reflexivity|]. split; [reflexivity|].
    split; [left; now repeat split|].
    split; [now apply rows_by_code_activated|].
    split; [now apply activated_slot_rows|].
    intros db r e. apply activate_any_status.
  - discriminate Hr2.
  - exists r1, r2, e2. injection Hr2 as <-. subst p1.
    inversion A1 as [| |r Hfull]; subst.
    split; [reflexivity|]. split; [reflexivity|].
    split; [right; now repeat split|].
    split; [now apply rows_by_code_activated|].
    split; [now apply activated_slot_rows|].
    intros db r e. apply activate_any_status.
Qed.

Lemma lobby_keys_ok : Race.keys_ok Sample.lobby.
Proof.
  split; cbn; (constructor; [intros []|constructor]).
Defined.

Lemma bob_entrant :
  Race.entrant Sample.lobby Sample.lobby_room Sample.bob
               (Edge.join_request "abcdef").
Proof.
  constructor.
  - exists "ABCDEF"%string. repeat split.
  - cbn. lia.
  - split; reflexivity.
Defined.

Lemma carol_entrant :
  Race.entrant Sample.lobby Sample.lobby_room Sample.carol
               (Edge.join_request "ABCDEF").
Proof.
  constructor.
  - exists "ABCDEF"%string. repeat split.
  - cbn. lia.
  - split; reflexivity.
Defined.

Lemma join_race_one_winner_witness :
  exists r1 r2 w,
    Race.pc1 (Race.run Sample.bob Sample.carol (Edge.join_request "abcdef")
                (Edge.join_request "ABCDEF")
                [Race.First; Race.Second; Race.Second; Race.First;
                 Race.Second; Race.First]
                (Race.start Sample.lobby)) = Race.Returned r1
    /\ Race.pc2 (Race.run Sample.bob Sample.carol (Edge.join_request "abcdef")
                   (Edge.join_request "ABCDEF")
                   [Race.First; Race.Second; Race.Second; Race.First;
                    Race.Second; Race.First]
                   (Race.start Sample.lobby)) = Race.Returned r2
    /\ ((r1 = Race.joined Sample.bob Sample.lobby_room
         /\ Race.room_full r2 = true /\ w = Sample.bob)
        \/ (Race.room_full r1 = true
            /\ r2 = Race.joined Sample.carol Sample.lobby_room
            /\ w = Sample.carol))
    /\ Db.select_rooms_by_code
         (Race.store
            (Race.run Sample.bob Sample.carol (Edge.join_request "abcdef")
               (Edge.join_request "ABCDEF")
               [Race.First; Race.Second; Race.Second; Race.First;
                Race.Second; Race.First]
               (Race.start Sample.lobby)))
         (Db.code Sample.lobby_room)
       = [Db.activate Sample.lobby_room]
    /\ Race.slot_rows
         (Race.store
            (Race.run Sample.bob Sample.carol (Edge.join_request "abcdef")
               (Edge.join_request "ABCDEF")
               [Race.First; Race.Second; Race.Second; Race.First;
                Race.Second; Race.First]
               (Race.start Sample.lobby)))
         (Db.id Sample.lobby_room) 2
       = [Race.binding w Sample.lobby_room]
    /\ (forall db r e,
          Race.keys_ok db -> In r (Db.rooms db) ->
          Db.id r = Db.id Sample.lobby_room ->
          fst (Edge.join_activate e Sample.lobby_room db)
          = Edge.mkResponse 200
              (Edge.Joined (Db.activate r)
                 (Edge.generateSessionToken (Edge.random_byte e)) 2)).
Proof.
  apply (join_race_one_winner Sample.lobby Sample.lobby_room Sample.bob
           Sample.carol (Edge.join_request "abcdef")
           (Edge.join_request "ABCDEF")).
  - exact lobby_keys_ok.
  - left. reflexivity.
  - reflexivity.
  - reflexivity.
  - reflexivity.
  - exact bob_entrant.
  - exact carol_entrant.
  - cbn. lia.
  - cbn. lia.
Defined.

(** C1, the claim as written fails: the update that makes the room active is
    no compare-and-swap on status and count. [erin] looks the room up and
    registers just before the room expires; the room is then marked
    expired; [erin]'s update still goes through, is answered 200 and turns
    the expired room active. The same update goes through on a room that is
    already active with two participants. *)
Lemma join_update_not_compare_and_swap :
  Race.join_step Sample.erin (Edge.join_request "abcdef") Race.AtLookup
    Sample.lobby
  = (Race.AtRegister Sample.lobby_room, Sample.lobby)
  /\ Race.join_step Sample.erin (Edge.join_request "abcdef")
       (Race.AtRegister Sample.lobby_room) Sample.lobby
     = (Race.AtActivate Sample.lobby_room,
        Race.registered Sample.lobby Sample.lobby_room Sample.erin)
  /\ map Db.status
       (Db.rooms
          (Db.cleanup_expired_rooms 1801001
             (Race.registered Sample.lobby Sample.lobby_room Sample.erin)))
     = [Db.expired]
  /\ fst (Race.join_step Sample.erin (Edge.join_request "abcdef")
            (Race.AtActivate Sample.lobby_room)
            (Db.cleanup_expired_rooms 1801001
               (Race.registered Sample.lobby Sample.lobby_room Sample.erin)))
     = Race.Returned (Race.joined Sample.erin Sample.lobby_room)
  /\ map Db.status
       (Db.rooms
          (snd (Race.join_step Sample.erin (Edge.join_request "abcdef")
                  (Race.AtActivate Sample.lobby_room)
                  (Db.cleanup_expired_rooms 1801001
                     (Race.registered Sample.lobby Sample.lobby_room
                        Sample.erin)))))
     = [Db.active]
  /\ map Db.participant_count
       (Db.rooms (Race.activated Sample.lobby Sample.lobby_room Sample.erin))
     = [2]
  /\ fst (Edge.join_activate Sample.carol Sample.lobby_room
            (Race.activated Sample.lobby Sample.lobby_room Sample.erin))
     = Race.joined Sample.carol Sample.lobby_room.
Proof. repeat split. Qed.

(** C2. A join whose lookup let it through but which finds slot 2 of the
    room taken when it inserts its row is answered 400 "Failed to join
    room. It may be full." and leaves the store exactly as it found it, so
    no row of its own is ever visible; the room update that follows an
    accepted insert never answers that the room is full. *)
Theorem join_full_room_cancels_cleanly
  (e : Edge.env) (req : Edge.request) (room : Db.room) (db : Db.database) :
  Db.slot_taken db (Db.id room) 2 = true ->
  Race.join_step e req (Race.AtRegister room) db
  = (Race.Returned
       (Edge.error_response 400 "Failed to join room. It may be full."), db)
  /\ Race.room_full
       (Edge.error_response 400 "Failed to join room. It may be full.") = true
  /\ forall db', Race.room_full (fst (Edge.join_activate e room db')) = false.
Proof.
  intros Htaken. split; [|split].
  - cbn [Race.join_step]. now rewrite (register_refused room e db Htaken).
  - reflexivity.
  - intros db'. unfold Edge.join_activate.
    destruct (Db.update_room_active db' (Db.id room)) as [rows db1].
    destruct (Db.single rows); reflexivity.
Qed.

Lemma join_full_room_cancels_cleanly_witness :
  Race.join_step Sample.carol (Edge.join_request "ABCDEF")
    (Race.AtRegister Sample.lobby_room)
    (Race.registered Sample.lobby Sample.lobby_room Sample.bob)
  = (Race.Returned
       (Edge.error_response 400 "Failed to join room. It may be full."),
     Race.registered Sample.lobby Sample.lobby_room Sample.bob)
  /\ Race.room_full
       (Edge.error_response 400 "Failed to join room. It may be full.") = true
  /\ forall db',
       Race.room_full
         (fst (Edge.join_activate Sample.carol Sample.lobby_room db')) = false.
Proof.
  apply (join_full_room_cancels_cleanly Sample.carol
           (Edge.join_request "ABCDEF") Sample.lobby_room
           (Race.registered Sample.lobby Sample.lobby_room Sample.bob)).
  reflexivity.
Defined.

(** The handler is the three statements in a row. *)
Lemma join_is_three_steps (e : Edge.env) (req : Edge.request)
  (db : Db.database) :
  let '(p1, d1) := Race.join_step e req Race.AtLookup db in
  let '(p2, d2) := Race.join_step e req p1 d1 in
  let '(p3, d3) := Race.join_step e req p2 d2 in
  (p3, d3) = (Race.Returned (fst (Edge.join e req db)), snd (Edge.join e req db)).
Proof.
  unfold Edge.join. cbn [Race.join_step].
  destruct (Edge.join_lookup e req db) as [r|room]; [reflexivity|].
  cbn [Race.join_step].
  destruct (Edge.join_register e room db) as [r|db1]; [reflexivity|].
  cbn [Race.join_step].
  now destruct (Edge.join_activate e room db1).
Qed.

(** ** Bytes and base64 *)

(** Quotients and remainders by constants are linear for [lia]. *)
Ltac Zify.zify_post_hook ::= Z.to_euclidean_division_equations.

Ltac branches :=
  repeat match goal with
         | |- context [if ?c then _ else _] =>
             let E := fresh "E" in destruct c eqn:E
         end.

Lemma b2z_range (b : Js.byte) : 0 <= Js.b2z b < 256.
Proof. unfold Js.b2z. pose proof (Byte.to_N_bounded b). lia. Qed.

Lemma z2b_b2z (b : Js.byte) : Js.z2b (Js.b2z b) = b.
Proof.
  unfold Js.z2b. rewrite Z.mod_small by apply b2z_range.
  unfold Js.b2z. now rewrite N2Z.id, Byte.of_to_N.
Qed.

Lemma b2z_z2b (z : Z) : 0 <= z < 256 -> Js.b2z (Js.z2b z) = z.
Proof.
  intros Hz. unfold Js.z2b. rewrite Z.mod_small by lia.
  destruct (Byte.of_N (Z.to_N z)) eqn:E.
  - apply Byte.to_of_N in E. unfold Js.b2z. rewrite E. lia.
  - apply Byte.of_N_None_iff in E. lia.
Qed.

Lemma Uint8Array_from_fromCharCode (bs : list Js.byte) :
  Js.Uint8Array_from (Js.fromCharCode bs) = bs.
Proof.
  unfold Js.Uint8Array_from, Js.fromCharCode. rewrite map_map.
  rewrite <- (map_id bs) at 2. apply map_ext. exact z2b_b2z.
Qed.

Lemma fromCharCode_bytes (bs : list Js.byte) :
  Forall (fun a => 0 <= a < 256) (Js.fromCharCode bs).
Proof.
  unfold Js.fromCharCode. apply Forall_map, Forall_forall.
  intros b _. apply b2z_range.
Qed.

Lemma list_ind3 {A} (P : list A -> Prop) :
  P [] -> (forall a, P [a]) -> (forall a b, P [a; b]) ->
  (forall a b c r, P r -> P (a :: b :: c :: r)) ->
  forall l, P l.
Proof.
  intros H0 H1 H2 H3.
  fix IH 1.
  intros [|a [|b [|c r]]];
    [exact H0 | exact (H1 a) | exact (H2 a b) | exact (H3 a b c r (IH r))].
Qed.

Lemma base64_value_char (i : Z) :
  0 <= i < 64 -> Js.base64_value (Js.base64_char i) = Some i.
Proof.
  intros Hi. unfold Js.base64_char. branches;
    unfold Js.base64_value; branches; try (exfalso; lia); f_equal; lia.
Qed.

Lemma base64_char_not_equals (i : Z) :
  0 <= i < 64 -> (Js.base64_char i =? 61) = false.
Proof. intros Hi. unfold Js.base64_char. branches; lia. Qed.

Lemma base64_char_not_whitespace (i : Z) :
  0 <= i < 64 -> Js.ascii_whitespace (Js.base64_char i) = false.
Proof.
  intros Hi. unfold Js.base64_char. branches;
    unfold Js.ascii_whitespace; lia.
Qed.

Lemma remove_trailing_equals_cons (c : Z) (s : list Z) :
  (c =? 61) = false ->
  Js.remove_trailing_equals (c :: s) = c :: Js.remove_trailing_equals s.
Proof.
  intros Hc. destruct s as [|x [|y t]]; cbn [Js.remove_trailing_equals].
  - now rewrite Hc.
  - rewrite Hc. now destruct (x =? 61).
  - reflexivity.
Qed.

Lemma btoa_loop_no_whitespace (l : list Z) :
  Forall (fun a => 0 <= a < 256) l ->
  filter (fun c => negb (Js.ascii_whitespace c)) (Js.btoa_loop l)
  = Js.btoa_loop l.
Proof.
  induction l as [|a|a b|a b c r IH] using list_ind3; intros Hl;
    repeat match goal with
           | H : Forall _ (_ :: _) |- _ => inversion_clear H
           end;
    cbn [Js.btoa_loop filter];
    rewrite ?base64_char_not_whitespace by lia;
    cbn [negb Js.ascii_whitespace Z.eqb Pos.eqb orb filter];
    [reflexivity | reflexivity | reflexivity |].
  now rewrite IH.
Qed.

Lemma btoa_loop_length (l : list Z) :
  (List.length (Js.btoa_loop l) mod 4 = 0)%nat.
Proof.
  induction l as [|a|a b|a b c r IH] using list_ind3;
    cbn [Js.btoa_loop List.length]; try reflexivity.
  lia.
Qed.

Lemma atob_btoa_values (l : list Z) :
  Forall (fun a => 0 <= a < 256) l ->
  exists v,
    Js.base64_values (Js.remove_trailing_equals (Js.btoa_loop l)) = Some v
    /\ Js.atob_loop v = l
    /\ (List.length (Js.remove_trailing_equals (Js.btoa_loop l)) mod 4 <> 1)%nat.
Proof.
  induction l as [|a|a b|a b c r IH] using list_ind3; intros Hl;
    repeat match goal with
           | H : Forall _ (_ :: _) |- _ => inversion_clear H
           end;
    cbn [Js.btoa_loop].
  - exists []. repeat split. cbn. lia.
  - rewrite !remove_trailing_equals_cons by (apply base64_char_not_equals; lia).
    cbn [Js.remove_trailing_equals Z.eqb Pos.eqb Js.base64_values].
    rewrite !base64_value_char by lia.
    eexists. split; [reflexivity|]. split.
    + cbn [Js.atob_loop]. f_equal. lia.
    + cbn. lia.
  - rewrite !remove_trailing_equals_cons by (apply base64_char_not_equals; lia).
    cbn [Js.remove_trailing_equals Z.eqb Pos.eqb Js.base64_values].
    rewrite !base64_value_char by lia.
    eexists. split; [reflexivity|]. split.
    + cbn [Js.atob_loop]. repeat f_equal; lia.
    + cbn. lia.
  - destruct IH as (v & Hv & Hl' & Hn); [assumption|].
    rewrite !remove_trailing_equals_cons by (apply base64_char_not_equals; lia).
    cbn [Js.base64_values]. rewrite !base64_value_char by lia. rewrite Hv.
    eexists. split; [reflexivity|]. split.
    + cbn [Js.atob_loop]. rewrite Hl'. repeat f_equal; lia.
    + cbn [List.length]. lia.
Qed.

Lemma atob_btoa_loop (l : list Z) :
  Forall (fun a => 0 <= a < 256) l -> Js.atob (Js.btoa_loop l) = inr l.
Proof.
  intros Hl. unfold Js.atob.
  rewrite btoa_loop_no_whitespace by assumption.
  rewrite btoa_loop_length. cbn [Nat.eqb].
  destruct (atob_btoa_values l Hl) as (v & Hv & Hlv & Hn).
  apply Nat.eqb_neq in Hn. rewrite Hn, Hv. now rewrite Hlv.
Qed.

Lemma btoa_fromCharCode (bs : list Js.byte) :
  Js.btoa (Js.fromCharCode bs) = inr (Js.btoa_loop (Js.fromCharCode bs)).
Proof.
  unfold Js.btoa.
  replace (forallb (fun u => u <=? 255) (Js.fromCharCode bs)) with true;
    [reflexivity|].
  symmetry. apply forallb_forall. intros u Hu.
  pose proof (proj1 (Forall_forall _ _) (fromCharCode_bytes bs) u Hu) as H.
  cbv beta in *. lia.
Qed.

(** ** UTF-8 and UTF-16 *)

Lemma utf8_handler_ascii (b : Z) :
  0 <= b <= 0x7F -> Js.utf8_handler Js.utf8_initial b = (Js.utf8_initial, [b]).
Proof.
  intros Hb. unfold Js.utf8_handler, Js.utf8_first. cbn [Js.bytes_needed Js.utf8_initial Z.eqb].
  branches; try reflexivity; exfalso; lia.
Qed.

Lemma utf8_handler_lead2 (b : Z) :
  0xC2 <= b <= 0xDF ->
  Js.utf8_handler Js.utf8_initial b = (Js.mkUtf8 (b mod 0x20) 0 1 0x80 0xBF, []).
Proof.
  intros Hb. unfold Js.utf8_handler, Js.utf8_first. cbn [Js.bytes_needed Js.utf8_initial Z.eqb].
  branches; try reflexivity; exfalso; lia.
Qed.

Lemma utf8_handler_lead3 (b : Z) :
  0xE0 <= b <= 0xEF ->
  Js.utf8_handler Js.utf8_initial b
  = (Js.mkUtf8 (b mod 0x10) 0 2 (if b =? 0xE0 then 0xA0 else 0x80)
               (if b =? 0xED then 0x9F else 0xBF), []).
Proof.
  intros Hb. unfold Js.utf8_handler, Js.utf8_first. cbn [Js.bytes_needed Js.utf8_initial Z.eqb].
  destruct (b <=? 0x7F) eqn:E1; [exfalso; lia|].
  destruct ((0xC2 <=? b) && (b <=? 0xDF)) eqn:E2; [exfalso; lia|].
  destruct ((0xE0 <=? b) && (b <=? 0xEF)) eqn:E3; [reflexivity | exfalso; lia].
Qed.

Lemma utf8_handler_lead4 (b : Z) :
  0xF0 <= b <= 0xF4 ->
  Js.utf8_handler Js.utf8_initial b
  = (Js.mkUtf8 (b mod 0x08) 0 3 (if b =? 0xF0 then 0x90 else 0x80)
               (if b =? 0xF4 then 0x8F else 0xBF), []).
Proof.
  intros Hb. unfold Js.utf8_handler, Js.utf8_first. cbn [Js.bytes_needed Js.utf8_initial Z.eqb].
  destruct (b <=? 0x7F) eqn:E1; [exfalso; lia|].
  destruct ((0xC2 <=? b) && (b <=? 0xDF)) eqn:E2; [exfalso; lia|].
  destruct ((0xE0 <=? b) && (b <=? 0xEF)) eqn:E3; [exfalso; lia|].
  destruct ((0xF0 <=? b) && (b <=? 0xF4)) eqn:E4; [reflexivity | exfalso; lia].
Qed.

Lemma utf8_handler_last (cp seen needed lo hi b : Z) :
  needed <> 0 -> lo <= b <= hi -> seen + 1 = needed ->
  Js.utf8_handler (Js.mkUtf8 cp seen needed lo hi) b
  = (Js.utf8_initial, [cp * 0x40 + b mod 0x40]).
Proof.
  intros Hn Hb Hs. unfold Js.utf8_handler.
  cbn [Js.bytes_needed Js.lower_boundary Js.upper_boundary Js.code_point
       Js.bytes_seen].
  destruct (needed =? 0) eqn:E1; [exfalso; lia|].
  destruct (negb ((lo <=? b) && (b <=? hi))) eqn:E2; [exfalso; lia|].
  destruct (seen + 1 =? needed) eqn:E3; [reflexivity | exfalso; lia].
Qed.

Lemma utf8_handler_more (cp seen needed lo hi b : Z) :
  needed <> 0 -> lo <= b <= hi -> seen + 1 <> needed ->
  Js.utf8_handler (Js.mkUtf8 cp seen needed lo hi) b
  = (Js.mkUtf8 (cp * 0x40 + b mod 0x40) (seen + 1) needed 0x80 0xBF, []).
Proof.
  intros Hn Hb Hs. unfold Js.utf8_handler.
  cbn [Js.bytes_needed Js.lower_boundary Js.upper_boundary Js.code_point
       Js.bytes_seen].
  destruct (needed =? 0) eqn:E1; [exfalso; lia|].
  destruct (negb ((lo <=? b) && (b <=? hi))) eqn:E2; [exfalso; lia|].
  destruct (seen + 1 =? needed) eqn:E3; [exfalso; lia | reflexivity].
Qed.

Lemma utf8_decode_cons (st : Js.utf8_state) (b : Js.byte) (bs : list Js.byte) :
  Js.utf8_decode st (b :: bs)
  = (let (st', out) := Js.utf8_handler st (Js.b2z b) in
     out ++ Js.utf8_decode st' bs).
Proof. reflexivity. Qed.

Ltac utf8_step lemma :=
  rewrite utf8_decode_cons; rewrite b2z_z2b by lia;
  rewrite lemma by lia; cbv beta iota; cbn [app].

Lemma utf8_decode_encode (c : Z) (bs : list Js.byte) :
  Js.scalar_value c = true ->
  Js.utf8_decode Js.utf8_initial (Js.utf8_encode c ++ bs)
  = c :: Js.utf8_decode Js.utf8_initial bs.
Proof.
  intros Hc. unfold Js.scalar_value in Hc. unfold Js.utf8_encode.
  destruct (c <? 0x80) eqn:E1;
    [|destruct (c <? 0x800) eqn:E2; [|destruct (c <? 0x10000) eqn:E3]];
    cbn [app].
  - utf8_step utf8_handler_ascii. reflexivity.
  - utf8_step utf8_handler_lead2.
    utf8_step utf8_handler_last.
    f_equal. lia.
  - utf8_step utf8_handler_lead3.
    destruct (0xE0 + c / 0x1000 =? 0xE0) eqn:L;
      destruct (0xE0 + c / 0x1000 =? 0xED) eqn:U;
      utf8_step utf8_handler_more;
      utf8_step utf8_handler_last;
      f_equal; lia.
  - utf8_step utf8_handler_lead4.
    destruct (0xF0 + c / 0x40000 =? 0xF0) eqn:L;
      destruct (0xF0 + c / 0x40000 =? 0xF4) eqn:U;
      utf8_step utf8_handler_more;
      utf8_step utf8_handler_more;
      utf8_step utf8_handler_last;
      f_equal; lia.
Qed.

Lemma utf8_decode_encode_all (cs : list Z) :
  Forall (fun c => Js.scalar_value c = true) cs ->
  Js.utf8_decode Js.utf8_initial (flat_map Js.utf8_encode cs) = cs.
Proof.
  induction 1 as [|c cs Hc _ IH]; [reflexivity|].
  cbn [flat_map]. now rewrite utf8_decode_encode, IH.
Qed.

Lemma jsstring_ind2 (P : list Z -> Prop) :
  P [] -> (forall u, P [u]) ->
  (forall u v r, P r -> P (v :: r) -> P (u :: v :: r)) ->
  forall s, P s.
Proof.
  intros H0 H1 H2 s.
  enough (H : P s /\ forall u, P (u :: s)) by apply H.
  induction s as [|v r [IHr IHv]]; split; auto.
Qed.

Lemma scalar_values_pair (u v : Z) (r : list Z) :
  Js.scalar_values (u :: v :: r)
  = if Js.is_lead u then
      if Js.is_trail v
      then (0x10000 + (u - 0xD800) * 0x400 + (v - 0xDC00)) :: Js.scalar_values r
      else 0xFFFD :: Js.scalar_values (v :: r)
    else if Js.is_trail u then 0xFFFD :: Js.scalar_values (v :: r)
    else u :: Js.scalar_values (v :: r).
Proof. reflexivity. Qed.

Lemma well_formed_pair (u v : Z) (r : list Z) :
  Js.well_formed (u :: v :: r)
  = if Js.is_lead u then Js.is_trail v && Js.well_formed r
    else negb (Js.is_trail u) && Js.well_formed (v :: r).
Proof. reflexivity. Qed.

Lemma is_string_cons (u : Z) (s : list Z) :
  Js.is_string (u :: s) = true -> 0 <= u <= 0xFFFF /\ Js.is_string s = true.
Proof.
  unfold Js.is_string. cbn [forallb]. unfold Js.code_unit at 1.
  intros H. apply andb_prop in H. destruct H as [H1 H2]. split; [lia|exact H2].
Qed.

Lemma scalar_values_scalar (s : Js.jsstring) :
  Js.is_string s = true ->
  Forall (fun c => Js.scalar_value c = true) (Js.scalar_values s).
Proof.
  induction s as [|u|u v r IHr IHv] using jsstring_ind2; intros Hs.
  - constructor.
  - apply is_string_cons in Hs. destruct Hs as [Hu _].
    cbn [Js.scalar_values]. unfold Js.is_lead, Js.is_trail.
    branches; repeat constructor; unfold Js.scalar_value; lia.
  - apply is_string_cons in Hs. destruct Hs as [Hu Hs].
    specialize (IHv Hs).
    apply is_string_cons in Hs. destruct Hs as [Hv Hs].
    specialize (IHr Hs).
    rewrite scalar_values_pair. unfold Js.is_lead, Js.is_trail.
    branches; constructor; try assumption; unfold Js.scalar_value; lia.
Qed.

Lemma utf16_encode_pair (u v : Z) :
  Js.is_lead u = true -> Js.is_trail v = true ->
  Js.utf16_encode (0x10000 + (u - 0xD800) * 0x400 + (v - 0xDC00)) = [u; v].
Proof.
  unfold Js.is_lead, Js.is_trail, Js.utf16_encode. intros Hu Hv.
  branches; [exfalso; lia|]. f_equal; [lia|]. f_equal. lia.
Qed.

Lemma utf16_encode_unit (u : Z) :
  u <= 0xFFFF -> Js.utf16_encode u = [u].
Proof.
  unfold Js.utf16_encode. intros Hu. branches; [reflexivity | exfalso; lia].
Qed.

Lemma toWellFormed_well_formed (s : Js.jsstring) :
  Js.is_string s = true -> Js.well_formed s = true -> Js.toWellFormed s = s.
Proof.
  unfold Js.toWellFormed.
  induction s as [|u|u v r IHr IHv] using jsstring_ind2; intros Hs Hw.
  - reflexivity.
  - apply is_string_cons in Hs. destruct Hs as [Hu _].
    cbn [Js.scalar_values Js.well_formed] in *.
    destruct (Js.is_lead u); [discriminate|].
    destruct (Js.is_trail u); [discriminate|].
    cbn [flat_map app]. now rewrite utf16_encode_unit by lia.
  - apply is_string_cons in Hs. destruct Hs as [Hu Hs].
    rewrite well_formed_pair in Hw. rewrite scalar_values_pair.
    destruct (Js.is_lead u) eqn:Lu.
    + apply andb_prop in Hw. destruct Hw as [Tv Hw]. rewrite Tv.
      apply is_string_cons in Hs. destruct Hs as [_ Hs].
      cbn [flat_map]. rewrite utf16_encode_pair by assumption.
      cbn [app]. now rewrite IHr.
    + apply andb_prop in Hw. destruct Hw as [Tu Hw].
      destruct (Js.is_trail u); [discriminate|].
      cbn [flat_map]. rewrite utf16_encode_unit by lia.
      cbn [app]. now rewrite IHv.
Qed.

Lemma strip_bom_scalar_values (s : Js.jsstring) :
  Js.is_string s = true -> Js.starts_with_bom s = false ->
  Js.strip_bom (Js.scalar_values s) = Js.scalar_values s.
Proof.
  destruct s as [|u [|v r]]; intros Hs Hb; [reflexivity| |].
  - cbn [Js.scalar_values Js.starts_with_bom] in *.
    unfold Js.is_lead, Js.is_trail. branches; cbn [Js.strip_bom];
      branches; try reflexivity; exfalso; lia.
  - apply is_string_cons in Hs. destruct Hs as [Hu Hs].
    apply is_string_cons in Hs. destruct Hs as [Hv _].
    rewrite scalar_values_pair. cbn [Js.starts_with_bom] in Hb.
    unfold Js.is_lead, Js.is_trail. branches; cbn [Js.strip_bom];
      branches; try reflexivity; exfalso; lia.
Qed.

(** What the decoder makes of what the encoder wrote. *)
Lemma decode_encode (s : Js.jsstring) :
  Js.is_string s = true ->
  Js.decode (Js.encode s)
  = flat_map Js.utf16_encode (Js.strip_bom (Js.scalar_values s)).
Proof.
  intros Hs. unfold Js.decode, Js.encode.
  now rewrite utf8_decode_encode_all by now apply scalar_values_scalar.
Qed.

Lemma decode_encode_well_formed (s : Js.jsstring) :
  Js.is_string s = true -> Js.well_formed s = true ->
  Js.starts_with_bom s = false ->
  Js.decode (Js.encode s) = s.
Proof.
  intros Hs Hw Hb. rewrite decode_encode by assumption.
  rewrite strip_bom_scalar_values by assumption.
  now apply toWellFormed_well_formed.
Qed.

(** ** Encrypting and decrypting *)

Section Cipher.
Import Js Crypto.
Variable W : WebCrypto.

(** What [decryptMessage], with any code, sees of what [encryptMessage]
    returned: the IV and the ciphertext it was given. *)
Lemma decrypt_of_encrypt (iv : list byte) (P C C' : jsstring) :
  List.length iv = 12%nat ->
  exists enc,
    encryptMessage W iv P C = inr enc
    /\ decryptMessage_try W enc C'
       = match AES_GCM_decrypt W (getKey W C') iv
                 (AES_GCM_encrypt W (getKey W C) iv (encode P)) with
         | None => inl OperationError
         | Some decrypted => inr (decode decrypted)
         end.
Proof.
  intros Hiv. unfold encryptMessage. rewrite btoa_fromCharCode.
  eexists. split; [reflexivity|].
  unfold decryptMessage_try.
  rewrite atob_btoa_loop by apply fromCharCode_bytes.
  rewrite Uint8Array_from_fromCharCode.
  rewrite <- Hiv at 1. rewrite firstn_app, firstn_all, Nat.sub_diag.
  cbn [firstn]. rewrite app_nil_r.
  rewrite <- Hiv at 1. rewrite skipn_app, skipn_all, Nat.sub_diag.
  reflexivity.
Qed.

Lemma decrypt_same_code (iv : list byte) (P C : jsstring) :
  lawful W -> List.length iv = 12%nat ->
  exists enc,
    encryptMessage W iv P C = inr enc
    /\ decryptMessage_try W enc C = inr (decode (encode P))
    /\ decryptMessage W enc C = decode (encode P).
Proof.
  intros HW Hiv.
  destruct (decrypt_of_encrypt iv P C C Hiv) as (enc & Henc & Hdec).
  rewrite (decrypt_encrypt W HW) in Hdec by assumption.
  exists enc. split; [exact Henc|]. split; [exact Hdec|].
  unfold decryptMessage. now rewrite Hdec.
Qed.

Lemma decrypt_rejected_input (enc C : jsstring) (ex : exception) :
  atob enc = inl ex -> decryptMessage W enc C = sentinel.
Proof.
  intros H. unfold decryptMessage, decryptMessage_try. now rewrite H.
Qed.

Lemma decrypt_truncated_input (enc C bin : jsstring) :
  lawful W -> atob enc = inr bin -> (List.length bin < 28)%nat ->
  decryptMessage W enc C = sentinel.
Proof.
  intros HW H Hlen. unfold decryptMessage, decryptMessage_try. rewrite H.
  rewrite (decrypt_short W HW); [reflexivity|].
  rewrite length_skipn. unfold Uint8Array_from. rewrite length_map. lia.
Qed.
End Cipher.

Lemma model_tag_length (key iv data : list Js.byte) :
  List.length (Crypto.Model.tag key iv data) = 16%nat.
Proof. reflexivity. Qed.

Lemma model_lawful : Crypto.lawful Crypto.Model.webcrypto.
Proof.
  constructor; cbn [Crypto.AES_GCM_decrypt Crypto.AES_GCM_encrypt
                    Crypto.Model.webcrypto].
  - intros key iv data _. unfold Crypto.Model.decrypt, Crypto.Model.encrypt.
    rewrite length_app, model_tag_length.
    replace (List.length data + 16 <? 16)%nat with false by lia.
    replace (List.length data + 16 - 16)%nat with (List.length data + 0)%nat
      by lia.
    rewrite skipn_app, firstn_app, skipn_all2, firstn_all2 by lia.
    replace (List.length data + 0 - List.length data)%nat with 0%nat by lia.
    cbn [firstn skipn app]. rewrite app_nil_r.
    unfold Crypto.Model.bytes_eqb.
    destruct (list_eq_dec Byte.byte_eq_dec _ _) as [_|N];
      [reflexivity | now elim N].
  - intros key iv data Hlen. unfold Crypto.Model.decrypt.
    now replace (List.length data <? 16)%nat with true by lia.
Defined.

(** ** The bound on the arguments of a call *)

Lemma encryptMessage_within
  (max_arguments : nat) (W : Crypto.WebCrypto) (iv : list Js.byte)
  (P C : Js.jsstring) :
  (List.length (Engine.combined W iv P C) <= max_arguments)%nat ->
  Engine.encryptMessage max_arguments W iv P C
  = match Crypto.encryptMessage W iv P C with
    | inl ex => inl (Engine.DOMException ex)
    | inr base64 => inr base64
    end.
Proof.
  intros Hfit. unfold Engine.encryptMessage, Engine.fromCharCode_spread.
  unfold Engine.combined in Hfit.
  replace (List.length _ <=? max_arguments)%nat with true
    by (symmetry; now apply Nat.leb_le).
  reflexivity.
Qed.

Lemma encryptMessage_beyond
  (max_arguments : nat) (W : Crypto.WebCrypto) (iv : list Js.byte)
  (P C : Js.jsstring) :
  (max_arguments < List.length (Engine.combined W iv P C))%nat ->
  Engine.encryptMessage max_arguments W iv P C = inl Engine.RangeError.
Proof.
  intros Hfit. unfold Engine.encryptMessage, Engine.fromCharCode_spread.
  unfold Engine.combined in Hfit.
  replace (List.length _ <=? max_arguments)%nat with false
    by (symmetry; now apply Nat.leb_gt).
  reflexivity.
Qed.

Lemma encode_letters (n : nat) :
  List.length (Js.encode (repeat 97 n)) = n.
Proof.
  unfold Js.encode. induction n as [|n IH]; [reflexivity|].
  cbn [repeat Js.scalar_values]. cbn [Js.is_lead Js.is_trail Z.leb Z.compare
    Pos.compare Pos.compare_cont andb].
  cbn [flat_map]. rewrite length_app, IH. reflexivity.
Qed.

Lemma letters_are_a_string (n : nat) :
  Js.is_string (repeat 97 n) = true /\ Js.well_formed (repeat 97 n) = true
  /\ Js.starts_with_bom (repeat 97 n) = false.
Proof.
  induction n as [|n (IH1 & IH2 & IH3)]; [repeat split|].
  split; [|split].
  - exact IH1.
  - exact IH2.
  - reflexivity.
Qed.

(** C3 (as amended). With AES-GCM giving back under a key and IV what it
    encrypted under them, and with the IV and the ciphertext together no
    more bytes than the engine takes as the arguments of one call,
    decrypting with a code what was encrypted with the same code returns the
    plaintext string P with each unpaired surrogate replaced by U+FFFD and
    one leading U+FEFF removed; this is exactly P when P has no unpaired
    surrogate and does not begin with U+FEFF. With more bytes than that
    [encryptMessage] throws a [RangeError] and returns nothing to decrypt. *)
Theorem decrypt_encrypt_round_trip
  (max_arguments : nat) (W : Crypto.WebCrypto) (iv : list Js.byte)
  (P C : Js.jsstring) :
  Crypto.lawful W ->
  List.length iv = 12%nat ->
  Js.is_string P = true ->
  ((List.length (Engine.combined W iv P C) <= max_arguments)%nat ->
   exists enc,
     Engine.encryptMessage max_arguments W iv P C = inr enc
     /\ Crypto.decryptMessage W enc C
        = flat_map Js.utf16_encode (Js.strip_bom (Js.scalar_values P))
     /\ (Js.well_formed P = true -> Js.starts_with_bom P = false ->
         Crypto.decryptMessage W enc C = P))
  /\ ((max_arguments < List.length (Engine.combined W iv P C))%nat ->
      Engine.encryptMessage max_arguments W iv P C = inl Engine.RangeError).
Proof.
  intros HW Hiv HP. split; [|apply encryptMessage_beyond].
  intros Hfit.
  destruct (decrypt_same_code W iv P C HW Hiv) as (enc & Henc & _ & Hdec).
  exists enc. split.
  { rewrite (encryptMessage_within _ _ _ _ _ Hfit). now rewrite Henc. }
  rewrite Hdec. split.
  - now apply decode_encode.
  - intros Hw Hb. now apply decode_encode_well_formed.
Qed.

Lemma decrypt_encrypt_round_trip_witness :
  (exists enc,
     Engine.encryptMessage (2 ^ 16) Crypto.Model.webcrypto Crypto.Model.iv
       (Js.literal "hi") (Js.literal "ABCDEF") = inr enc
     /\ Crypto.decryptMessage Crypto.Model.webcrypto enc (Js.literal "ABCDEF")
        = Js.literal "hi")
  /\ Engine.encryptMessage 29 Crypto.Model.webcrypto Crypto.Model.iv
       (Js.literal "hi") (Js.literal "ABCDEF") = inl Engine.RangeError.
Proof.
  split.
  - destruct (decrypt_encrypt_round_trip (2 ^ 16) Crypto.Model.webcrypto
                Crypto.Model.iv (Js.literal "hi") (Js.literal "ABCDEF")
                model_lawful eq_refl eq_refl) as [H _].
    destruct H as (enc & Henc & _ & Hsame);
      [apply Nat.leb_le; vm_compute; reflexivity|].
    exists enc. split; [exact Henc|]. now apply Hsame.
  - destruct (decrypt_encrypt_round_trip 29 Crypto.Model.webcrypto
                Crypto.Model.iv (Js.literal "hi") (Js.literal "ABCDEF")
                model_lawful eq_refl eq_refl) as [_ H].
    apply H. apply Nat.ltb_lt. vm_compute. reflexivity.
Defined.

(** C3, the claim as written fails, with any code and any AES-GCM: the one
    code unit string U+D800 comes back as U+FFFD, and the string U+FEFF "hi"
    comes back as "hi"; and whatever number of arguments the engine takes,
    the plaintext of that many letters a is not encrypted at all: the
    sample AES-GCM adds its 16 bytes and the 12 of the IV to it, as the real
    one does, and [encryptMessage] throws. *)
Lemma round_trip_loses_surrogate_and_bom :
  Js.is_string [0xD800] = true
  /\ Js.is_string (0xFEFF :: Js.literal "hi") = true
  /\ (forall (W : Crypto.WebCrypto) (iv : list Js.byte) (C : Js.jsstring),
        Crypto.lawful W -> List.length iv = 12%nat ->
        (exists enc,
           Crypto.encryptMessage W iv [0xD800] C = inr enc
           /\ Crypto.decryptMessage W enc C = [0xFFFD]
           /\ Crypto.decryptMessage W enc C <> [0xD800])
        /\ (exists enc,
              Crypto.encryptMessage W iv (0xFEFF :: Js.literal "hi") C
              = inr enc
              /\ Crypto.decryptMessage W enc C = Js.literal "hi"
              /\ Crypto.decryptMessage W enc C <> 0xFEFF :: Js.literal "hi"))
  /\ forall (max_arguments : nat) (C : Js.jsstring),
       Js.is_string (repeat 97 max_arguments) = true
       /\ Js.well_formed (repeat 97 max_arguments) = true
       /\ Js.starts_with_bom (repeat 97 max_arguments) = false
       /\ Engine.encryptMessage max_arguments Crypto.Model.webcrypto
            Crypto.Model.iv (repeat 97 max_arguments) C
          = inl Engine.RangeError.
Proof.
  split; [reflexivity|]. split; [reflexivity|]. split.
  - intros W iv C HW Hiv. split.
    + destruct (decrypt_same_code W iv [0xD800] C HW Hiv)
        as (enc & Henc & _ & Hdec).
      exists enc. split; [exact Henc|]. rewrite Hdec.
      split; [reflexivity | discriminate].
    + destruct (decrypt_same_code W iv (0xFEFF :: Js.literal "hi") C HW Hiv)
        as (enc & Henc & _ & Hdec).
      exists enc. split; [exact Henc|]. rewrite Hdec.
      split; [reflexivity | discriminate].
  - intros max_arguments C.
    destruct (letters_are_a_string max_arguments) as (H1 & H2 & H3).
    repeat (split; [assumption|]).
    apply encryptMessage_beyond. unfold Engine.combined.
    cbn [Crypto.AES_GCM_encrypt Crypto.Model.webcrypto].
    unfold Crypto.Model.encrypt.
    rewrite !length_app, encode_letters, model_tag_length. lia.
Qed.

(** C4 (as amended). For a plaintext whose IV and ciphertext together are no
    more bytes than the engine takes as the arguments of one call: whenever
    AES-GCM, under the key derived from C2, rejects what was encrypted under
    the key derived from C1, decrypting with C2 returns the fixed string
    "[Message could not be decrypted]" and nothing is thrown; the same
    string is returned for input [atob] refuses and for input that decodes
    to fewer than 28 bytes (IV and tag). The result is a string like any
    other. *)
Theorem wrong_key_returns_sentinel
  (max_arguments : nat) (W : Crypto.WebCrypto) (iv : list Js.byte)
  (P C1 C2 : Js.jsstring) :
  Crypto.lawful W ->
  List.length iv = 12%nat ->
  (List.length (Engine.combined W iv P C1) <= max_arguments)%nat ->
  Crypto.AES_GCM_decrypt W (Crypto.getKey W C2) iv
    (Crypto.AES_GCM_encrypt W (Crypto.getKey W C1) iv (Js.encode P)) = None ->
  (exists enc,
     Engine.encryptMessage max_arguments W iv P C1 = inr enc
     /\ Crypto.decryptMessage_try W enc C2 = inl Js.OperationError
     /\ Crypto.decryptMessage W enc C2 = Crypto.sentinel)
  /\ (forall enc C ex,
        Js.atob enc = inl ex -> Crypto.decryptMessage W enc C = Crypto.sentinel)
  /\ (forall enc C bin,
        Js.atob enc = inr bin -> (List.length bin < 28)%nat ->
        Crypto.decryptMessage W enc C = Crypto.sentinel).
Proof.
  intros HW Hiv Hfit Hrej. split; [|split].
  - destruct (decrypt_of_encrypt W iv P C1 C2 Hiv) as (enc & Henc & Hdec).
    rewrite Hrej in Hdec. exists enc. split.
    { rewrite (encryptMessage_within _ _ _ _ _ Hfit). now rewrite Henc. }
    split; [exact Hdec|]. unfold Crypto.decryptMessage. now rewrite Hdec.
  - intros enc C ex. apply decrypt_rejected_input.
  - intros enc C bin. now apply decrypt_truncated_input.
Qed.

Lemma wrong_key_returns_sentinel_witness :
  (exists enc,
     Engine.encryptMessage (2 ^ 16) Crypto.Model.webcrypto Crypto.Model.iv
       (Js.literal "hi") (Js.literal "ABCDEF") = inr enc
     /\ Crypto.decryptMessage_try Crypto.Model.webcrypto enc
          (Js.literal "ABCDEG") = inl Js.OperationError
     /\ Crypto.decryptMessage Crypto.Model.webcrypto enc (Js.literal "ABCDEG")
        = Crypto.sentinel)
  /\ (forall enc C ex,
        Js.atob enc = inl ex ->
        Crypto.decryptMessage Crypto.Model.webcrypto enc C = Crypto.sentinel)
  /\ (forall enc C bin,
        Js.atob enc = inr bin -> (List.length bin < 28)%nat ->
        Crypto.decryptMessage Crypto.Model.webcrypto enc C = Crypto.sentinel).
Proof.
  apply (wrong_key_returns_sentinel (2 ^ 16) Crypto.Model.webcrypto
           Crypto.Model.iv (Js.literal "hi") (Js.literal "ABCDEF")
           (Js.literal "ABCDEG"));
    [exact model_lawful | reflexivity
     | apply Nat.leb_le; vm_compute; reflexivity
     | vm_compute; reflexivity].
Defined.

(** C4, the claim as written fails: what a failed decryption yields is a
    string, and when the plaintext is the text of that string, decrypting
    with the wrong code returns the plaintext. With the room codes ABCDEF
    and ABCDEG and the sample AES-GCM this happens, and it happens with any
    AES-GCM that rejects the wrong key. *)
Lemma wrong_code_returns_plaintext :
  Js.literal "ABCDEF" <> Js.literal "ABCDEG"
  /\ (exists enc,
        Engine.encryptMessage (2 ^ 16) Crypto.Model.webcrypto Crypto.Model.iv
          (Js.literal "[Message could not be decrypted]")
          (Js.literal "ABCDEF") = inr enc
        /\ Crypto.decryptMessage_try Crypto.Model.webcrypto enc
             (Js.literal "ABCDEG") = inl Js.OperationError
        /\ Crypto.decryptMessage Crypto.Model.webcrypto enc
             (Js.literal "ABCDEG")
           = Js.literal "[Message could not be decrypted]")
  /\ forall (max_arguments : nat) (W : Crypto.WebCrypto) (iv : list Js.byte)
            (C1 C2 : Js.jsstring),
       Crypto.lawful W -> List.length iv = 12%nat ->
       (List.length
          (Engine.combined W iv
             (Js.literal "[Message could not be decrypted]") C1)
        <= max_arguments)%nat ->
       Crypto.AES_GCM_decrypt W (Crypto.getKey W C2) iv
         (Crypto.AES_GCM_encrypt W (Crypto.getKey W C1) iv
            (Js.encode (Js.literal "[Message could not be decrypted]")))
       = None ->
       exists enc,
         Engine.encryptMessage max_arguments W iv
           (Js.literal "[Message could not be decrypted]") C1 = inr enc
         /\ Crypto.decryptMessage W enc C2
            = Js.literal "[Message could not be decrypted]".
Proof.
  assert (Hgen : forall (max_arguments : nat) (W : Crypto.WebCrypto)
                        (iv : list Js.byte) (C1 C2 : Js.jsstring),
            Crypto.lawful W -> List.length iv = 12%nat ->
            (List.length (Engine.combined W iv Crypto.sentinel C1)
             <= max_arguments)%nat ->
            Crypto.AES_GCM_decrypt W (Crypto.getKey W C2) iv
              (Crypto.AES_GCM_encrypt W (Crypto.getKey W C1) iv
                 (Js.encode Crypto.sentinel)) = None ->
            exists enc,
              Engine.encryptMessage max_arguments W iv Crypto.sentinel C1
              = inr enc
              /\ Crypto.decryptMessage_try W enc C2 = inl Js.OperationError
              /\ Crypto.decryptMessage W enc C2 = Crypto.sentinel).
  { intros max_arguments W iv C1 C2 HW Hiv Hfit Hrej.
    destruct (decrypt_of_encrypt W iv Crypto.sentinel C1 C2 Hiv)
      as (enc & Henc & Hdec).
    rewrite Hrej in Hdec. exists enc. split.
    { rewrite (encryptMessage_within _ _ _ _ _ Hfit). now rewrite Henc. }
    split; [exact Hdec|]. unfold Crypto.decryptMessage. now rewrite Hdec. }
  split; [discriminate|]. split.
  - apply (Hgen (2 ^ 16)%nat Crypto.Model.webcrypto Crypto.Model.iv
             (Js.literal "ABCDEF") (Js.literal "ABCDEG") model_lawful eq_refl);
      [apply Nat.leb_le; vm_compute; reflexivity | vm_compute; reflexivity].
  - intros max_arguments W iv C1 C2 HW Hiv Hfit Hrej.
    destruct (Hgen max_arguments W iv C1 C2 HW Hiv Hfit Hrej)
      as (enc & Henc & _ & Hdec).
    exists enc. split; [exact Henc | exact Hdec].
Qed.

(** C10. [decryptMessage] returns a string on every input: what the body of
    its [try] returned, or "[Message could not be decrypted]" for whatever
    the body threw. That string is also what a successful decryption of a
    message with this very plaintext returns, so the caller sees the same
    value for a failure (here: the empty input) and for that success. *)
Theorem decryptMessage_in_band_sentinel
  (W : Crypto.WebCrypto) (iv : list Js.byte) (C : Js.jsstring) :
  Crypto.lawful W ->
  List.length iv = 12%nat ->
  (forall enc code,
     Crypto.decryptMessage W enc code
     = match Crypto.decryptMessage_try W enc code with
       | inr text => text
       | inl _ => Js.literal "[Message could not be decrypted]"
       end)
  /\ (forall enc code ex,
        Crypto.decryptMessage_try W enc code = inl ex ->
        Crypto.decryptMessage W enc code
        = Js.literal "[Message could not be decrypted]")
  /\ exists ok,
       Crypto.encryptMessage W iv
         (Js.literal "[Message could not be decrypted]") C = inr ok
       /\ Crypto.decryptMessage_try W ok C
          = inr (Js.literal "[Message could not be decrypted]")
       /\ Crypto.decryptMessage_try W [] C = inl Js.OperationError
       /\ Crypto.decryptMessage W ok C = Crypto.decryptMessage W [] C.
Proof.
  intros HW Hiv. split; [|split].
  - reflexivity.
  - intros enc code ex H. unfold Crypto.decryptMessage. now rewrite H.
  - destruct (decrypt_same_code W iv Crypto.sentinel C HW Hiv)
      as (ok & Henc & Hdec & _).
    rewrite decode_encode_well_formed in Hdec by reflexivity.
    assert (Hbad : Crypto.decryptMessage_try W [] C = inl Js.OperationError).
    { unfold Crypto.decryptMessage_try. cbn [Js.atob filter List.length
        Nat.modulo Nat.eqb Js.Uint8Array_from map firstn skipn].
      cbn. now rewrite (Crypto.decrypt_short W HW) by (cbn; lia). }
    exists ok. split; [exact Henc|]. split; [exact Hdec|].
    split; [exact Hbad|].
    unfold Crypto.decryptMessage. now rewrite Hdec, Hbad.
Qed.

Lemma decryptMessage_in_band_sentinel_witness :
  (forall enc code,
     Crypto.decryptMessage Crypto.Model.webcrypto enc code
     = match Crypto.decryptMessage_try Crypto.Model.webcrypto enc code with
       | inr text => text
       | inl _ => Js.literal "[Message could not be decrypted]"
       end)
  /\ (forall enc code ex,
        Crypto.decryptMessage_try Crypto.Model.webcrypto enc code = inl ex ->
        Crypto.decryptMessage Crypto.Model.webcrypto enc code
        = Js.literal "[Message could not be decrypted]")
  /\ exists ok,
       Crypto.encryptMessage Crypto.Model.webcrypto Crypto.Model.iv
         (Js.literal "[Message could not be decrypted]") (Js.literal "ABCDEF")
       = inr ok
       /\ Crypto.decryptMessage_try Crypto.Model.webcrypto ok
            (Js.literal "ABCDEF")
          = inr (Js.literal "[Message could not be decrypted]")
       /\ Crypto.decryptMessage_try Crypto.Model.webcrypto []
            (Js.literal "ABCDEF") = inl Js.OperationError
       /\ Crypto.decryptMessage Crypto.Model.webcrypto ok (Js.literal "ABCDEF")
          = Crypto.decryptMessage Crypto.Model.webcrypto []
              (Js.literal "ABCDEF").
Proof.
  apply (decryptMessage_in_band_sentinel Crypto.Model.webcrypto
           Crypto.Model.iv (Js.literal "ABCDEF"));
    [exact model_lawful | reflexivity].
Defined.

(** ** The definitions at work *)

Example generateRoomCode_sample :
  Edge.generateRoomCode (fun i => (7 * i)%nat) = "AHQX6D"%string.
Proof. reflexivity. Qed.

Example generateSessionToken_sample :
  String.length (Edge.generateSessionToken (fun _ => Byte.xff)) = 64%nat.
Proof. reflexivity. Qed.

Example create_then_join :
  fst (Edge.room_operations Sample.bob (Edge.join_request "abcdef") Sample.lobby)
  = Race.joined Sample.bob Sample.lobby_room.
Proof. reflexivity. Qed.

Example join_unknown_code :
  fst (Edge.room_operations Sample.bob (Edge.join_request "ZZZZZZ") Sample.lobby)
  = Edge.error_response 404 "Room not found".
Proof. reflexivity. Qed.

Example getMessages_garbage_token :
  Edge.getMessages
    (Edge.mkRequest "getMessages" None None (Some 7%N) (Some "garbage"%string)
                    None None None)
    Sample.lobby
  = Edge.error_response 403 "Not authorized to access this room".
Proof. reflexivity. Qed.

Example encode_sample :
  map Js.b2z (Js.encode [104; 233; 0x20AC; 0xD83D; 0xDE00])
  = [0x68; 0xC3; 0xA9; 0xE2; 0x82; 0xAC; 0xF0; 0x9F; 0x98; 0x80].
Proof. reflexivity. Qed.

Example decode_ill_formed :
  Js.decode (map Js.z2b [0xE0; 0x80; 0x41; 0xC3]) = [0xFFFD; 0xFFFD; 0x41; 0xFFFD].
Proof. reflexivity. Qed.

Example btoa_sample : Js.btoa (Js.literal "Ma") = inr (Js.literal "TWE=").
Proof. reflexivity. Qed.

Example atob_sample : Js.atob (Js.literal "TW E=") = inr (Js.literal "Ma").
Proof. reflexivity. Qed.

Example atob_unpadded : Js.atob (Js.literal "TQ") = inr (Js.literal "M").
Proof. reflexivity. Qed.

Example atob_refuses :
  Js.atob (Js.literal "T") = inl Js.InvalidCharacterError
  /\ Js.atob (Js.literal "TQ=") = inl Js.InvalidCharacterError
  /\ Js.atob [0x20AC] = inl Js.InvalidCharacterError.
Proof. repeat split. Qed.

(** ** Lists of rows *)

Section Rows.
Context {A K : Type} (key : A -> K) (eqb : K -> K -> bool).
Hypothesis eqb_eq : forall a b, eqb a b = true <-> a = b.

Lemma existsb_key_false (l : list A) (k : K) :
  existsb (fun y => eqb (key y) k) l = false <-> ~ In k (map key l).
Proof.
  split.
  - intros H Hin. apply in_map_iff in Hin. destruct Hin as (x & Hx & Hin).
    assert (E : existsb (fun y => eqb (key y) k) l = true).
    { apply existsb_exists. exists x. split; [exact Hin|]. now apply eqb_eq. }
    congruence.
  - intros H. destruct (existsb (fun y => eqb (key y) k) l) eqn:E;
      [|reflexivity].
    apply existsb_exists in E. destruct E as (x & Hin & Hx).
    apply eqb_eq in Hx. exfalso. apply H. rewrite <- Hx. now apply in_map.
Qed.

Lemma existsb_key_true (l : list A) (k : K) :
  existsb (fun y => eqb (key y) k) l = true <-> In k (map key l).
Proof.
  split.
  - intros E. apply existsb_exists in E. destruct E as (x & Hin & Hx).
    apply eqb_eq in Hx. rewrite <- Hx. now apply in_map.
  - intros Hin. apply in_map_iff in Hin. destruct Hin as (x & Hx & Hin).
    apply existsb_exists. exists x. split; [exact Hin|]. now apply eqb_eq.
Qed.

Lemma NoDup_key_eq (l : list A) (x y : A) :
  NoDup (map key l) -> In x l -> In y l -> key x = key y -> x = y.
Proof.
  induction l as [|a l IH]; cbn [map]; intros Hnd Hx Hy Hk; [contradiction|].
  inversion Hnd as [|k ks Hnot Hnd']; subst.
  destruct Hx as [->|Hx], Hy as [->|Hy].
  - reflexivity.
  - exfalso. apply Hnot. rewrite Hk. now apply in_map.
  - exfalso. apply Hnot. rewrite <- Hk. now apply in_map.
  - now apply IH.
Qed.
End Rows.

Lemma NoDup_snoc {A} (l : list A) (x : A) :
  NoDup l -> ~ In x l -> NoDup (l ++ [x]).
Proof.
  intros Hnd Hx. induction Hnd as [|a l Ha Hnd IH]; cbn.
  - constructor; [intros []|constructor].
  - constructor.
    + intros Hin. apply in_app_or in Hin. destruct Hin as [Hin|[->|[]]].
      * now apply Ha.
      * apply Hx. now left.
    + apply IH. intros Hin. apply Hx. now right.
Qed.

Lemma kept_rows_distinct {K R} (key : R -> K) (keep : R -> bool)
  (rows : list R) :
  NoDup (map key rows) -> NoDup (map key (filter keep rows)).
Proof.
  intros Hnd. induction rows as [|r rows IH]; cbn; [constructor|].
  inversion Hnd as [|k ks Hnot Hnd']; subst.
  destruct (keep r); cbn; [|now apply IH].
  constructor; [|now apply IH].
  intros Hin. apply Hnot. apply in_map_iff in Hin.
  destruct Hin as (x & Hx & Hin). apply filter_In in Hin.
  rewrite <- Hx. apply in_map. apply Hin.
Qed.

Lemma filter_all {A} (p : A -> bool) (l : list A) :
  (forall x, In x l -> p x = true) -> filter p l = l.
Proof.
  induction l as [|a l IH]; cbn; intros H; [reflexivity|].
  rewrite (H a) by now left. f_equal. apply IH. intros x Hx. apply H. now right.
Qed.

Lemma filter_snoc {A} (p : A -> bool) (l : list A) (x : A) :
  filter p (l ++ [x]) = filter p l ++ (if p x then [x] else []).
Proof. rewrite filter_app. cbn. now destruct (p x). Qed.

Lemma filter_filter {A} (p q : A -> bool) (l : list A) :
  filter p (filter q l) = filter (fun x => q x && p x) l.
Proof.
  induction l as [|a l IH]; cbn; [reflexivity|].
  destruct (q a); cbn; [destruct (p a)|]; now rewrite IH.
Qed.

Lemma map_map_fixed {A B} (f : A -> B) (g : A -> A) (l : list A) :
  (forall x, f (g x) = f x) -> map f (map g l) = map f l.
Proof. intros H. rewrite map_map. apply map_ext. exact H. Qed.

Lemma room_id_used_ids (db db' : Db.database) (i : Db.uuid) :
  map Db.id (Db.rooms db') = map Db.id (Db.rooms db) ->
  Db.room_id_used db' i = Db.room_id_used db i.
Proof.
  intros H. unfold Db.room_id_used.
  destruct (existsb (fun r => N.eqb (Db.id r) i) (Db.rooms db)) eqn:E.
  - apply (existsb_key_true Db.id N.eqb N.eqb_eq) in E.
    apply (existsb_key_true Db.id N.eqb N.eqb_eq). now rewrite H.
  - apply (existsb_key_false Db.id N.eqb N.eqb_eq) in E.
    apply (existsb_key_false Db.id N.eqb N.eqb_eq). now rewrite H.
Qed.

Lemma room_id_used_In (db : Db.database) (r : Db.room) :
  In r (Db.rooms db) -> Db.room_id_used db (Db.id r) = true.
Proof.
  intros H. apply (existsb_key_true Db.id N.eqb N.eqb_eq). now apply in_map.
Qed.

Lemma room_id_used_grows (db db' : Db.database) (i : Db.uuid) :
  incl (Db.rooms db) (Db.rooms db') ->
  Db.room_id_used db i = true -> Db.room_id_used db' i = true.
Proof.
  intros Hincl H. apply existsb_exists in H. destruct H as (r & Hin & Hr).
  apply existsb_exists. exists r. split; [now apply Hincl | exact Hr].
Qed.

(** ** What a call of the edge function does to the store *)

Section Outcomes.
Import Db Edge.
Local Open Scope Z_scope.

Variables (e : env) (db : database).
Hypothesis Hdb : Store.constrained db.

Lemma participant_id_used_rooms (R : list room) (i : uuid) :
  participant_id_used (mkDb R (room_participants db) (messages db)) i
  = participant_id_used db i.
Proof using Type. reflexivity. Qed.

Lemma token_used_rooms (R : list room) (t : string) :
  token_used (mkDb R (room_participants db) (messages db)) t = token_used db t.
Proof using Type. reflexivity. Qed.

Lemma unused_room_unbound (i : uuid) :
  room_id_used db i = false -> Store.bindings db i = [].
Proof using Hdb.
  intros Hi. apply filter_none.
  destruct (existsb (fun p => N.eqb (rp_room_id p) i) (room_participants db))
    eqn:E; [|reflexivity].
  apply existsb_exists in E. destruct E as (p & Hin & Hp).
  apply N.eqb_eq in Hp.
  pose proof (proj1 (Forall_forall _ _) (Store.participant_rooms db Hdb) p Hin)
    as Hfk.
  cbv beta in Hfk. congruence.
Qed.

Lemma delete_after_insert (r : room) :
  room_id_used db (id r) = false ->
  delete_room (mkDb (rooms db ++ [r]) (room_participants db) (messages db))
              (id r) = db.
Proof using Hdb.
  intros Hi. unfold delete_room. cbn [rooms room_participants messages].
  destruct db as [R P M]. cbn [rooms room_participants messages] in *.
  f_equal.
  - rewrite filter_snoc, N.eqb_refl. cbn [negb]. rewrite app_nil_r.
    apply filter_all. intros x Hx. apply negb_true_iff.
    destruct (N.eqb (id x) (id r)) eqn:E; [|reflexivity].
    apply N.eqb_eq in E.
    pose proof (room_id_used_In (mkDb R P M) x Hx) as Hu. congruence.
  - apply filter_all. intros p Hp. apply negb_true_iff.
    destruct (N.eqb (rp_room_id p) (id r)) eqn:E; [|reflexivity].
    apply N.eqb_eq in E.
    pose proof (proj1 (Forall_forall _ _) (Store.participant_rooms _ Hdb) p Hp)
      as Hfk.
    cbv beta in Hfk. congruence.
  - apply filter_all. intros m Hm. apply negb_true_iff.
    destruct (N.eqb (m_room_id m) (id r)) eqn:E; [|reflexivity].
    apply N.eqb_eq in E.
    pose proof (proj1 (Forall_forall _ _) (Store.message_rooms _ Hdb) m Hm)
      as Hfk.
    cbv beta in Hfk. congruence.
Qed.

(** A create either changes nothing and answers an error, or writes the
    room and its creator. *)
Lemma create_outcome (req : request) :
  (snd (create e req db) = db /\ http_status (fst (create e req db)) <> 200)
  \/ exists d,
       durationMinutes req = Some d /\ 1 <= d <= 120
       /\ create e req db
          = (mkResponse 200
               (Joined (Created.room e d)
                       (generateSessionToken (random_byte e)) 1),
             Created.store e d db)
       /\ room_id_used db (room_uuid e) = false
       /\ code_used db (generateRoomCode (random_index e)) = false
       /\ participant_id_used db (participant_uuid e) = false
       /\ token_used db (generateSessionToken (random_byte e)) = false.
Proof using Hdb.
  unfold create.
  destruct (invalid_duration (durationMinutes req)) eqn:Hv;
    [left; split; [reflexivity | cbn; lia]|].
  destruct (durationMinutes req) as [d|] eqn:Hd; [|discriminate Hv].
  unfold invalid_duration in Hv.
  unfold insert_room. cbn [id code].
  destruct (room_id_used db (room_uuid e)) eqn:Hid;
    [left; split; [reflexivity | cbn; lia]|].
  destruct (code_used db (generateRoomCode (random_index e))) eqn:Hcode;
    [left; split; [reflexivity | cbn; lia]|].
  rewrite generateRoomCode_length. cbn [Nat.ltb Nat.leb].
  unfold insert_participant.
  cbn [rp_id rp_room_id session_token participant_number].
  rewrite participant_id_used_rooms, token_used_rooms.
  destruct (participant_id_used db (participant_uuid e)) eqn:Hpid.
  { left. split; [|cbn; lia]. cbn [snd].
    exact (delete_after_insert
             (mkRoom (room_uuid e) (generateRoomCode (random_index e)) d
                     (db_now e) (date_now e + d * 60 * 1000) waiting 1) Hid). }
  assert (Hfk : room_id_used
                  (mkDb (rooms db
                         ++ [mkRoom (room_uuid e)
                               (generateRoomCode (random_index e)) d (db_now e)
                               (date_now e + d * 60 * 1000) waiting 1])
                        (room_participants db) (messages db)) (room_uuid e)
                = true).
  { unfold room_id_used. cbn [rooms]. rewrite existsb_app. cbn [existsb id].
    now rewrite N.eqb_refl, Bool.orb_true_r. }
  rewrite Hfk. cbn [negb].
  destruct (token_used db (generateSessionToken (random_byte e))) eqn:Htok.
  { left. split; [|cbn; lia]. cbn [snd].
    exact (delete_after_insert
             (mkRoom (room_uuid e) (generateRoomCode (random_index e)) d
                     (db_now e) (date_now e + d * 60 * 1000) waiting 1) Hid). }
  cbn [Z.eqb orb negb].
  assert (Hslot : slot_taken
                    (mkDb (rooms db
                           ++ [mkRoom (room_uuid e)
                                 (generateRoomCode (random_index e)) d (db_now e)
                                 (date_now e + d * 60 * 1000) waiting 1])
                          (room_participants db) (messages db)) (room_uuid e) 1
                  = false).
  { unfold slot_taken. cbn [room_participants].
    destruct (existsb _ (room_participants db)) eqn:E; [|reflexivity].
    apply existsb_exists in E. destruct E as (p & Hin & Hp).
    apply andb_prop in Hp. destruct Hp as [Hp _]. apply N.eqb_eq in Hp.
    pose proof (proj1 (Forall_forall _ _) (Store.participant_rooms _ Hdb) p Hin)
      as Hp'.
    cbv beta in Hp'. congruence. }
  rewrite Hslot.
  right. exists d. repeat split; try reflexivity; lia.
Qed.

(** What the lookup of a join has made sure of. *)
Lemma join_lookup_room (req : request) (room : Db.room) :
  join_lookup e req db = inr room ->
  In room (rooms db)
  /\ (exists c, req_code req = Some c /\ String.length c = 6%nat
                /\ code room = toUpperCase c)
  /\ date_now e <= expires_at room
  /\ status room <> expired
  /\ (status room = active -> participant_count room < 2).
Proof using Type.
  clear Hdb. unfold join_lookup.
  destruct (req_code req) as [c|]; [|discriminate].
  destruct (String.length c =? 6)%nat eqn:Hlen; [|discriminate]. cbn [negb].
  unfold select_rooms_by_code.
  destruct (filter (fun r => String.eqb (code r) (toUpperCase c)) (rooms db))
    as [|r [|r' l]] eqn:Hf; cbn [maybeSingle]; try discriminate.
  assert (Hin : In r (filter (fun r => String.eqb (code r) (toUpperCase c))
                             (rooms db))) by (rewrite Hf; now left).
  apply filter_In in Hin. destruct Hin as [Hin Hc]. apply String.eqb_eq in Hc.
  destruct (expires_at r <? date_now e) eqn:Hexp; [discriminate|].
  destruct (room_status_eqb (status r) expired) eqn:Hs; [discriminate|].
  destruct (room_status_eqb (status r) active && (participant_count r >=? 2))
    eqn:Hfull; [discriminate|].
  intros H. injection H as <-.
  split; [exact Hin|]. split.
  { exists c. apply Nat.eqb_eq in Hlen. now repeat split. }
  split; [lia|]. split.
  - intros Hst. rewrite Hst in Hs. discriminate.
  - intros Hst. rewrite Hst in Hfull. cbn [room_status_eqb andb] in Hfull. lia.
Qed.

(** A join either changes nothing and answers an error, or writes its row
    and makes the room active. *)
Lemma join_outcome (req : request) :
  (snd (join e req db) = db /\ http_status (fst (join e req db)) <> 200)
  \/ exists room,
       join_lookup e req db = inr room
       /\ join e req db = (Race.joined e room, Race.activated db room e)
       /\ participant_id_used db (participant_uuid e) = false
       /\ token_used db (generateSessionToken (random_byte e)) = false
       /\ slot_taken db (id room) 2 = false.
Proof using Hdb.
  unfold join.
  destruct (join_lookup e req db) as [resp|room] eqn:Hl.
  { left. split; [reflexivity|]. revert Hl. unfold join_lookup.
    destruct (req_code req) as [c|]; [|intros H; injection H as <-; cbn; lia].
    destruct (negb (String.length c =? 6)%nat);
      [intros H; injection H as <-; cbn; lia|].
    destruct (maybeSingle _) as [err|[r|]];
      [intros H; injection H as <-; cbn; lia | |
       intros H; injection H as <-; cbn; lia].
    destruct (expires_at r <? date_now e);
      [intros H; injection H as <-; cbn; lia|].
    destruct (room_status_eqb (status r) expired);
      [intros H; injection H as <-; cbn; lia|].
    destruct (room_status_eqb (status r) active && (participant_count r >=? 2));
      [intros H; injection H as <-; cbn; lia | discriminate]. }
  destruct (join_lookup_room req room Hl) as (Hin & _).
  unfold join_register, insert_participant.
  cbn [rp_id rp_room_id session_token participant_number].
  destruct (participant_id_used db (participant_uuid e)) eqn:Hpid;
    [left; split; [reflexivity | cbn; lia]|].
  rewrite (room_id_used_In db room Hin). cbn [negb].
  destruct (token_used db (generateSessionToken (random_byte e))) eqn:Htok;
    [left; split; [reflexivity | cbn; lia]|].
  cbn [Z.eqb orb negb].
  destruct (slot_taken db (id room) 2) eqn:Hslot;
    [left; split; [reflexivity | cbn; lia]|].
  right. exists room. split; [reflexivity|]. split; [|now repeat split].
  exact (activate_answers db room
           (conj (Store.room_ids db Hdb) (Store.codes db Hdb)) Hin e e).
Qed.
End Outcomes.

(** ** The invariant of the store *)

Lemma counted_bindings (db db' : Db.database) (r r' : Db.room) :
  Store.counted db r ->
  Store.bindings db' (Db.id r') = Store.bindings db (Db.id r) ->
  Db.participant_count r' = Db.participant_count r ->
  (Db.status r' = Db.status r \/ Db.status r' = Db.expired) ->
  Store.counted db' r'.
Proof.
  intros [Hc Hr Hw Ha] Hb Hn Hs. constructor.
  - now rewrite Hb, Hn.
  - now rewrite Hn.
  - intros H. rewrite Hn. apply Hw. destruct Hs as [<-|Hs]; congruence.
  - intros H. rewrite Hn. apply Ha. destruct Hs as [<-|Hs]; congruence.
Qed.

Lemma bindings_added (R R' : list Db.room) (P : list Db.participant)
  (M M' : list Db.message) (p : Db.participant) (i : Db.uuid) :
  Store.bindings (Db.mkDb R' (P ++ [p]) M') i
  = Store.bindings (Db.mkDb R P M) i
    ++ (if N.eqb (Db.rp_room_id p) i then [p] else []).
Proof.
  unfold Store.bindings. cbn [Db.room_participants].
  exact (filter_snoc (fun q => N.eqb (Db.rp_room_id q) i) P p).
Qed.

Section Consistency.
Import Db Edge.
Local Open Scope Z_scope.

Variable db : database.
Hypothesis Hdb : Store.consistent db.

Lemma created_consistent (e : env) (d : Z) :
  room_id_used db (room_uuid e) = false ->
  code_used db (generateRoomCode (random_index e)) = false ->
  participant_id_used db (participant_uuid e) = false ->
  token_used db (generateSessionToken (random_byte e)) = false ->
  Store.consistent (Created.store e d db).
Proof using Hdb.
  intros Hid Hcode Hpid Htok. destruct Hdb as [Hs Hc].
  pose proof (unused_room_unbound db Hs (room_uuid e) Hid) as Hnone.
  destruct db as [R P M]. unfold Created.store.
  cbn [rooms room_participants messages] in *.
  assert (Hincl : incl R (R ++ [Created.room e d]))
    by (intros x Hx; apply in_or_app; now left).
  constructor.
  - constructor; cbn [rooms room_participants messages].
    + rewrite map_app. apply NoDup_snoc; [apply (Store.room_ids _ Hs)|].
      now apply (existsb_key_false id N.eqb N.eqb_eq).
    + rewrite map_app. apply NoDup_snoc; [apply (Store.codes _ Hs)|].
      now apply (existsb_key_false code String.eqb String.eqb_eq).
    + rewrite map_app. apply NoDup_snoc; [apply (Store.participant_ids _ Hs)|].
      now apply (existsb_key_false rp_id N.eqb N.eqb_eq).
    + rewrite map_app. apply NoDup_snoc; [apply (Store.tokens _ Hs)|].
      now apply (existsb_key_false session_token String.eqb String.eqb_eq).
    + rewrite map_app. apply NoDup_snoc; [apply (Store.slots _ Hs)|].
      cbn [map]. intros Hin. apply in_map_iff in Hin.
      destruct Hin as (p & Hp & Hin). injection Hp as Hp _.
      pose proof (proj1 (Forall_forall _ _) (Store.participant_rooms _ Hs) p Hin)
        as Hfk.
      cbv beta in Hfk. cbn in Hp. congruence.
    + apply Forall_app. split; [apply (Store.slot_numbers _ Hs)|].
      constructor; [now left | constructor].
    + apply (Store.message_ids _ Hs).
    + apply Forall_app. split.
      * eapply Forall_impl; [|apply (Store.participant_rooms _ Hs)].
        intros p Hp. eapply room_id_used_grows; [|exact Hp]. exact Hincl.
      * constructor; [|constructor].
        apply (room_id_used_In (mkDb (R ++ [Created.room e d]) _ M)
                 (Created.room e d)).
        apply in_or_app. right. now left.
    + eapply Forall_impl; [|apply (Store.message_rooms _ Hs)].
      intros m Hm. eapply room_id_used_grows; [|exact Hm]. exact Hincl.
  - cbn [rooms]. apply Forall_app. split.
    + apply Forall_forall. intros r Hr.
      pose proof (proj1 (Forall_forall _ _) Hc r Hr) as Hcr.
      apply (counted_bindings (mkDb R P M) _ r r Hcr); auto.
      rewrite (bindings_added R _ P M M). cbn [Created.creator rp_room_id].
      destruct (N.eqb (room_uuid e) (id r)) eqn:E; [|now rewrite app_nil_r].
      apply N.eqb_eq in E.
      pose proof (room_id_used_In (mkDb R P M) r Hr) as Hu. congruence.
    + constructor; [|constructor].
      constructor; cbn [Created.room id participant_count status].
      * rewrite (bindings_added R _ P M M). rewrite Hnone.
        cbn [Created.creator rp_room_id]. now rewrite N.eqb_refl.
      * lia.
      * reflexivity.
      * discriminate.
Qed.

Lemma joined_consistent (e : env) (req : request) (room : Db.room) :
  join_lookup e req db = inr room ->
  participant_id_used db (participant_uuid e) = false ->
  token_used db (generateSessionToken (random_byte e)) = false ->
  slot_taken db (id room) 2 = false ->
  Store.consistent (Race.activated db room e).
Proof using Hdb.
  intros Hl Hpid Htok Hslot. destruct Hdb as [Hs Hc].
  destruct (join_lookup_room e db req room Hl) as (Hin & _ & _ & Hne & Hfull).
  pose proof (proj1 (Forall_forall _ _) Hc room Hin) as Hroom.
  unfold Race.activated.
  set (upd := fun r => if N.eqb (id r) (id room) then activate r else r).
  assert (Hids : map id (map upd (rooms db)) = map id (rooms db)).
  { apply map_map_fixed. intros x. unfold upd.
    now destruct (N.eqb (id x) (id room)). }
  assert (Hcodes : map code (map upd (rooms db)) = map code (rooms db)).
  { apply map_map_fixed. intros x. unfold upd.
    now destruct (N.eqb (id x) (id room)). }
  assert (Hused : forall i,
             room_id_used (mkDb (map upd (rooms db))
                                (room_participants db ++ [Race.binding e room])
                                (messages db)) i = room_id_used db i).
  { intros i. now apply room_id_used_ids. }
  constructor.
  - constructor; cbn [rooms room_participants messages].
    + rewrite Hids. apply (Store.room_ids _ Hs).
    + rewrite Hcodes. apply (Store.codes _ Hs).
    + rewrite map_app. apply NoDup_snoc; [apply (Store.participant_ids _ Hs)|].
      now apply (existsb_key_false rp_id N.eqb N.eqb_eq).
    + rewrite map_app. apply NoDup_snoc; [apply (Store.tokens _ Hs)|].
      now apply (existsb_key_false session_token String.eqb String.eqb_eq).
    + rewrite map_app. apply NoDup_snoc; [apply (Store.slots _ Hs)|].
      cbn [map]. intros Hi. apply in_map_iff in Hi.
      destruct Hi as (p & Hp & Hi). injection Hp as Hp1 Hp2.
      assert (E : slot_taken db (id room) 2 = true).
      { apply existsb_exists. exists p. split; [exact Hi|].
        cbn in Hp1, Hp2. rewrite Hp1, Hp2, N.eqb_refl. reflexivity. }
      congruence.
    + apply Forall_app. split; [apply (Store.slot_numbers _ Hs)|].
      constructor; [now right | constructor].
    + apply (Store.message_ids _ Hs).
    + apply Forall_app. split.
      * eapply Forall_impl; [|apply (Store.participant_rooms _ Hs)].
        intros p Hp. cbv beta. now rewrite Hused.
      * constructor; [|constructor]. rewrite Hused.
        now apply room_id_used_In.
    + eapply Forall_impl; [|apply (Store.message_rooms _ Hs)].
      intros m Hm. cbv beta. now rewrite Hused.
  - cbn [rooms]. apply Forall_forall. intros r' Hr'.
    apply in_map_iff in Hr'. destruct Hr' as (r & <- & Hr).
    pose proof (proj1 (Forall_forall _ _) Hc r Hr) as Hcr.
    unfold upd. destruct (N.eqb (id r) (id room)) eqn:E.
    + apply N.eqb_eq in E.
      assert (r = room)
        by (apply (NoDup_key_eq id (rooms db) r room (Store.room_ids _ Hs));
            assumption).
      subst r.
      assert (Hone : participant_count room = 1).
      { destruct Hroom as [_ Hr1 Hw Ha].
        destruct (status room) eqn:St.
        - now apply Hw.
        - specialize (Hfull eq_refl). specialize (Ha eq_refl). lia.
        - now elim Hne. }
      constructor; cbn [activate id participant_count status].
      * rewrite (bindings_added (rooms db) _ _ (messages db) (messages db)).
        cbn [Race.binding rp_room_id]. rewrite N.eqb_refl.
        rewrite length_app. cbn [List.length].
        destruct db as [R P M]. cbn [rooms room_participants messages] in *.
        rewrite (Store.count_is_bindings _ _ Hroom) in Hone. lia.
      * lia.
      * discriminate.
      * reflexivity.
    + apply (counted_bindings db _ r r Hcr); auto.
      rewrite (bindings_added (rooms db) _ _ (messages db) (messages db)).
      cbn [Race.binding rp_room_id]. rewrite N.eqb_sym, E.
      destruct db; now rewrite app_nil_r.
Qed.

Lemma room_operations_consistent (e : env) (req : request) :
  Store.consistent (snd (room_operations e req db)).
Proof using Hdb.
  unfold room_operations.
  destruct (String.eqb (action req) "create").
  { destruct (create_outcome e db (Store.schema db Hdb) req)
      as [[-> _] | (d & _ & _ & -> & Hid & Hcode & Hpid & Htok)];
      [exact Hdb | now apply created_consistent]. }
  destruct (String.eqb (action req) "join").
  { destruct (join_outcome e db (Store.schema db Hdb) req)
      as [[-> _] | (room & Hl & -> & Hpid & Htok & Hslot)];
      [exact Hdb | now apply (joined_consistent e req)]. }
  destruct (String.eqb (action req) "get"); [exact Hdb|].
  destruct (String.eqb (action req) "getMessages"); exact Hdb.
Qed.
End Consistency.

Lemma Forall_filter_keep {A} (P : A -> Prop) (p : A -> bool) (l : list A) :
  Forall P l -> Forall P (filter p l).
Proof.
  intros H. apply Forall_forall. intros x Hx. apply filter_In in Hx.
  exact (proj1 (Forall_forall _ _) H x (proj1 Hx)).
Qed.

Lemma mark_expired_fixed (now : Z) (r : Db.room) :
  Db.id (Db.mark_expired now r) = Db.id r
  /\ Db.code (Db.mark_expired now r) = Db.code r
  /\ Db.expires_at (Db.mark_expired now r) = Db.expires_at r
  /\ Db.participant_count (Db.mark_expired now r) = Db.participant_count r
  /\ Store.fixed (Db.mark_expired now r) = Store.fixed r
  /\ (Db.status (Db.mark_expired now r) = Db.status r
      \/ Db.status (Db.mark_expired now r) = Db.expired).
Proof.
  unfold Db.mark_expired.
  destruct ((Db.expires_at r <? now)
            && negb (Db.room_status_eqb (Db.status r) Db.expired));
    cbn; repeat split; auto.
Qed.

Lemma policies_on_rooms :
  RoomsRls.policies
  = [ RoomsRls.mkPolicy "Anyone can create rooms" RoomsRls.INSERT
                        RoomsRls.Always RoomsRls.Always;
      RoomsRls.mkPolicy "Rooms viewable by participants only" RoomsRls.SELECT
                        RoomsRls.HasParticipant RoomsRls.HasParticipant;
      RoomsRls.mkPolicy "Restricted room status updates" RoomsRls.UPDATE
                        RoomsRls.NotExpired RoomsRls.ActiveAndFullOrExpired ].
Proof. reflexivity. Qed.

Lemma client_sees_no_participant (db : Db.database) :
  ParticipantsRls.select_participants db = [].
Proof.
  unfold ParticipantsRls.select_participants. apply filter_none.
  induction (Db.room_participants db) as [|p l IH]; [reflexivity|exact IH].
Qed.

Lemma may_read_spec (db : Db.database) (r : Db.room) :
  RoomsRls.may_read db r = false.
Proof.
  unfold RoomsRls.may_read. rewrite policies_on_rooms. cbn.
  now rewrite client_sees_no_participant.
Qed.

Lemma may_update_spec (db : Db.database) (r : Db.room) :
  RoomsRls.may_update db r
  = negb (Db.room_status_eqb (Db.status r) Db.expired).
Proof.
  unfold RoomsRls.may_update. rewrite policies_on_rooms. cbn.
  now rewrite Bool.orb_false_r.
Qed.

Lemma may_become_expired (db : Db.database) (r : Db.room) :
  RoomsRls.may_become db (RoomsRls.set_expired r) = true.
Proof.
  unfold RoomsRls.may_become. rewrite policies_on_rooms. reflexivity.
Qed.

Lemma expireRoom_rooms (i : Db.uuid) (db : Db.database) :
  Store.expireRoom i db
  = Db.mkDb (map (fun r => if RoomsRls.targeted db i r
                           then RoomsRls.set_expired r else r) (Db.rooms db))
            (Db.room_participants db) (Db.messages db).
Proof.
  unfold Store.expireRoom, RoomsRls.update_rooms.
  replace (forallb _ (Db.rooms db)) with true; [reflexivity|].
  symmetry. apply forallb_forall. intros r _.
  now rewrite may_become_expired, Bool.orb_true_r.
Qed.

Section Maintenance.
Import Db.
Local Open Scope Z_scope.

Variable db : database.
Hypothesis Hdb : Store.consistent db.

Lemma cleanup_consistent (now : Z) :
  Store.consistent (cleanup_expired_rooms now db).
Proof using Hdb.
  destruct Hdb as [Hs Hc]. unfold cleanup_expired_rooms.
  set (marked := map (mark_expired now) (rooms db)).
  set (gone := fun i => existsb (fun r => N.eqb (id r) i && purgeable now r)
                                marked).
  assert (Hids : map id marked = map id (rooms db)).
  { apply map_map_fixed. intros r. apply mark_expired_fixed. }
  assert (Hcodes : map code marked = map code (rooms db)).
  { apply map_map_fixed. intros r. apply mark_expired_fixed. }
  assert (Hkept : forall r, In r (rooms db) ->
                  gone (id r) = false ->
                  In (mark_expired now r)
                     (filter (fun r => negb (purgeable now r)) marked)).
  { intros r Hr Hg. apply filter_In. split; [now apply in_map|].
    apply negb_true_iff.
    destruct (purgeable now (mark_expired now r)) eqn:E; [|reflexivity].
    assert (gone (id r) = true); [|congruence].
    apply existsb_exists. exists (mark_expired now r).
    split; [now apply in_map|].
    rewrite E, (proj1 (mark_expired_fixed now r)), N.eqb_refl. reflexivity. }
  assert (Hfk : forall i, room_id_used db i = true -> gone i = false ->
                room_id_used
                  (mkDb (filter (fun r => negb (purgeable now r)) marked)
                        (filter (fun p => negb (gone (rp_room_id p)))
                                (room_participants db))
                        (filter (fun m => negb (gone (m_room_id m)))
                                (messages db))) i = true).
  { intros i Hi Hg. apply existsb_exists in Hi. destruct Hi as (r & Hr & Hi).
    apply N.eqb_eq in Hi. subst i.
    apply existsb_exists. exists (mark_expired now r).
    split; [now apply Hkept|].
    rewrite (proj1 (mark_expired_fixed now r)). apply N.eqb_refl. }
  constructor.
  - constructor; cbn [rooms room_participants messages].
    + apply kept_rows_distinct. rewrite Hids. apply (Store.room_ids _ Hs).
    + apply kept_rows_distinct. rewrite Hcodes. apply (Store.codes _ Hs).
    + apply kept_rows_distinct, (Store.participant_ids _ Hs).
    + apply kept_rows_distinct, (Store.tokens _ Hs).
    + apply kept_rows_distinct, (Store.slots _ Hs).
    + apply Forall_filter_keep, (Store.slot_numbers _ Hs).
    + apply kept_rows_distinct, (Store.message_ids _ Hs).
    + apply Forall_forall. intros p Hp. apply filter_In in Hp.
      destruct Hp as [Hp Hg]. apply negb_true_iff in Hg.
      apply Hfk; [|exact Hg].
      exact (proj1 (Forall_forall _ _) (Store.participant_rooms _ Hs) p Hp).
    + apply Forall_forall. intros m Hm. apply filter_In in Hm.
      destruct Hm as [Hm Hg]. apply negb_true_iff in Hg.
      apply Hfk; [|exact Hg].
      exact (proj1 (Forall_forall _ _) (Store.message_rooms _ Hs) m Hm).
  - cbn [rooms]. apply Forall_forall. intros r' Hr'.
    apply filter_In in Hr'. destruct Hr' as [Hr' Hkeep].
    apply negb_true_iff in Hkeep.
    apply in_map_iff in Hr'. destruct Hr' as (r & <- & Hr).
    pose proof (proj1 (Forall_forall _ _) Hc r Hr) as Hcr.
    destruct (mark_expired_fixed now r) as (Hi & _ & _ & Hn & _ & Hst).
    apply (counted_bindings db _ r _ Hcr); auto.
    rewrite Hi. unfold Store.bindings. cbn [room_participants].
    rewrite filter_filter. apply filter_ext_in. intros p Hp.
    destruct (N.eqb (rp_room_id p) (id r)) eqn:E;
      [|now rewrite Bool.andb_false_r].
    rewrite Bool.andb_true_r. apply negb_true_iff.
    apply N.eqb_eq in E. rewrite E.
    destruct (gone (id r)) eqn:G; [|exact G].
    apply existsb_exists in G. destruct G as (x & Hx & G).
    apply andb_prop in G. destruct G as [G1 G2]. apply N.eqb_eq in G1.
    apply in_map_iff in Hx. destruct Hx as (y & <- & Hy).
    rewrite (proj1 (mark_expired_fixed now y)) in G1.
    assert (y = r)
      by (apply (NoDup_key_eq id (rooms db) y r (Store.room_ids _ Hs));
          assumption).
    subst y. congruence.
Qed.

Lemma expireRoom_consistent (i : uuid) :
  Store.consistent (Store.expireRoom i db).
Proof using Hdb.
  destruct Hdb as [Hs Hc]. rewrite expireRoom_rooms.
  set (upd := fun r => if RoomsRls.targeted db i r
                       then RoomsRls.set_expired r else r).
  assert (Hids : map id (map upd (rooms db)) = map id (rooms db)).
  { apply map_map_fixed. intros x. unfold upd.
    now destruct (RoomsRls.targeted db i x). }
  assert (Hcodes : map code (map upd (rooms db)) = map code (rooms db)).
  { apply map_map_fixed. intros x. unfold upd.
    now destruct (RoomsRls.targeted db i x). }
  assert (Hused : forall k,
             room_id_used (mkDb (map upd (rooms db)) (room_participants db)
                                (messages db)) k = room_id_used db k).
  { intros k. now apply room_id_used_ids. }
  constructor.
  - constructor; cbn [rooms room_participants messages].
    + rewrite Hids. apply (Store.room_ids _ Hs).
    + rewrite Hcodes. apply (Store.codes _ Hs).
    + apply (Store.participant_ids _ Hs).
    + apply (Store.tokens _ Hs).
    + apply (Store.slots _ Hs).
    + apply (Store.slot_numbers _ Hs).
    + apply (Store.message_ids _ Hs).
    + eapply Forall_impl; [|apply (Store.participant_rooms _ Hs)].
      intros p Hp. cbv beta. now rewrite Hused.
    + eapply Forall_impl; [|apply (Store.message_rooms _ Hs)].
      intros m Hm. cbv beta. now rewrite Hused.
  - cbn [rooms]. apply Forall_forall. intros r' Hr'.
    apply in_map_iff in Hr'. destruct Hr' as (r & <- & Hr).
    pose proof (proj1 (Forall_forall _ _) Hc r Hr) as Hcr.
    unfold upd. destruct (RoomsRls.targeted db i r).
    + apply (counted_bindings db _ r _ Hcr); auto.
    + apply (counted_bindings db _ r _ Hcr); auto.
Qed.

Lemma insert_message_consistent (m : message) (db' : database) :
  Store.insert_message db m = inr db' -> Store.consistent db'.
Proof using Hdb.
  destruct Hdb as [Hs Hc]. unfold Store.insert_message.
  destruct (64 <? String.length (sender_id m))%nat; [discriminate|].
  destruct (10 <? String.length (message_type m))%nat; [discriminate|].
  destruct (Rls.permitted Rls.policies Rls.INSERT
              (ParticipantsRls.as_client db) None m); [|discriminate].
  cbn [negb].
  destruct (String.eqb (message_type m) "text"
            || String.eqb (message_type m) "image"); [|discriminate].
  cbn [negb].
  destruct (existsb (fun m' => N.eqb (m_id m') (m_id m)) (messages db)) eqn:Hid;
    [discriminate|].
  destruct (room_id_used db (m_room_id m)) eqn:Hfk; [|discriminate].
  cbn [negb]. intros H. injection H as <-.
  constructor.
  - constructor; cbn [rooms room_participants messages].
    + apply (Store.room_ids _ Hs).
    + apply (Store.codes _ Hs).
    + apply (Store.participant_ids _ Hs).
    + apply (Store.tokens _ Hs).
    + apply (Store.slots _ Hs).
    + apply (Store.slot_numbers _ Hs).
    + rewrite map_app. apply NoDup_snoc; [apply (Store.message_ids _ Hs)|].
      now apply (existsb_key_false m_id N.eqb N.eqb_eq).
    + apply (Store.participant_rooms _ Hs).
    + apply Forall_app. split; [apply (Store.message_rooms _ Hs)|].
      constructor; [exact Hfk | constructor].
  - cbn [rooms]. eapply Forall_impl; [|exact Hc].
    intros r Hr. apply (counted_bindings db _ r r Hr); auto.
Qed.

Lemma perform_consistent (op : Store.operation) :
  Store.consistent (Store.perform db op).
Proof using Hdb.
  destruct op as [e req|now|i|m]; cbn [Store.perform].
  - now apply room_operations_consistent.
  - apply cleanup_consistent.
  - apply expireRoom_consistent.
  - destruct (Store.insert_message db m) as [err|db'] eqn:E; [exact Hdb|].
    now apply (insert_message_consistent m).
Qed.
End Maintenance.

Lemma empty_consistent : Store.consistent (Db.mkDb [] [] []).
Proof. repeat constructor. Qed.

Lemma perform_all_consistent (ops : list Store.operation) (db : Db.database) :
  Store.consistent db -> Store.consistent (fold_left Store.perform ops db).
Proof.
  revert db. induction ops as [|op ops IH]; intros db Hdb; [exact Hdb|].
  cbn [fold_left]. apply IH. now apply perform_consistent.
Qed.

Lemma lobby_consistent : Store.consistent Sample.lobby.
Proof.
  exact (perform_all_consistent
           [Store.Invoke Sample.alice (Edge.create_request 30)]
           (Db.mkDb [] [] []) empty_consistent).
Defined.

(** X1. Calls of the edge function, sweeps by [cleanup_expired_rooms],
    [expireRoom] by a client and rows a client inserts into [messages],
    performed one after the other from the empty store in any number and
    order, leave a store in which the keys and foreign keys of the schema
    hold and every room's [participant_count] is the number of its
    bindings, 1 or 2, with 1 for a waiting room and 2 for an active one. *)
Theorem history_consistent (ops : list Store.operation) :
  Store.consistent (Store.history ops).
Proof. apply perform_all_consistent, empty_consistent. Qed.

Lemma refused_call_store
  (e : Edge.env) (req : Edge.request) (db : Db.database) :
  Store.constrained db ->
  Edge.http_status (fst (Edge.room_operations e req db)) <> 200 ->
  snd (Edge.room_operations e req db) = db.
Proof.
  intros Hdb. unfold Edge.room_operations.
  destruct (String.eqb (Edge.action req) "create").
  { destruct (create_outcome e db Hdb req)
      as [[H _] | (d & _ & _ & -> & _)]; [now intros _|].
    cbn. intros H. now elim H. }
  destruct (String.eqb (Edge.action req) "join").
  { destruct (join_outcome e db Hdb req) as [[H _] | (room & _ & -> & _)];
      [now intros _|].
    cbn. intros H. now elim H. }
  destruct (String.eqb (Edge.action req) "get"); [reflexivity|].
  destruct (String.eqb (Edge.action req) "getMessages"); reflexivity.
Qed.

(** X2. A call of the edge function that answers anything but 200 leaves
    the store as it found it. *)
Theorem failed_call_changes_nothing
  (e : Edge.env) (req : Edge.request) (db : Db.database) :
  Store.constrained db ->
  Edge.http_status (fst (Edge.room_operations e req db)) <> 200 ->
  snd (Edge.room_operations e req db) = db.
Proof. apply refused_call_store. Qed.

Lemma failed_call_changes_nothing_witness :
  snd (Edge.room_operations Sample.dave (Edge.create_request 30) Sample.lobby)
  = Sample.lobby.
Proof.
  apply (failed_call_changes_nothing Sample.dave (Edge.create_request 30)
           Sample.lobby);
    [exact (Store.schema _ lobby_consistent) | cbn; lia].
Defined.

Lemma room_operations_rows
  (e : Edge.env) (req : Edge.request) (db : Db.database) :
  Store.constrained db ->
  Db.messages (snd (Edge.room_operations e req db)) = Db.messages db
  /\ (exists added,
        Db.room_participants (snd (Edge.room_operations e req db))
        = Db.room_participants db ++ added
        /\ (List.length added <= 1)%nat)
  /\ (exists added,
        map Store.fixed (Db.rooms (snd (Edge.room_operations e req db)))
        = map Store.fixed (Db.rooms db) ++ added
        /\ (List.length added <= 1)%nat).
Proof.
  intros Hdb.
  assert (Hsame : forall db', db' = db ->
            Db.messages db' = Db.messages db
            /\ (exists added,
                  Db.room_participants db' = Db.room_participants db ++ added
                  /\ (List.length added <= 1)%nat)
            /\ (exists added,
                  map Store.fixed (Db.rooms db')
                  = map Store.fixed (Db.rooms db) ++ added
                  /\ (List.length added <= 1)%nat)).
  { intros db' ->. split; [reflexivity|].
    split; exists []; rewrite app_nil_r; split; auto. }
  unfold Edge.room_operations.
  destruct (String.eqb (Edge.action req) "create").
  { destruct (create_outcome e db Hdb req)
      as [[H _] | (d & _ & _ & -> & _)]; [now apply Hsame|].
    cbn [snd Created.store Db.messages Db.room_participants Db.rooms].
    split; [reflexivity|]. split.
    - exists [Created.creator e]. split; [reflexivity | cbn; lia].
    - exists [Store.fixed (Created.room e d)]. rewrite map_app.
      split; [reflexivity | cbn; lia]. }
  destruct (String.eqb (Edge.action req) "join").
  { destruct (join_outcome e db Hdb req) as [[H _] | (room & _ & -> & _)];
      [now apply Hsame|].
    cbn [snd Race.activated Db.messages Db.room_participants Db.rooms].
    split; [reflexivity|]. split.
    - exists [Race.binding e room]. split; [reflexivity | cbn; lia].
    - exists []. rewrite app_nil_r. split; [|cbn; lia].
      apply map_map_fixed. intros r.
      now destruct (N.eqb (Db.id r) (Db.id room)). }
  destruct (String.eqb (Edge.action req) "get"); [now apply Hsame|].
  destruct (String.eqb (Edge.action req) "getMessages"); now apply Hsame.
Qed.

(** X3. No call of the edge function writes or deletes a message, deletes a
    room or a binding, or rewrites the id, code, duration, creation time or
    expiry of a room: it adds at most one binding and at most one room. *)
Theorem edge_call_keeps_rows
  (e : Edge.env) (req : Edge.request) (db : Db.database) :
  Store.constrained db ->
  Db.messages (snd (Edge.room_operations e req db)) = Db.messages db
  /\ (exists added,
        Db.room_participants (snd (Edge.room_operations e req db))
        = Db.room_participants db ++ added
        /\ (List.length added <= 1)%nat)
  /\ (exists added,
        map Store.fixed (Db.rooms (snd (Edge.room_operations e req db)))
        = map Store.fixed (Db.rooms db) ++ added
        /\ (List.length added <= 1)%nat).
Proof. apply room_operations_rows. Qed.

Lemma edge_call_keeps_rows_witness :
  Db.messages
    (snd (Edge.room_operations Sample.bob (Edge.join_request "abcdef")
            Sample.lobby)) = Db.messages Sample.lobby
  /\ (exists added,
        Db.room_participants
          (snd (Edge.room_operations Sample.bob (Edge.join_request "abcdef")
                  Sample.lobby))
        = Db.room_participants Sample.lobby ++ added
        /\ (List.length added <= 1)%nat)
  /\ (exists added,
        map Store.fixed
          (Db.rooms
             (snd (Edge.room_operations Sample.bob
                     (Edge.join_request "abcdef") Sample.lobby)))
        = map Store.fixed (Db.rooms Sample.lobby) ++ added
        /\ (List.length added <= 1)%nat).
Proof.
  apply (edge_call_keeps_rows Sample.bob (Edge.join_request "abcdef")
           Sample.lobby).
  exact (Store.schema _ lobby_consistent).
Defined.

(** X4. A join answers 200 only for a room of the store that is waiting
    with one participant and a free second slot and whose expiry is not
    before the edge function's clock; the answer then carries the room as
    active with two participants, and the store has the joiner's row and
    the room so updated. *)
Theorem join_success_conditions
  (e : Edge.env) (req : Edge.request) (db : Db.database) :
  Store.consistent db ->
  Edge.http_status (fst (Edge.join e req db)) = 200 ->
  exists room,
    In room (Db.rooms db)
    /\ Db.status room = Db.waiting
    /\ Db.participant_count room = 1
    /\ Db.slot_taken db (Db.id room) 2 = false
    /\ Edge.date_now e <= Db.expires_at room
    /\ Edge.join e req db = (Race.joined e room, Race.activated db room e).
Proof.
  intros Hdb Hok.
  destruct (join_outcome e db (Store.schema db Hdb) req)
    as [[_ H] | (room & Hl & Hj & _ & _ & Hslot)]; [contradiction|].
  destruct (join_lookup_room e db req room Hl) as (Hin & _ & Hlive & Hne & Hfull).
  pose proof (proj1 (Forall_forall _ _) (Store.counts db Hdb) room Hin)
    as [_ _ Hw Ha].
  assert (Hst : Db.status room = Db.waiting).
  { destruct (Db.status room) eqn:St; [reflexivity | | now elim Hne].
    specialize (Hfull eq_refl). specialize (Ha eq_refl). lia. }
  exists room. repeat split; auto.
Qed.

Lemma join_success_conditions_witness :
  exists room,
    In room (Db.rooms Sample.lobby)
    /\ Db.status room = Db.waiting
    /\ Db.participant_count room = 1
    /\ Db.slot_taken Sample.lobby (Db.id room) 2 = false
    /\ Edge.date_now Sample.bob <= Db.expires_at room
    /\ Edge.join Sample.bob (Edge.join_request "abcdef") Sample.lobby
       = (Race.joined Sample.bob room,
          Race.activated Sample.lobby room Sample.bob).
Proof.
  apply (join_success_conditions Sample.bob (Edge.join_request "abcdef")
           Sample.lobby);
    [exact lobby_consistent | reflexivity].
Defined.

(** ** Reading through the edge function *)

Lemma bound_rows (db : Db.database) (p : Db.participant) :
  NoDup (map Db.session_token (Db.room_participants db)) ->
  In p (Db.room_participants db) ->
  Db.select_participants db (Db.rp_room_id p) (Db.session_token p) = [p].
Proof.
  intros Hnd Hin. unfold Db.select_participants.
  rewrite (filter_ext _
             (fun q => String.eqb (Db.session_token q) (Db.session_token p)
                       && N.eqb (Db.rp_room_id q) (Db.rp_room_id p)))
    by (intros q; apply andb_comm).
  rewrite <- filter_filter.
  rewrite (filter_key_unique Db.session_token String.eqb String.eqb_eq)
    by assumption.
  cbn. now rewrite N.eqb_refl.
Qed.

Lemma filled_in (s : string) : s <> ""%string -> Edge.is_empty (Some s) = false.
Proof.
  intros H. cbn. destruct (String.eqb s "") eqn:E; [|reflexivity].
  now apply String.eqb_eq in E.
Qed.

Lemma get_outcomes
  (db : Db.database) (req : Edge.request) (c t : string) :
  Store.constrained db ->
  Edge.req_code req = Some c -> c <> ""%string ->
  Edge.sessionToken req = Some t -> t <> ""%string ->
  (~ In (Edge.toUpperCase c) (map Db.code (Db.rooms db)) ->
   Edge.get req db = Edge.error_response 404 "Room not found")
  /\ (forall room,
        In room (Db.rooms db) -> Db.code room = Edge.toUpperCase c ->
        (forall p, In p (Db.room_participants db) ->
                   Db.rp_room_id p = Db.id room -> Db.session_token p = t ->
                   Edge.get req db
                   = Edge.mkResponse 200
                       (Edge.Found room (Db.participant_number p)))
        /\ (Rls.bound db (Db.id room) t = false ->
            Edge.get req db
            = Edge.error_response 403 "Not authorized to access this room")).
Proof.
  intros Hdb Hc Hce Ht Hte. unfold Edge.get. rewrite Hc, Ht.
  rewrite (filled_in c Hce), (filled_in t Hte). cbn [orb]. split.
  - intros Hno. unfold Db.select_rooms_by_code.
    now rewrite (filter_key_absent Db.code String.eqb String.eqb_eq).
  - intros room Hin Hcode. unfold Db.select_rooms_by_code. rewrite <- Hcode.
    rewrite (filter_key_unique Db.code String.eqb String.eqb_eq)
      by (try assumption; apply (Store.codes db Hdb)).
    cbn [Db.single]. split.
    + intros p Hp Hr <-. rewrite <- Hr.
      now rewrite (bound_rows db p (Store.tokens db Hdb) Hp).
    + intros Hb. now rewrite (unbound_no_rows db _ _ Hb).
Qed.

(** X5. [get] with a code of characters below 128 and a token: 404 when no
    room has the upper-cased code; for the room that has it, 200 with the
    room and the caller's slot when the token is bound to that room, and 403
    when it is not, be it bound to another room or to none. *)
Theorem get_authorization
  (db : Db.database) (req : Edge.request) (c t : string) :
  Store.constrained db ->
  Edge.req_code req = Some c -> c <> ""%string -> Edge.is_ascii c = true ->
  Edge.sessionToken req = Some t -> t <> ""%string ->
  (~ In (Edge.toUpperCase c) (map Db.code (Db.rooms db)) ->
   Edge.get req db = Edge.error_response 404 "Room not found")
  /\ (forall room,
        In room (Db.rooms db) -> Db.code room = Edge.toUpperCase c ->
        (forall p, In p (Db.room_participants db) ->
                   Db.rp_room_id p = Db.id room -> Db.session_token p = t ->
                   Edge.get req db
                   = Edge.mkResponse 200
                       (Edge.Found room (Db.participant_number p)))
        /\ (Rls.bound db (Db.id room) t = false ->
            Edge.get req db
            = Edge.error_response 403 "Not authorized to access this room")).
Proof.
  intros Hdb Hc Hce _ Ht Hte. now apply get_outcomes.
Qed.

Lemma get_authorization_witness :
  Edge.get (Edge.mkRequest "get" None (Some "abcdef"%string) None
              (Some (Edge.generateSessionToken
                       (Edge.random_byte Sample.alice)))
              None None None) Sample.lobby
  = Edge.mkResponse 200 (Edge.Found Sample.lobby_room 1).
Proof.
  destruct (get_authorization Sample.lobby
              (Edge.mkRequest "get" None (Some "abcdef"%string) None
                 (Some (Edge.generateSessionToken
                          (Edge.random_byte Sample.alice)))
                 None None None)
              "abcdef"
              (Edge.generateSessionToken (Edge.random_byte Sample.alice))
              (Store.schema _ lobby_consistent)
              eq_refl ltac:(discriminate) eq_refl
              eq_refl ltac:(vm_compute; discriminate)) as [_ H].
  destruct (H Sample.lobby_room (or_introl eq_refl) eq_refl) as [H1 _].
  exact (H1 (Created.creator Sample.alice) (or_introl eq_refl)
            eq_refl eq_refl).
Defined.

(** ** The sweep of expired rooms *)

Lemma mark_expired_again (t1 t2 : Z) (r : Db.room) :
  t1 <= t2 ->
  Db.mark_expired t2 (Db.mark_expired t1 r) = Db.mark_expired t2 r.
Proof.
  intros Ht. destruct r as [i c d ca ea st n]. unfold Db.mark_expired.
  cbn [Db.expires_at Db.status].
  destruct st; cbn [Db.room_status_eqb negb andb];
    rewrite ?Bool.andb_true_r, ?Bool.andb_false_r; try reflexivity;
    destruct (ea <? t1) eqn:E1; destruct (ea <? t2) eqn:E2;
    cbn [Db.expires_at Db.status Db.room_status_eqb negb andb];
    rewrite ?E2; try reflexivity; lia.
Qed.

Lemma purgeable_later (t1 t2 : Z) (r : Db.room) :
  t1 <= t2 ->
  Db.purgeable t1 (Db.mark_expired t1 r) = true ->
  Db.purgeable t2 (Db.mark_expired t2 r) = true.
Proof.
  intros Ht. destruct r as [i c d ca ea st n].
  unfold Db.purgeable, Db.mark_expired. cbn [Db.expires_at Db.status].
  destruct st; cbn [Db.room_status_eqb negb andb];
    rewrite ?Bool.andb_true_r, ?Bool.andb_false_r;
    destruct (ea <? t1) eqn:E1; destruct (ea <? t2) eqn:E2;
    cbn [Db.expires_at Db.status Db.room_status_eqb negb andb];
    try discriminate; lia.
Qed.

Section Sweeps.
Variables t1 t2 : Z.
Hypothesis Ht : t1 <= t2.

Lemma swept_rooms (R : list Db.room) :
  filter (fun r => negb (Db.purgeable t2 r))
    (map (Db.mark_expired t2)
       (filter (fun r => negb (Db.purgeable t1 r))
          (map (Db.mark_expired t1) R)))
  = filter (fun r => negb (Db.purgeable t2 r)) (map (Db.mark_expired t2) R).
Proof using Ht.
  induction R as [|a R IH]; [reflexivity|]. cbn [map filter].
  destruct (Db.purgeable t1 (Db.mark_expired t1 a)) eqn:P1; cbn [negb].
  - rewrite (purgeable_later t1 t2 a Ht P1). cbn [negb]. exact IH.
  - cbn [map filter]. rewrite (mark_expired_again t1 t2 a Ht).
    destruct (negb (Db.purgeable t2 (Db.mark_expired t2 a)));
      now rewrite IH.
Qed.

Lemma swept_ids (R : list Db.room) (i : Db.uuid) :
  existsb (fun r => N.eqb (Db.id r) i && Db.purgeable t2 r)
    (map (Db.mark_expired t2) R)
  = existsb (fun r => N.eqb (Db.id r) i && Db.purgeable t1 r)
      (map (Db.mark_expired t1) R)
    || existsb (fun r => N.eqb (Db.id r) i && Db.purgeable t2 r)
         (map (Db.mark_expired t2)
            (filter (fun r => negb (Db.purgeable t1 r))
               (map (Db.mark_expired t1) R))).
Proof using Ht.
  induction R as [|a R IH]; [reflexivity|]. cbn [map filter existsb].
  rewrite IH. rewrite !(proj1 (mark_expired_fixed _ a)).
  destruct (Db.purgeable t1 (Db.mark_expired t1 a)) eqn:P1; cbn [negb].
  - rewrite (purgeable_later t1 t2 a Ht P1).
    destruct (N.eqb (Db.id a) i); cbn [andb orb]; [reflexivity|].
    reflexivity.
  - cbn [map existsb]. rewrite (mark_expired_again t1 t2 a Ht).
    rewrite !(proj1 (mark_expired_fixed _ a)).
    destruct (N.eqb (Db.id a) i); cbn [andb orb]; [|reflexivity].
    destruct (Db.purgeable t2 (Db.mark_expired t2 a)); cbn [orb];
      [now rewrite Bool.orb_true_r | reflexivity].
Qed.

Lemma swept_rows {A} (key : A -> Db.uuid) (l : list A) (R : list Db.room) :
  filter
    (fun x =>
       negb (existsb (fun r => N.eqb (Db.id r) (key x) && Db.purgeable t2 r)
               (map (Db.mark_expired t2)
                  (filter (fun r => negb (Db.purgeable t1 r))
                     (map (Db.mark_expired t1) R)))))
    (filter
       (fun x =>
          negb (existsb
                  (fun r => N.eqb (Db.id r) (key x) && Db.purgeable t1 r)
                  (map (Db.mark_expired t1) R))) l)
  = filter
      (fun x =>
         negb (existsb (fun r => N.eqb (Db.id r) (key x) && Db.purgeable t2 r)
                 (map (Db.mark_expired t2) R))) l.
Proof using Ht.
  rewrite filter_filter. apply filter_ext. intros x.
  rewrite (swept_ids R (key x)). now rewrite Bool.negb_orb.
Qed.
End Sweeps.

(** X7. A sweep by [cleanup_expired_rooms] absorbs every earlier one: a
    sweep at [t1] followed by a sweep at a later time [t2] leaves the store
    the sweep at [t2] alone leaves; in particular a sweep repeated at the
    same time changes nothing more. *)
Theorem cleanup_later_absorbs (t1 t2 : Z) (db : Db.database) :
  t1 <= t2 ->
  Db.cleanup_expired_rooms t2 (Db.cleanup_expired_rooms t1 db)
  = Db.cleanup_expired_rooms t2 db.
Proof.
  intros Ht. unfold Db.cleanup_expired_rooms.
  cbn [Db.rooms Db.room_participants Db.messages]. f_equal.
  - apply swept_rooms, Ht.
  - apply (swept_rows t1 t2 Ht Db.rp_room_id).
  - apply (swept_rows t1 t2 Ht Db.m_room_id).
Qed.

Lemma cleanup_later_absorbs_witness :
  Db.cleanup_expired_rooms 5401001 (Db.cleanup_expired_rooms 1801001 Sample.lobby)
  = Db.cleanup_expired_rooms 5401001 Sample.lobby.
Proof. apply (cleanup_later_absorbs 1801001 5401001 Sample.lobby). lia. Defined.

Lemma purgeable_spec (now : Z) (r : Db.room) :
  Db.purgeable now (Db.mark_expired now r) = true
  <-> Db.expires_at r < now - 3600000.
Proof.
  destruct r as [i c d ca ea st n].
  unfold Db.purgeable, Db.mark_expired. cbn [Db.expires_at Db.status].
  destruct st; cbn [Db.room_status_eqb negb andb];
    rewrite ?Bool.andb_true_r, ?Bool.andb_false_r;
    destruct (ea <? now) eqn:E1;
    cbn [Db.expires_at Db.status Db.room_status_eqb negb andb];
    split; intros H; try lia; try discriminate.
Qed.

Lemma swept_id (now : Z) (db : Db.database) (r : Db.room) :
  NoDup (map Db.id (Db.rooms db)) -> In r (Db.rooms db) ->
  existsb (fun x => N.eqb (Db.id x) (Db.id r) && Db.purgeable now x)
    (map (Db.mark_expired now) (Db.rooms db))
  = Db.purgeable now (Db.mark_expired now r).
Proof.
  intros Hnd Hr.
  destruct (Db.purgeable now (Db.mark_expired now r)) eqn:P.
  - apply existsb_exists. exists (Db.mark_expired now r).
    split; [now apply in_map|].
    now rewrite P, (proj1 (mark_expired_fixed now r)), N.eqb_refl.
  - destruct (existsb _ _) eqn:G; [|reflexivity].
    apply existsb_exists in G. destruct G as (x & Hx & G).
    apply andb_prop in G. destruct G as [G1 G2]. apply N.eqb_eq in G1.
    apply in_map_iff in Hx. destruct Hx as (y & <- & Hy).
    rewrite (proj1 (mark_expired_fixed now y)) in G1.
    assert (y = r) by (apply (NoDup_key_eq Db.id (Db.rooms db) y r Hnd);
                       assumption).
    subst y. congruence.
Qed.

Lemma swept_rows_of (now : Z) (db : Db.database) (r : Db.room)
  {A} (key : A -> Db.uuid) (l : list A) :
  NoDup (map Db.id (Db.rooms db)) -> In r (Db.rooms db) ->
  filter (fun x => N.eqb (key x) (Db.id r))
    (filter
       (fun x =>
          negb (existsb
                  (fun y => N.eqb (Db.id y) (key x) && Db.purgeable now y)
                  (map (Db.mark_expired now) (Db.rooms db)))) l)
  = if Db.purgeable now (Db.mark_expired now r) then []
    else filter (fun x => N.eqb (key x) (Db.id r)) l.
Proof.
  intros Hnd Hr. rewrite filter_filter.
  pose proof (swept_id now db r Hnd Hr) as Hg.
  destruct (Db.purgeable now (Db.mark_expired now r)).
  - apply filter_none. destruct (existsb _ l) eqn:E; [|reflexivity].
    apply existsb_exists in E. destruct E as (x & _ & E).
    apply andb_prop in E. destruct E as [E1 E2]. apply N.eqb_eq in E2.
    rewrite E2, Hg in E1. discriminate.
  - apply filter_ext. intros x.
    destruct (N.eqb (key x) (Db.id r)) eqn:E;
      [|now rewrite Bool.andb_false_r].
    apply N.eqb_eq in E. now rewrite E, Hg.
Qed.

(** X8. A sweep keeps every room whose expiry is less than an hour behind
    the database clock, with the bindings and the messages it had; of the
    room's columns only [status] can change, to [expired] when the expiry is
    behind the clock. *)
Theorem cleanup_keeps_recent_rooms
  (now : Z) (db : Db.database) (r : Db.room) :
  Store.constrained db -> In r (Db.rooms db) ->
  now - 3600000 <= Db.expires_at r ->
  In (Db.mark_expired now r) (Db.rooms (Db.cleanup_expired_rooms now db))
  /\ Store.fixed (Db.mark_expired now r) = Store.fixed r
  /\ Db.participant_count (Db.mark_expired now r) = Db.participant_count r
  /\ (now <= Db.expires_at r -> Db.mark_expired now r = r)
  /\ (Db.expires_at r < now ->
      Db.status (Db.mark_expired now r) = Db.expired)
  /\ Store.bindings (Db.cleanup_expired_rooms now db) (Db.id r)
     = Store.bindings db (Db.id r)
  /\ Db.select_messages (Db.cleanup_expired_rooms now db) (Db.id r)
     = Db.select_messages db (Db.id r).
Proof.
  intros Hdb Hr Hrecent.
  assert (P : Db.purgeable now (Db.mark_expired now r) = false).
  { destruct (Db.purgeable now (Db.mark_expired now r)) eqn:P;
      [|reflexivity].
    apply purgeable_spec in P. lia. }
  split.
  { cbn. apply filter_In. split; [now apply in_map | now rewrite P]. }
  split. { apply mark_expired_fixed. }
  split. { apply mark_expired_fixed. }
  split.
  { intros H. unfold Db.mark_expired.
    destruct (Db.expires_at r <? now) eqn:E; [lia | reflexivity]. }
  split.
  { intros H. unfold Db.mark_expired.
    destruct (Db.expires_at r <? now) eqn:E; [|lia].
    destruct (Db.status r) eqn:S; cbn; try reflexivity; exact S. }
  split.
  - unfold Store.bindings, Db.cleanup_expired_rooms.
    cbn [Db.room_participants].
    rewrite (swept_rows_of now db r Db.rp_room_id _
               (Store.room_ids db Hdb) Hr).
    now rewrite P.
  - unfold Db.select_messages, Db.cleanup_expired_rooms. cbn [Db.messages].
    rewrite (swept_rows_of now db r Db.m_room_id _
               (Store.room_ids db Hdb) Hr).
    now rewrite P.
Qed.

Lemma cleanup_keeps_recent_rooms_witness :
  In (Db.mark_expired 1801001 Sample.lobby_room)
     (Db.rooms (Db.cleanup_expired_rooms 1801001 Sample.lobby))
  /\ Db.status (Db.mark_expired 1801001 Sample.lobby_room) = Db.expired.
Proof.
  destruct (cleanup_keeps_recent_rooms 1801001 Sample.lobby Sample.lobby_room
              (Store.schema _ lobby_consistent) (or_introl eq_refl)
              ltac:(cbn; lia)) as (H1 & _ & _ & _ & H2 & _).
  split; [exact H1 | apply H2; cbn; lia].
Defined.

(** X9. A sweep deletes every room whose expiry is more than an hour behind
    the database clock, whatever its status was, and with it its bindings
    and its messages: afterwards no room has its id or its code. *)
Theorem cleanup_purges_old_rooms
  (now : Z) (db : Db.database) (r : Db.room) :
  Store.constrained db -> In r (Db.rooms db) ->
  Db.expires_at r < now - 3600000 ->
  ~ In (Db.id r) (map Db.id (Db.rooms (Db.cleanup_expired_rooms now db)))
  /\ ~ In (Db.code r)
          (map Db.code (Db.rooms (Db.cleanup_expired_rooms now db)))
  /\ Store.bindings (Db.cleanup_expired_rooms now db) (Db.id r) = []
  /\ Db.select_messages (Db.cleanup_expired_rooms now db) (Db.id r) = [].
Proof.
  intros Hdb Hr Hold.
  assert (P : Db.purgeable now (Db.mark_expired now r) = true)
    by now apply purgeable_spec.
  assert (Hgone : forall x,
            In x (Db.rooms (Db.cleanup_expired_rooms now db)) ->
            forall y, In y (Db.rooms db) -> x = Db.mark_expired now y ->
                      y <> r).
  { intros x Hx y Hy -> ->. cbn in Hx. apply filter_In in Hx.
    rewrite P in Hx. now destruct Hx. }
  split; [|split; [|split]].
  - intros Hin. apply in_map_iff in Hin. destruct Hin as (x & Hid & Hx).
    pose proof Hx as Hx'. cbn in Hx'. apply filter_In in Hx'.
    destruct Hx' as [Hm _]. apply in_map_iff in Hm.
    destruct Hm as (y & <- & Hy).
    apply (Hgone _ Hx y Hy eq_refl).
    rewrite (proj1 (mark_expired_fixed now y)) in Hid.
    now apply (NoDup_key_eq Db.id (Db.rooms db) y r (Store.room_ids db Hdb)).
  - intros Hin. apply in_map_iff in Hin. destruct Hin as (x & Hid & Hx).
    pose proof Hx as Hx'. cbn in Hx'. apply filter_In in Hx'.
    destruct Hx' as [Hm _]. apply in_map_iff in Hm.
    destruct Hm as (y & <- & Hy).
    apply (Hgone _ Hx y Hy eq_refl).
    rewrite (proj1 (proj2 (mark_expired_fixed now y))) in Hid.
    now apply (NoDup_key_eq Db.code (Db.rooms db) y r (Store.codes db Hdb)).
  - unfold Store.bindings, Db.cleanup_expired_rooms.
    cbn [Db.room_participants].
    rewrite (swept_rows_of now db r Db.rp_room_id _
               (Store.room_ids db Hdb) Hr).
    now rewrite P.
  - unfold Db.select_messages, Db.cleanup_expired_rooms. cbn [Db.messages].
    rewrite (swept_rows_of now db r Db.m_room_id _
               (Store.room_ids db Hdb) Hr).
    now rewrite P.
Qed.

Lemma cleanup_purges_old_rooms_witness :
  Store.bindings (Db.cleanup_expired_rooms 5401001 Sample.lobby) 7%N = []
  /\ ~ In "ABCDEF"%string
          (map Db.code (Db.rooms (Db.cleanup_expired_rooms 5401001 Sample.lobby))).
Proof.
  destruct (cleanup_purges_old_rooms 5401001 Sample.lobby Sample.lobby_room
              (Store.schema _ lobby_consistent) (or_introl eq_refl)
              ltac:(cbn; lia)) as (_ & H2 & H3 & _).
  split; [exact H3 | exact H2].
Defined.

(** ** What a client can do to the tables itself *)

Lemma targets_nothing (db : Db.database) (i : Db.uuid) (r : Db.room) :
  RoomsRls.targeted db i r = false.
Proof.
  unfold RoomsRls.targeted. rewrite may_read_spec.
  now rewrite Bool.andb_false_r.
Qed.

Lemma expireRoom_nothing (i : Db.uuid) (db : Db.database) :
  Store.expireRoom i db = db.
Proof.
  rewrite expireRoom_rooms.
  rewrite (map_ext _ (fun r => r)) by (intros r; now rewrite targets_nothing).
  rewrite map_id. now destruct db.
Qed.

Lemma insert_message_never (db db' : Db.database) (m : Db.message) :
  Store.insert_message db m <> inr db'.
Proof.
  unfold Store.insert_message.
  replace (Rls.permitted Rls.policies Rls.INSERT
             (ParticipantsRls.as_client db) None m) with false.
  - destruct (64 <? String.length (Db.sender_id m))%nat; [discriminate|].
    destruct (10 <? String.length (Db.message_type m))%nat; discriminate.
  - rewrite policies_in_force. cbn.
    unfold Rls.bound. cbn. now rewrite client_sees_no_participant.
Qed.

(** X10. A client reads no row of [rooms] itself, [expireRoom] of
    [lib/room.ts] changes no row, whatever the room and its state, and
    [subscribeToRoom] is never called back: the [SELECT] policy on [rooms]
    asks for a row of [room_participants], a table on which the migrations
    leave the client no [SELECT] policy, and an [UPDATE] reaches only rows
    the client can read. *)
Theorem client_cannot_reach_rooms (db : Db.database) (i : Db.uuid) :
  RoomsRls.select_rooms db = []
  /\ Store.expireRoom i db = db
  /\ forall updated, RoomsRls.subscribeToRoom db i updated = [].
Proof.
  split; [|split; [apply expireRoom_nothing|]].
  - unfold RoomsRls.select_rooms. apply filter_none.
    induction (Db.rooms db) as [|r l IH]; [reflexivity|].
    cbn [existsb]. now rewrite may_read_spec.
  - intros updated. unfold RoomsRls.subscribeToRoom. apply filter_none.
    induction updated as [|r l IH]; [reflexivity|].
    cbn [existsb]. now rewrite may_read_spec, Bool.andb_false_r.
Qed.

(** X11. A row a client inserts into [messages] itself is refused, whatever
    the row: where no constraint of the table refuses it, the [INSERT]
    policy does, since its sub-select on [room_participants] finds no row
    on behalf of the client. *)
Theorem direct_insert_refused (db : Db.database) (m : Db.message) :
  exists why, Store.insert_message db m = inl why.
Proof.
  destruct (Store.insert_message db m) as [why|db'] eqn:E.
  - now exists why.
  - now elim (insert_message_never db db' m).
Qed.

Lemma perform_messages (db : Db.database) (op : Store.operation) :
  Store.constrained db -> Db.messages db = [] ->
  Db.messages (Store.perform db op) = [].
Proof.
  intros Hdb Hm. destruct op as [e req|now|i|m]; cbn [Store.perform].
  - now rewrite (proj1 (room_operations_rows e req db Hdb)).
  - cbn. now rewrite Hm.
  - now rewrite expireRoom_nothing.
  - destruct (Store.insert_message db m) as [why|db'] eqn:E; [exact Hm|].
    now elim (insert_message_never db db' m).
Qed.

Lemma history_messages (ops : list Store.operation) :
  Db.messages (Store.history ops) = [].
Proof.
  unfold Store.history.
  assert (H : forall db, Store.consistent db -> Db.messages db = [] ->
                         Db.messages (fold_left Store.perform ops db) = []).
  { induction ops as [|op ops IH]; intros db Hdb Hm; [exact Hm|].
    cbn [fold_left]. apply IH.
    - now apply perform_consistent.
    - apply perform_messages; [apply (Store.schema db Hdb) | exact Hm]. }
  apply H; [apply empty_consistent | reflexivity].
Qed.

(** X12. No message is ever stored: after any number of calls of the edge
    function, sweeps, and updates and inserts by clients, in any order from
    the empty store, the table [messages] is empty. The edge function has
    no branch that writes one and the policies refuse the client's own
    insert. *)
Theorem no_message_is_ever_stored (ops : list Store.operation) :
  Db.messages (Store.history ops) = [].
Proof. apply history_messages. Qed.




(** X6. [getMessages] answers 200 to a token bound to the room named in the
    request; in every store the operations build, the list it carries is
    empty. *)
Theorem getMessages_bound_token
  (ops : list Store.operation) (req : Edge.request) (p : Db.participant) :
  In p (Db.room_participants (Store.history ops)) ->
  Db.session_token p <> ""%string ->
  Edge.roomId req = Some (Db.rp_room_id p) ->
  Edge.sessionToken req = Some (Db.session_token p) ->
  Edge.getMessages req (Store.history ops)
  = Edge.mkResponse 200 (Edge.Messages []).
Proof.
  intros Hp Hne Hr Ht. unfold Edge.getMessages.
  rewrite Hr, Ht, (filled_in _ Hne).
  pose proof (perform_all_consistent ops _ empty_consistent) as Hc.
  fold (Store.history ops) in Hc.
  rewrite (bound_rows (Store.history ops) p
             (Store.tokens _ (Store.schema _ Hc)) Hp).
  unfold Db.select_messages. now rewrite history_messages.
Qed.

Lemma getMessages_bound_token_witness :
  Edge.getMessages
    (Edge.mkRequest "getMessages" None None (Some 7%N)
       (Some (Edge.generateSessionToken (Edge.random_byte Sample.alice)))
       None None None)
    (Store.history [Store.Invoke Sample.alice (Edge.create_request 30);
                    Store.Invoke Sample.bob (Edge.join_request "abcdef")])
  = Edge.mkResponse 200 (Edge.Messages []).
Proof.
  apply (getMessages_bound_token
           [Store.Invoke Sample.alice (Edge.create_request 30);
            Store.Invoke Sample.bob (Edge.join_request "abcdef")]
           (Edge.mkRequest "getMessages" None None (Some 7%N)
              (Some (Edge.generateSessionToken
                       (Edge.random_byte Sample.alice)))
              None None None)
           (Created.creator Sample.alice));
    [now left | vm_compute; discriminate | reflexivity | reflexivity].
Defined.

(** ** Codes and tokens *)

Lemma alphabet_char (i : nat) :
  (i < 32)%nat ->
  exists c,
    Edge.charAt Edge.chars i = String c EmptyString
    /\ In c (list_ascii_of_string Edge.chars)
    /\ ~ In c (list_ascii_of_string "0O1I")
    /\ Edge.upper_ascii c = c
    /\ JoinRoomPage.allowed (Z.of_nat (nat_of_ascii c)) = true.
Proof.
  intros Hi.
  do 32 (destruct i as [|i];
         [eexists; split; [reflexivity|];
          split; [cbn; tauto|];
          split; [cbn; intuition discriminate|];
          split; reflexivity|]).
  lia.
Qed.

Lemma generateRoomCode_loop_shape (draw : nat -> nat) (n i : nat) :
  Forall (fun c => In c (list_ascii_of_string Edge.chars)
                   /\ ~ In c (list_ascii_of_string "0O1I"))
         (list_ascii_of_string (Edge.generateRoomCode_loop draw i n))
  /\ Edge.toUpperCase (Edge.generateRoomCode_loop draw i n)
     = Edge.generateRoomCode_loop draw i n
  /\ filter JoinRoomPage.allowed
       (Js.literal (Edge.generateRoomCode_loop draw i n))
     = Js.literal (Edge.generateRoomCode_loop draw i n).
Proof.
  revert i. induction n as [|n IH]; intros i.
  { repeat split. constructor. }
  change (Edge.generateRoomCode_loop draw i (S n))
    with (Edge.charAt Edge.chars (draw i mod String.length Edge.chars)%nat
          ++ Edge.generateRoomCode_loop draw (S i) n)%string.
  destruct (alphabet_char (draw i mod String.length Edge.chars)%nat)
    as (c & -> & Hin & Hout & Hup & Hok).
  { apply Nat.mod_upper_bound. discriminate. }
  destruct (IH (S i)) as (IH1 & IH2 & IH3).
  cbn [append list_ascii_of_string Edge.toUpperCase].
  split; [|split].
  - constructor; [now split | exact IH1].
  - now rewrite Hup, IH2.
  - unfold Js.literal in *. cbn [list_ascii_of_string map filter].
    now rewrite Hok, IH3.
Qed.

(** X13. A generated room code has six characters, each from the alphabet
    [ABCDEFGHJKLMNPQRSTUVWXYZ23456789] and so none of [0], [O], [1] and [I];
    the upper-casing of [joinRoom] and of the join handler leaves it as it
    is, and so does the filter [[A-Z0-9]] of the join page. *)
Theorem generated_code_shape (draw : nat -> nat) :
  String.length (Edge.generateRoomCode draw) = 6%nat
  /\ Forall (fun c => In c (list_ascii_of_string Edge.chars)
                      /\ ~ In c (list_ascii_of_string "0O1I"))
            (list_ascii_of_string (Edge.generateRoomCode draw))
  /\ Edge.toUpperCase (Edge.generateRoomCode draw) = Edge.generateRoomCode draw
  /\ filter JoinRoomPage.allowed (Js.literal (Edge.generateRoomCode draw))
     = Js.literal (Edge.generateRoomCode draw).
Proof.
  split; [apply generateRoomCode_length|].
  apply generateRoomCode_loop_shape.
Qed.

Lemma string_append_empty (s : string) : (s ++ "")%string = s.
Proof. induction s as [|c s IH]; cbn; [reflexivity | now rewrite IH]. Qed.

Lemma concat_cons (x : string) (xs : list string) :
  String.concat "" (x :: xs) = (x ++ String.concat "" xs)%string.
Proof.
  destruct xs as [|y ys]; cbn; [now rewrite string_append_empty | reflexivity].
Qed.

Lemma hex_digit_inj (a b : N) :
  (a < 16)%N -> (b < 16)%N -> Edge.hex_digit a = Edge.hex_digit b -> a = b.
Proof.
  intros Ha Hb. unfold Edge.hex_digit.
  assert (Hx : (N.to_nat a < 16)%nat) by lia.
  assert (Hy : (N.to_nat b < 16)%nat) by lia.
  intros E. apply N2Nat.inj. revert Hx Hy E.
  generalize (N.to_nat a) (N.to_nat b). intros x y Hx Hy.
  do 16 (destruct x as [|x];
         [do 16 (destruct y as [|y];
                 [cbn; intros E; first [reflexivity | discriminate]|]);
          lia|]).
  lia.
Qed.

Lemma hex_digit_lower (a : N) :
  (a < 16)%N ->
  In (Edge.hex_digit a) (list_ascii_of_string "0123456789abcdef").
Proof.
  intros Ha. unfold Edge.hex_digit.
  assert (Hx : (N.to_nat a < 16)%nat) by lia. revert Hx.
  generalize (N.to_nat a). intros x Hx.
  do 16 (destruct x as [|x]; [cbn; tauto|]). lia.
Qed.

Lemma byte_below_256 (b : Byte.byte) : (Byte.to_N b < 256)%N.
Proof. destruct b; reflexivity. Qed.

Lemma hex_byte_inj (b1 b2 : Byte.byte) :
  Edge.hex_byte b1 = Edge.hex_byte b2 -> b1 = b2.
Proof.
  unfold Edge.hex_byte. intros E. injection E as E1 E2.
  pose proof (byte_below_256 b1) as H1. pose proof (byte_below_256 b2) as H2.
  apply hex_digit_inj in E1; [|lia|lia].
  apply hex_digit_inj in E2; [|lia|lia].
  assert (E : Byte.to_N b1 = Byte.to_N b2) by lia.
  pose proof (Byte.of_to_N b1) as F1. pose proof (Byte.of_to_N b2) as F2.
  rewrite E in F1. congruence.
Qed.

Lemma hex_byte_eq (b : Byte.byte) :
  Edge.hex_byte b
  = String (Edge.hex_digit (Byte.to_N b / 16))
      (String (Edge.hex_digit (Byte.to_N b mod 16)) EmptyString).
Proof. reflexivity. Qed.

Lemma token_loop_shape (f g : nat -> Byte.byte) (l : list nat) :
  String.length (String.concat "" (map (fun i => Edge.hex_byte (f i)) l))
  = (2 * List.length l)%nat
  /\ Forall (fun c => In c (list_ascii_of_string "0123456789abcdef"))
       (list_ascii_of_string
          (String.concat "" (map (fun i => Edge.hex_byte (f i)) l)))
  /\ (String.concat "" (map (fun i => Edge.hex_byte (f i)) l)
      = String.concat "" (map (fun i => Edge.hex_byte (g i)) l) ->
      forall i, In i l -> f i = g i).
Proof.
  induction l as [|a l (IH1 & IH2 & IH3)].
  { repeat split; [constructor | intros _ i []]. }
  cbn [map]. rewrite !concat_cons.
  pose proof (byte_below_256 (f a)) as Ha.
  rewrite (hex_byte_eq (f a)), (hex_byte_eq (g a)).
  cbn [append String.length list_ascii_of_string].
  split; [|split].
  - rewrite IH1. cbn [List.length]. lia.
  - constructor; [apply hex_digit_lower; lia|].
    constructor; [apply hex_digit_lower; lia | exact IH2].
  - intros E. injection E as E1 E2 E3. intros i [Hi|Hi]; [subst i|now apply IH3].
    apply hex_byte_inj. rewrite (hex_byte_eq (f a)), (hex_byte_eq (g a)).
    now rewrite E1, E2.
Qed.

Lemma generateSessionToken_length (bytes : nat -> Byte.byte) :
  String.length (Edge.generateSessionToken bytes) = 64%nat.
Proof. apply (token_loop_shape bytes bytes (seq 0 32)). Qed.

(** X14. A session token is 64 characters of [0-9a-f], two for each of the
    32 random bytes in their order, and no two byte sequences give the same
    token. *)
Theorem generated_token_shape (bytes : nat -> Byte.byte) :
  String.length (Edge.generateSessionToken bytes) = 64%nat
  /\ Forall (fun c => In c (list_ascii_of_string "0123456789abcdef"))
       (list_ascii_of_string (Edge.generateSessionToken bytes))
  /\ forall bytes',
       Edge.generateSessionToken bytes = Edge.generateSessionToken bytes' ->
       forall i, (i < 32)%nat -> bytes i = bytes' i.
Proof.
  split; [apply generateSessionToken_length|].
  split; [apply (token_loop_shape bytes bytes (seq 0 32))|].
  intros bytes' E i Hi.
  apply (proj2 (proj2 (token_loop_shape bytes bytes' (seq 0 32))) E).
  apply in_seq. lia.
Qed.

(** ** The client library *)

Lemma getItem_setItem (k v : string) (s : Client.storage) :
  Client.getItem k (Client.setItem k v s) = Some v.
Proof.
  unfold Client.getItem, Client.setItem.
  destruct (existsb (fun kv => String.eqb (fst kv) k) s) eqn:E.
  - induction s as [|[k' v'] s IH]; [discriminate|]. cbn in *.
    destruct (String.eqb k' k) eqn:K; cbn.
    + now rewrite String.eqb_refl.
    + rewrite K. apply IH. exact E.
  - induction s as [|[k' v'] s IH]; cbn in *.
    + now rewrite String.eqb_refl.
    + destruct (String.eqb k' k) eqn:K; [discriminate|]. apply IH. exact E.
Qed.

Lemma getItem_setItem_other (k k' v : string) (s : Client.storage) :
  k <> k' -> Client.getItem k (Client.setItem k' v s) = Client.getItem k s.
Proof.
  intros Hk.
  assert (Hk' : String.eqb k' k = false)
    by (apply String.eqb_neq; congruence).
  unfold Client.getItem, Client.setItem.
  destruct (existsb (fun kv => String.eqb (fst kv) k') s) eqn:E.
  - clear E. induction s as [|[a b] s IH]; [reflexivity|]. cbn [map find fst].
    destruct (String.eqb a k') eqn:K; cbn [fst].
    + apply String.eqb_eq in K. subst a. rewrite !Hk'. exact IH.
    + destruct (String.eqb a k); [reflexivity | exact IH].
  - clear E. induction s as [|[a b] s IH]; cbn [app find fst].
    + now rewrite Hk'.
    + destruct (String.eqb a k); [reflexivity | exact IH].
Qed.

Lemma getItem_removeItem (k : string) (s : Client.storage) :
  Client.getItem k (Client.removeItem k s) = None.
Proof.
  unfold Client.getItem, Client.removeItem.
  induction s as [|[a b] s IH]; [reflexivity|]. cbn.
  destruct (String.eqb a k) eqn:K; cbn; [exact IH|]. now rewrite K.
Qed.

Lemma getItem_removeItem_other (k k' : string) (s : Client.storage) :
  k <> k' ->
  Client.getItem k (Client.removeItem k' s) = Client.getItem k s.
Proof.
  intros Hk. unfold Client.getItem, Client.removeItem.
  induction s as [|[a b] s IH]; [reflexivity|]. cbn.
  destruct (String.eqb a k') eqn:K; cbn.
  - apply String.eqb_eq in K. subst a.
    destruct (String.eqb k' k) eqn:K'; [|exact IH].
    apply String.eqb_eq in K'. now elim Hk.
  - destruct (String.eqb a k); [reflexivity | exact IH].
Qed.

Lemma cleared_session (s : Client.storage) :
  Client.getSessionToken (Client.clearSession s) = None
  /\ Client.getStoredRoomCode (Client.clearSession s) = None.
Proof.
  unfold Client.getSessionToken, Client.getStoredRoomCode, Client.clearSession.
  split.
  - rewrite getItem_removeItem_other by discriminate.
    apply getItem_removeItem.
  - apply getItem_removeItem.
Qed.

Lemma stored_session (t c : string) (s : Client.storage) :
  Client.getSessionToken
    (Client.setStoredRoomCode c (Client.setSessionToken t s)) = Some t
  /\ Client.getStoredRoomCode
       (Client.setStoredRoomCode c (Client.setSessionToken t s)) = Some c.
Proof.
  unfold Client.getSessionToken, Client.getStoredRoomCode,
    Client.setStoredRoomCode, Client.setSessionToken.
  split.
  - rewrite getItem_setItem_other by discriminate. apply getItem_setItem.
  - apply getItem_setItem.
Qed.

Lemma world_eta (w : Client.world) :
  Client.mkWorld (Client.session w) (Client.store w) = w.
Proof. now destruct w. Qed.

Lemma invoke_refused (e : Edge.env) (req : Edge.request) (db : Db.database) :
  Store.constrained db ->
  Edge.http_status (fst (Edge.room_operations e req db)) <> 200 ->
  Edge.room_operations e req db
  = (fst (Edge.room_operations e req db), db).
Proof.
  intros Hdb Hst. rewrite <- (refused_call_store e req db Hdb Hst) at 3.
  now destruct (Edge.room_operations e req db).
Qed.

Lemma token_truthy (bytes : nat -> Byte.byte) :
  Client.truthy (Some (Edge.generateSessionToken bytes)) = true.
Proof.
  cbn. destruct (String.eqb (Edge.generateSessionToken bytes) "") eqn:E;
    [|reflexivity].
  apply String.eqb_eq in E.
  pose proof (generateSessionToken_length bytes) as H. rewrite E in H.
  discriminate.
Qed.

Lemma getRoomByCode_bound
  (e : Edge.env) (c : string) (w : Client.world)
  (room : Db.room) (p : Db.participant) :
  Store.constrained (Client.store w) ->
  In room (Db.rooms (Client.store w)) ->
  In p (Db.room_participants (Client.store w)) ->
  Db.rp_room_id p = Db.id room ->
  Client.getSessionToken (Client.session w) = Some (Db.session_token p) ->
  Db.session_token p <> ""%string ->
  Db.code room = Edge.toUpperCase c -> c <> ""%string ->
  Client.getRoomByCode e c w = (Some room, w).
Proof.
  intros Hdb Hroom Hp Hpr Htok Hne Hcode Hc.
  unfold Client.getRoomByCode. rewrite Htok.
  assert (Ht : Client.truthy (Some (Db.session_token p)) = true).
  { cbn. destruct (String.eqb (Db.session_token p) "") eqn:E; [|reflexivity].
    now apply String.eqb_eq in E. }
  rewrite Ht. cbn [Client.to_string]. unfold Client.invoke.
  unfold Edge.room_operations. cbn [Edge.action String.eqb Ascii.eqb Bool.eqb].
  assert (Hup : Edge.toUpperCase c <> ""%string).
  { destruct c; [now elim Hc | discriminate]. }
  destruct (get_outcomes (Client.store w)
              (Edge.mkRequest "get" None (Some (Edge.toUpperCase c)) None
                 (Some (Db.session_token p)) None None None)
              (Edge.toUpperCase c) (Db.session_token p) Hdb eq_refl Hup
              eq_refl Hne) as [_ H].
  assert (Hcode' : Db.code room = Edge.toUpperCase (Edge.toUpperCase c)).
  { rewrite Hcode. clear. induction c as [|a c IH]; [reflexivity|].
    cbn [Edge.toUpperCase]. rewrite <- IH. f_equal.
    unfold Edge.upper_ascii.
    destruct ((97 <=? nat_of_ascii a)%nat && (nat_of_ascii a <=? 122)%nat)
      eqn:E; [|now rewrite E].
    rewrite nat_ascii_embedding by lia.
    replace ((97 <=? nat_of_ascii a - 32)%nat
             && (nat_of_ascii a - 32 <=? 122)%nat) with false by lia.
    reflexivity. }
  destruct (H room Hroom Hcode') as [Hfound _].
  rewrite (Hfound p Hp Hpr eq_refl). cbn. now rewrite world_eta.
Qed.

Lemma join_lookup_status
  (e : Edge.env) (req : Edge.request) (db : Db.database) (r : Edge.response) :
  Edge.join_lookup e req db = inl r -> 400 <= Edge.http_status r.
Proof.
  unfold Edge.join_lookup.
  destruct (Edge.req_code req) as [c|];
    [|intros H; injection H as <-; cbn; lia].
  destruct (negb (String.length c =? 6)%nat);
    [intros H; injection H as <-; cbn; lia|].
  destruct (Db.maybeSingle _) as [err|[room|]];
    [intros H; injection H as <-; cbn; lia| |
     intros H; injection H as <-; cbn; lia].
  destruct (Db.expires_at room <? Edge.date_now e);
    [intros H; injection H as <-; cbn; lia|].
  destruct (Db.room_status_eqb (Db.status room) Db.expired);
    [intros H; injection H as <-; cbn; lia|].
  destruct (Db.room_status_eqb (Db.status room) Db.active
            && (Db.participant_count room >=? 2));
    [intros H; injection H as <-; cbn; lia | discriminate].
Qed.

Lemma answer_status (e : Edge.env) (req : Edge.request) (db : Db.database) :
  Edge.http_status (fst (Edge.room_operations e req db)) = 200
  \/ 400 <= Edge.http_status (fst (Edge.room_operations e req db)).
Proof.
  unfold Edge.room_operations.
  destruct (String.eqb (Edge.action req) "create").
  { unfold Edge.create.
    destruct (Edge.invalid_duration _); [right; cbn; lia|]. cbv zeta.
    destruct (Db.insert_room _ _) as [err|db1]; [right; cbn; lia|].
    destruct (Db.insert_participant _ _) as [err|db2];
      [right; cbn; lia | left; reflexivity]. }
  destruct (String.eqb (Edge.action req) "join").
  { unfold Edge.join.
    destruct (Edge.join_lookup e req db) as [r|room] eqn:L.
    { right. apply (join_lookup_status e req db r L). }
    unfold Edge.join_register.
    destruct (Db.insert_participant _ _) as [err|db1]; [right; cbn; lia|].
    unfold Edge.join_activate.
    destruct (Db.update_room_active db1 (Db.id room)) as [rows db2].
    destruct (Db.single rows); [right; cbn; lia | left; reflexivity]. }
  destruct (String.eqb (Edge.action req) "get").
  { unfold Edge.get. destruct (_ || _); [right; cbn; lia|]. cbv zeta.
    destruct (Db.single _) as [err|room]; [right; cbn; lia|].
    destruct (Db.single _) as [err|p]; [right; cbn; lia | left; reflexivity]. }
  destruct (String.eqb (Edge.action req) "getMessages").
  { unfold Edge.getMessages.
    destruct (Edge.roomId req) as [r|]; [|right; cbn; lia].
    destruct (Edge.is_empty _); [right; cbn; lia|]. cbv zeta.
    destruct (Db.single _) as [err|p]; [right; cbn; lia | left; reflexivity]. }
  right. cbn. lia.
Qed.

Lemma invoke_outcome (e : Edge.env) (req : Edge.request) (db : Db.database) :
  Store.constrained db ->
  (400 <= Edge.http_status (fst (Edge.room_operations e req db))
   /\ Client.invoke e req db
      = (Client.mkInvoked None
           (Some (Client.FunctionsHttpError
                    (Edge.http_status (fst (Edge.room_operations e req db))))),
         db))
  \/ (Edge.http_status (fst (Edge.room_operations e req db)) = 200
      /\ Client.invoke e req db
         = (Client.mkInvoked
              (Some (Edge.payload (fst (Edge.room_operations e req db)))) None,
            snd (Edge.room_operations e req db))).
Proof.
  intros Hdb. unfold Client.invoke.
  destruct (answer_status e req db) as [H|H].
  - right. split; [exact H|].
    destruct (Edge.room_operations e req db) as [resp db']. cbn in *.
    rewrite H. reflexivity.
  - left. split; [exact H|].
    rewrite (invoke_refused e req db Hdb) by lia.
    replace ((200 <=? _) && (_ <=? 299)) with false by lia.
    reflexivity.
Qed.

Lemma token_not_empty (bytes : nat -> Byte.byte) :
  Edge.generateSessionToken bytes <> ""%string.
Proof.
  intros E. pose proof (generateSessionToken_length bytes) as H.
  rewrite E in H. discriminate.
Qed.

Lemma code_not_empty (c : string) (draw : nat -> nat) :
  Edge.generateRoomCode draw = Edge.toUpperCase c -> c <> ""%string.
Proof.
  intros E ->. pose proof (generateRoomCode_length draw) as H.
  rewrite E in H. discriminate.
Qed.

(** X15. [createRoom] either throws and leaves [sessionStorage] and the
    tables as they were, or returns the room the edge function created and
    has stored its token and its code; from then on [getRoomByCode], called
    with that code in any letter case, returns that room. *)
Theorem createRoom_session (e : Edge.env) (d : Z) (w : Client.world) :
  Store.consistent (Client.store w) ->
  (exists exn, Client.createRoom e d w = (inl exn, w))
  \/ exists w',
       Client.createRoom e d w = (inr (Created.room e d), w')
       /\ Client.store w' = Created.store e d (Client.store w)
       /\ Client.getSessionToken (Client.session w')
          = Some (Edge.generateSessionToken (Edge.random_byte e))
       /\ Client.getStoredRoomCode (Client.session w')
          = Some (Db.code (Created.room e d))
       /\ forall e' c,
            Edge.toUpperCase c = Db.code (Created.room e d) ->
            Client.getRoomByCode e' c w' = (Some (Created.room e d), w').
Proof.
  intros Hdb. unfold Client.createRoom.
  destruct (invoke_outcome e (Edge.create_request d) (Client.store w)
              (Store.schema _ Hdb)) as [[_ ->] | [Hok ->]].
  { left. cbn. eexists. now rewrite world_eta. }
  change (Edge.room_operations e (Edge.create_request d) (Client.store w))
    with (Edge.create e (Edge.create_request d) (Client.store w)) in *.
  destruct (create_outcome e (Client.store w) (Store.schema _ Hdb)
              (Edge.create_request d))
    as [[_ Hst] | (d' & Hd & Hrange & Hc & Hid & Hcode & Hpid & Htok)];
    [contradiction|].
  right. cbn in Hd. injection Hd as <-. rewrite Hc.
  cbn [fst snd Edge.payload Client.error Client.data Client.data_error
       Client.truthy Client.data_sessionToken Client.to_string
       Client.data_room].
  eexists. split; [reflexivity|].
  cbn [Client.store Client.session].
  destruct (stored_session (Edge.generateSessionToken (Edge.random_byte e))
              (Db.code (Created.room e d)) (Client.session w))
    as [S1 S2].
  split; [reflexivity|]. split; [exact S1|]. split; [exact S2|].
  intros e' c Hc'.
  apply (getRoomByCode_bound e' c _ (Created.room e d) (Created.creator e)).
  - cbn [Client.store].
    apply (Store.schema _ (created_consistent _ Hdb e d Hid Hcode Hpid Htok)).
  - cbn. apply in_or_app. right. now left.
  - cbn. apply in_or_app. right. now left.
  - reflexivity.
  - exact S1.
  - exact (token_not_empty (Edge.random_byte e)).
  - now symmetry.
  - apply (code_not_empty c (Edge.random_index e)). now symmetry.
Qed.

Lemma createRoom_session_witness :
  (exists exn,
     Client.createRoom Sample.alice 30 (Client.mkWorld [] Sample.empty)
     = (inl exn, Client.mkWorld [] Sample.empty))
  \/ exists w',
       Client.createRoom Sample.alice 30 (Client.mkWorld [] Sample.empty)
       = (inr (Created.room Sample.alice 30), w')
       /\ Client.store w' = Created.store Sample.alice 30 Sample.empty
       /\ Client.getSessionToken (Client.session w')
          = Some (Edge.generateSessionToken (Edge.random_byte Sample.alice))
       /\ Client.getStoredRoomCode (Client.session w')
          = Some (Db.code (Created.room Sample.alice 30))
       /\ forall e' c,
            Edge.toUpperCase c = Db.code (Created.room Sample.alice 30) ->
            Client.getRoomByCode e' c w'
            = (Some (Created.room Sample.alice 30), w').
Proof.
  apply (createRoom_session Sample.alice 30 (Client.mkWorld [] Sample.empty)).
  exact empty_consistent.
Defined.

Lemma toUpperCase_length (s : string) :
  String.length (Edge.toUpperCase s) = String.length s.
Proof. induction s as [|c s IH]; cbn; [reflexivity | now rewrite IH]. Qed.

(** X16. [joinRoom], called with a code of characters below 128, either
    returns [{ error }] with the message of the library's error, whatever
    reason the edge function gave, and leaves
    [sessionStorage] and the tables as they were, or returns the room as the
    join left it, active with two participants, and has stored the joiner's
    token and the room's code; from then on [getRoomByCode] with that code
    returns that room. It never throws. *)
Theorem joinRoom_session (e : Edge.env) (c : string) (w : Client.world) :
  Store.consistent (Client.store w) ->
  Edge.is_ascii c = true ->
  (exists st,
     400 <= st
     /\ Client.joinRoom e c w
        = (inr (Client.JoinError
                  (Client.error_message (Client.FunctionsHttpError st))), w))
  \/ exists room w',
       In room (Db.rooms (Client.store w))
       /\ Db.code room = Edge.toUpperCase (Edge.toUpperCase c)
       /\ Client.joinRoom e c w
          = (inr (Client.JoinRoom (Some (Db.activate room))), w')
       /\ Client.store w' = Race.activated (Client.store w) room e
       /\ Client.getSessionToken (Client.session w')
          = Some (Edge.generateSessionToken (Edge.random_byte e))
       /\ Client.getStoredRoomCode (Client.session w') = Some (Db.code room)
       /\ forall e' c',
            Edge.toUpperCase c' = Db.code room ->
            Client.getRoomByCode e' c' w' = (Some (Db.activate room), w').
Proof.
  intros Hdb _. unfold Client.joinRoom.
  destruct (invoke_outcome e (Edge.join_request c) (Client.store w)
              (Store.schema _ Hdb)) as [[Hst ->] | [Hok ->]].
  { left. eexists. split; [exact Hst|]. cbn. now rewrite world_eta. }
  change (Edge.room_operations e (Edge.join_request c) (Client.store w))
    with (Edge.join e (Edge.join_request c) (Client.store w)) in *.
  destruct (join_outcome e (Client.store w) (Store.schema _ Hdb)
              (Edge.join_request c))
    as [[_ Hst] | (room & Hl & Hj & Hpid & Htok & Hslot)];
    [contradiction|].
  destruct (join_lookup_room e (Client.store w) _ room Hl)
    as (Hin & (c0 & Hc0 & Hlen & Hcode) & _).
  cbn in Hc0. injection Hc0 as <-.
  right. exists room. rewrite Hj.
  cbn [fst snd Edge.payload Race.joined Client.error Client.data
       Client.data_error Client.truthy Client.data_sessionToken
       Client.to_string Client.data_room].
  eexists. split; [exact Hin|]. split; [exact Hcode|].
  split; [reflexivity|].
  cbn [Client.store Client.session].
  destruct (stored_session (Edge.generateSessionToken (Edge.random_byte e))
              (Db.code (Db.activate room)) (Client.session w))
    as [S1 S2].
  split; [reflexivity|]. split; [exact S1|]. split; [exact S2|].
  intros e' c' Hc'.
  apply (getRoomByCode_bound e' c' _ (Db.activate room) (Race.binding e room)).
  - cbn [Client.store].
    apply (Store.schema _ (joined_consistent _ Hdb e _ room Hl Hpid Htok Hslot)).
  - cbn [Client.store Race.activated Db.rooms]. apply in_map_iff.
    exists room. split; [|exact Hin]. now rewrite N.eqb_refl.
  - cbn. apply in_or_app. right. now left.
  - reflexivity.
  - exact S1.
  - exact (token_not_empty (Edge.random_byte e)).
  - now symmetry.
  - intros ->. cbn in Hc'.
    assert (H : String.length (Db.code room) = 6%nat)
      by now rewrite Hcode, toUpperCase_length.
    rewrite <- Hc' in H. discriminate.
Qed.

Lemma joinRoom_session_witness :
  (exists st,
     400 <= st
     /\ Client.joinRoom Sample.bob "abcdef" (Client.mkWorld [] Sample.lobby)
        = (inr (Client.JoinError
                  (Client.error_message (Client.FunctionsHttpError st))),
           Client.mkWorld [] Sample.lobby))
  \/ exists room w',
       In room (Db.rooms Sample.lobby)
       /\ Db.code room = Edge.toUpperCase (Edge.toUpperCase "abcdef")
       /\ Client.joinRoom Sample.bob "abcdef" (Client.mkWorld [] Sample.lobby)
          = (inr (Client.JoinRoom (Some (Db.activate room))), w')
       /\ Client.store w' = Race.activated Sample.lobby room Sample.bob
       /\ Client.getSessionToken (Client.session w')
          = Some (Edge.generateSessionToken (Edge.random_byte Sample.bob))
       /\ Client.getStoredRoomCode (Client.session w') = Some (Db.code room)
       /\ forall e' c',
            Edge.toUpperCase c' = Db.code room ->
            Client.getRoomByCode e' c' w' = (Some (Db.activate room), w').
Proof.
  apply (joinRoom_session Sample.bob "abcdef"
           (Client.mkWorld [] Sample.lobby));
    [exact lobby_consistent | reflexivity].
Defined.

(** X17. [sendMessage] of [lib/room.ts] always throws and changes nothing:
    without a stored token it throws before it calls the edge function, and
    with one the edge function answers 400 to the action [sendMessage],
    whatever the room, the token, the text and the type, so the library's
    error is thrown. No message is returned or written. *)
Theorem sendMessage_always_throws
  (e : Edge.env) (roomId : Db.uuid) (content senderId type : string)
  (imageUrl : option string) (w : Client.world) :
  Client.sendMessage e roomId content senderId type imageUrl w
  = (inl (if Client.truthy (Client.getSessionToken (Client.session w))
          then Client.Thrown (Client.FunctionsHttpError 400)
          else Client.Error_ "No valid session. Please rejoin the room."),
     w).
Proof.
  unfold Client.sendMessage.
  destruct (Client.truthy (Client.getSessionToken (Client.session w)));
    [|reflexivity].
  unfold Client.invoke, Edge.room_operations, Edge.sendMessage_request.
  cbn. now rewrite world_eta.
Qed.

(** X18. [expireRoom] of [lib/room.ts] ends the caller's session and nothing
    else: the tables are as they were, the room included, while the token
    and the code are gone from [sessionStorage], so that from then on
    [getRoomByCode] returns null, [getMessages] returns no message and
    [getParticipantId] the empty string, without a call to the edge
    function. *)
Theorem expireRoom_ends_session_only
  (roomId : Db.uuid) (w : Client.world) :
  Client.store (Client.expireRoom roomId w) = Client.store w
  /\ Client.getSessionToken (Client.session (Client.expireRoom roomId w))
     = None
  /\ Client.getStoredRoomCode (Client.session (Client.expireRoom roomId w))
     = None
  /\ Client.getParticipantId (Client.session (Client.expireRoom roomId w))
     = ""%string
  /\ (forall e c,
        Client.getRoomByCode e c (Client.expireRoom roomId w)
        = (None, Client.expireRoom roomId w))
  /\ (forall e r,
        Client.getMessages e r (Client.expireRoom roomId w)
        = ([], Client.expireRoom roomId w)).
Proof.
  destruct (cleared_session (Client.session w)) as [S1 S2].
  unfold Client.expireRoom. cbn [Client.store Client.session].
  split; [apply expireRoom_nothing|].
  split; [exact S1|]. split; [exact S2|].
  split; [unfold Client.getParticipantId; now rewrite S1|].
  split.
  - intros e c. unfold Client.getRoomByCode. cbn [Client.session].
    now rewrite S1.
  - intros e r. unfold Client.getMessages. cbn [Client.session].
    now rewrite S1.
Qed.

(** ** The countdown *)

Lemma numeral_loop_snoc (s : string) (c : ascii) (acc : Z) :
  Countdown.numeral_loop acc (s ++ String c EmptyString)
  = 10 * Countdown.numeral_loop acc s + Countdown.digit_value c.
Proof.
  revert acc. induction s as [|a s IH]; intros acc; cbn; [reflexivity|].
  apply IH.
Qed.

Lemma digit_value_digit (d : Z) :
  0 <= d < 10 -> Countdown.digit_value (Countdown.digit d) = d.
Proof.
  intros Hd. unfold Countdown.digit_value, Countdown.digit.
  rewrite nat_ascii_embedding by lia. lia.
Qed.

Lemma digit_not_colon (d : Z) : 0 <= d < 10 -> Countdown.digit d <> ":"%char.
Proof.
  intros Hd E. pose proof (digit_value_digit d Hd) as H. rewrite E in H.
  change (Countdown.digit_value ":") with 10 in H. lia.
Qed.

Lemma numeral_toString_loop (fuel : nat) (n : Z) :
  0 <= n < 10 ^ Z.of_nat fuel ->
  Countdown.numeral (Countdown.toString_loop fuel n) = n.
Proof.
  unfold Countdown.numeral. revert n.
  induction fuel as [|fuel IH]; intros n Hn.
  { cbn in *. lia. }
  cbn [Countdown.toString_loop].
  destruct (n <? 10) eqn:E.
  - cbn [Countdown.numeral_loop]. rewrite digit_value_digit by lia. lia.
  - rewrite numeral_loop_snoc, digit_value_digit by lia.
    rewrite IH; [lia|].
    rewrite Nat2Z.inj_succ, Z.pow_succ_r in Hn by lia. lia.
Qed.

Lemma list_ascii_of_string_app (a b : string) :
  list_ascii_of_string (a ++ b)
  = list_ascii_of_string a ++ list_ascii_of_string b.
Proof. induction a as [|c a IH]; cbn; [reflexivity | now rewrite IH]. Qed.

Lemma toString_loop_no_colon (fuel : nat) (n : Z) :
  0 <= n ->
  ~ In ":"%char (list_ascii_of_string (Countdown.toString_loop fuel n)).
Proof.
  revert n. induction fuel as [|fuel IH]; intros n Hn; [intros []|].
  cbn [Countdown.toString_loop].
  destruct (n <? 10) eqn:E.
  - cbn. intros [H|[]]. now apply (digit_not_colon n); [lia|].
  - rewrite list_ascii_of_string_app. intros H. apply in_app_or in H.
    destruct H as [H|[H|[]]].
    + apply (IH (n / 10)); [lia | exact H].
    + now apply (digit_not_colon (n mod 10)); [lia|].
Qed.

Lemma padStart2_no_colon (s : string) :
  ~ In ":"%char (list_ascii_of_string s) ->
  ~ In ":"%char (list_ascii_of_string (Countdown.padStart2 s)).
Proof.
  intros H. unfold Countdown.padStart2.
  destruct s as [|a [|b s]]; cbn in *; intuition discriminate.
Qed.

Lemma numeral_padStart2 (s : string) :
  Countdown.numeral (Countdown.padStart2 s) = Countdown.numeral s.
Proof. destruct s as [|a [|b s]]; reflexivity. Qed.

Lemma colon_splits_once (a a' b b' : string) :
  ~ In ":"%char (list_ascii_of_string a) ->
  ~ In ":"%char (list_ascii_of_string a') ->
  (a ++ String ":" b)%string = (a' ++ String ":" b')%string ->
  a = a' /\ b = b'.
Proof.
  revert a'. induction a as [|c a IH]; intros [|c' a'] Ha Ha' E; cbn in *.
  - injection E as <-. now split.
  - injection E as E1 E2. exfalso. apply Ha'. now left.
  - injection E as E1 E2. exfalso. apply Ha. now left.
  - injection E as <- E. destruct (IH a') as [-> ->]; auto.
Qed.

Lemma formatTimeRemaining_left (expires now : Z) :
  Countdown.formatTimeRemaining expires now
  = (Countdown.padStart2
       (Countdown.toString (Z.max 0 (expires - now) / 60000))
     ++ String ":"
          (Countdown.padStart2
             (Countdown.toString
                (Z.max 0 (expires - now) mod 60000 / 1000))))%string.
Proof.
  unfold Countdown.formatTimeRemaining.
  destruct (expires - now <=? 0) eqn:E.
  - replace (Z.max 0 (expires - now)) with 0 by lia. reflexivity.
  - replace (Z.max 0 (expires - now)) with (expires - now) by lia.
    reflexivity.
Qed.

Lemma formatTimeRemaining_seconds (expires now expires' now' : Z) :
  expires - now < 2 ^ 53 -> expires' - now' < 2 ^ 53 ->
  Countdown.formatTimeRemaining expires now
  = Countdown.formatTimeRemaining expires' now'
  <-> Z.max 0 (expires - now) / 1000 = Z.max 0 (expires' - now') / 1000.
Proof.
  intros Hd Hd'. rewrite !formatTimeRemaining_left.
  set (x := Z.max 0 (expires - now)). set (y := Z.max 0 (expires' - now')).
  assert (Hx : 0 <= x < 2 ^ 53) by (unfold x; lia).
  assert (Hy : 0 <= y < 2 ^ 53) by (unfold y; lia).
  clearbody x y. clear Hd Hd'. change (2 ^ 53) with 9007199254740992 in *.
  split.
  - intros E. apply colon_splits_once in E.
    + destruct E as [Em Es].
      apply (f_equal Countdown.numeral) in Em, Es.
      rewrite !numeral_padStart2 in Em, Es.
      unfold Countdown.toString in Em, Es.
      rewrite !numeral_toString_loop in Em, Es
        by (change (10 ^ Z.of_nat 21) with 1000000000000000000000; lia).
      lia.
    + apply padStart2_no_colon, toString_loop_no_colon. lia.
    + apply padStart2_no_colon, toString_loop_no_colon. lia.
  - intros E.
    replace (x / 60000) with (y / 60000) by lia.
    replace (x mod 60000 / 1000) with (y mod 60000 / 1000) by lia.
    reflexivity.
Qed.

(** X19. The countdown shows the whole seconds that remain and nothing
    else: two readings of [formatTimeRemaining] are the same text exactly
    when the same number of whole seconds remains, counting a passed expiry
    as none. The differences are below 2^53, where the arithmetic of
    JavaScript numbers is that of the integers. *)
Theorem countdown_shows_whole_seconds (expires now expires' now' : Z) :
  expires - now < 2 ^ 53 -> expires' - now' < 2 ^ 53 ->
  Countdown.formatTimeRemaining expires now
  = Countdown.formatTimeRemaining expires' now'
  <-> Z.max 0 (expires - now) / 1000 = Z.max 0 (expires' - now') / 1000.
Proof. apply formatTimeRemaining_seconds. Qed.

Lemma countdown_shows_whole_seconds_witness :
  Countdown.formatTimeRemaining 1801000 1000
  = Countdown.formatTimeRemaining 1801999 1000
  <-> Z.max 0 (1801000 - 1000) / 1000 = Z.max 0 (1801999 - 1000) / 1000.
Proof.
  apply (countdown_shows_whole_seconds 1801000 1000 1801999 1000);
    reflexivity.
Defined.

(** X20. The countdown reads [00:00] from one second before the expiry on:
    exactly when less than 1000 ms remain. For the last 999 ms before the
    expiry it reads [00:00] while [isTimeUrgent] still holds, and once the
    expiry has passed [isTimeUrgent] no longer does. *)
Theorem countdown_zero_before_expiry (expires now : Z) :
  expires - now < 2 ^ 53 ->
  (Countdown.formatTimeRemaining expires now = "00:00"%string
   <-> expires - now < 1000)
  /\ (Countdown.formatTimeRemaining expires now = "00:00"%string
      /\ Countdown.isTimeUrgent expires now = true
      <-> 0 < expires - now < 1000).
Proof.
  intros Hd.
  assert (H0 : Countdown.formatTimeRemaining expires now = "00:00"%string
               <-> expires - now < 1000).
  { change "00:00"%string with (Countdown.formatTimeRemaining 0 0).
    rewrite (formatTimeRemaining_seconds expires now 0 0 Hd) by reflexivity.
    change (Z.max 0 (0 - 0) / 1000) with 0. lia. }
  split; [exact H0|]. rewrite H0. unfold Countdown.isTimeUrgent. lia.
Qed.

Lemma countdown_zero_before_expiry_witness :
  (Countdown.formatTimeRemaining 1801000 1800001 = "00:00"%string
   <-> 1801000 - 1800001 < 1000)
  /\ (Countdown.formatTimeRemaining 1801000 1800001 = "00:00"%string
      /\ Countdown.isTimeUrgent 1801000 1800001 = true
      <-> 0 < 1801000 - 1800001 < 1000).
Proof.
  apply (countdown_zero_before_expiry 1801000 1800001). reflexivity.
Defined.

(** ** The join page *)

Section JoinPage.
Variable toUpperCase : Js.jsstring -> Js.jsstring.

Lemma clean_allowed (value : Js.jsstring) :
  Forall (fun u => JoinRoomPage.allowed u = true)
         (JoinRoomPage.clean toUpperCase value).
Proof.
  apply Forall_forall. intros u Hu. unfold JoinRoomPage.clean in Hu.
  apply filter_In in Hu. apply Hu.
Qed.

Lemma assign_kept (index : nat) (value : Js.jsstring)
  (code : JoinRoomPage.cells) (P : Js.jsstring -> Prop) :
  (index < List.length code)%nat -> P value -> Forall P code ->
  List.length (JoinRoomPage.assign index value code) = List.length code
  /\ Forall P (JoinRoomPage.assign index value code).
Proof.
  revert index. induction code as [|c code IH]; intros index Hi Hv Hc.
  { cbn in Hi. lia. }
  inversion Hc as [|? ? Hc1 Hc2]; subst.
  destruct index as [|i]; cbn [JoinRoomPage.assign List.length].
  - split; [reflexivity | now constructor].
  - cbn in Hi. destruct (IH i) as [IH1 IH2]; [lia | assumption | assumption|].
    split; [now rewrite IH1 | now constructor].
Qed.

Lemma handle_kept (code : JoinRoomPage.cells) (ev : JoinRoomPage.event) :
  JoinRoomPage.well_kept code -> JoinRoomPage.rendered code ev = true ->
  JoinRoomPage.well_kept (JoinRoomPage.handle toUpperCase code ev).
Proof.
  intros [Hlen Hcells] Hr.
  destruct ev as [index value|text];
    cbn [JoinRoomPage.handle JoinRoomPage.rendered] in *.
  - unfold JoinRoomPage.handleInputChange.
    destruct (List.length (JoinRoomPage.clean toUpperCase value) <=? 1)%nat
      eqn:E; [|now split].
    destruct (assign_kept index (JoinRoomPage.clean toUpperCase value) code
                (fun cell => (List.length cell <= 1)%nat
                             /\ Forall (fun u => JoinRoomPage.allowed u = true)
                                       cell)) as [A1 A2].
    + lia.
    + split; [lia | apply clean_allowed].
    + exact Hcells.
    + split; [now rewrite A1 | exact A2].
  - unfold JoinRoomPage.handlePaste.
    destruct (6 <=? List.length (JoinRoomPage.clean toUpperCase text))%nat
      eqn:E; [|now split].
    split.
    + rewrite length_map, length_firstn. lia.
    + apply Forall_map, Forall_forall. intros u Hu. split; [cbn; lia|].
      constructor; [|constructor].
      apply (proj1 (Forall_forall _ _) (clean_allowed text)).
      rewrite <- (firstn_skipn 6 (JoinRoomPage.clean toUpperCase text)).
      apply in_or_app. now left.
Qed.

Lemma handled_kept (events : list JoinRoomPage.event)
  (code : JoinRoomPage.cells) :
  JoinRoomPage.well_kept code ->
  Forall (fun ev => match ev with
                    | JoinRoomPage.Change index _ => (index < 6)%nat
                    | JoinRoomPage.Paste _ => True
                    end) events ->
  JoinRoomPage.well_kept (fold_left (JoinRoomPage.handle toUpperCase) events code).
Proof.
  revert code. induction events as [|ev events IH]; intros code Hc He;
    [exact Hc|].
  inversion He as [|? ? He1 He2]; subst. cbn [fold_left]. apply IH; [|exact He2].
  apply handle_kept; [exact Hc|].
  destruct ev as [index value|text]; [|reflexivity].
  cbn [JoinRoomPage.rendered]. destruct Hc as [Hlen _]. rewrite Hlen.
  apply Nat.ltb_lt. exact He1.
Qed.
End JoinPage.

Lemma Forall_concat {A} (P : A -> Prop) (ls : list (list A)) :
  Forall (Forall P) ls -> Forall P (List.concat ls).
Proof.
  induction 1 as [|l ls Hl Hls IH]; cbn; [constructor|].
  apply Forall_app. now split.
Qed.

Lemma concat_singletons {A} (l : list A) :
  List.concat (map (fun u => [u]) l) = l.
Proof. induction l as [|a l IH]; cbn; [reflexivity | now rewrite IH]. Qed.

Lemma upper_a_z_fixes (s : Js.jsstring) :
  Forall (fun u => JoinRoomPage.allowed u = true) s ->
  JoinRoomPage.upper_a_z s = s.
Proof.
  unfold JoinRoomPage.upper_a_z.
  induction 1 as [|u s Hu Hs IH]; cbn [map]; [reflexivity|].
  rewrite IH. unfold JoinRoomPage.allowed in Hu.
  replace ((97 <=? u) && (u <=? 122)) with false by lia. reflexivity.
Qed.

(** X21. Whatever is typed into the six cells of the join page and pasted
    onto them, in any order, [handleJoin] calls [joinRoom] only with six
    characters of [[A-Z0-9]]; this holds for any function in the place of
    [toUpperCase]. *)
Theorem join_page_sends_clean_codes
  (toUpperCase : Js.jsstring -> Js.jsstring)
  (events : list JoinRoomPage.event) (c : Js.jsstring) :
  Forall (fun ev => match ev with
                    | JoinRoomPage.Change index _ => (index < 6)%nat
                    | JoinRoomPage.Paste _ => True
                    end) events ->
  JoinRoomPage.handleJoin
    (fold_left (JoinRoomPage.handle toUpperCase) events JoinRoomPage.initial)
  = Some c ->
  List.length c = 6%nat /\ Forall (fun u => JoinRoomPage.allowed u = true) c.
Proof.
  intros He Hj.
  assert (H0 : JoinRoomPage.well_kept JoinRoomPage.initial).
  { split; [reflexivity|]. repeat constructor. }
  destruct (handled_kept toUpperCase events _ H0 He) as [_ Hcells].
  unfold JoinRoomPage.handleJoin in Hj.
  destruct (List.length _ =? 6)%nat eqn:E; [|discriminate].
  injection Hj as <-. split; [now apply Nat.eqb_eq|].
  apply Forall_concat. eapply Forall_impl; [|exact Hcells].
  intros cell [_ H]. exact H.
Qed.

Lemma join_page_sends_clean_codes_witness :
  List.length (Js.literal "AB12CD") = 6%nat
  /\ Forall (fun u => JoinRoomPage.allowed u = true) (Js.literal "AB12CD").
Proof.
  apply (join_page_sends_clean_codes JoinRoomPage.upper_a_z
           [JoinRoomPage.Change 2 (Js.literal "x");
            JoinRoomPage.Paste (Js.literal "ab-12 cd9")]).
  - repeat constructor.
  - reflexivity.
Defined.

(** X22. A generated room code pasted onto the join page, whatever the
    cells held, is the code [handleJoin] calls [joinRoom] with, given that
    [toUpperCase] leaves strings of [[A-Z0-9]] as they are. *)
Theorem pasted_code_is_sent
  (toUpperCase : Js.jsstring -> Js.jsstring)
  (draw : nat -> nat) (code : JoinRoomPage.cells) :
  (forall s, Forall (fun u => JoinRoomPage.allowed u = true) s ->
             toUpperCase s = s) ->
  JoinRoomPage.handleJoin
    (JoinRoomPage.handlePaste toUpperCase
       (Js.literal (Edge.generateRoomCode draw)) code)
  = Some (Js.literal (Edge.generateRoomCode draw)).
Proof.
  intros Hfix.
  destruct (generateRoomCode_loop_shape draw 6 0) as (_ & _ & Hclean).
  fold (Edge.generateRoomCode draw) in Hclean.
  assert (Hlen : List.length (Js.literal (Edge.generateRoomCode draw)) = 6%nat).
  { unfold Js.literal. rewrite length_map.
    rewrite <- (generateRoomCode_length draw).
    generalize (Edge.generateRoomCode draw). clear.
    induction s as [|a s IH]; cbn; [reflexivity | now rewrite IH]. }
  assert (Hall : Forall (fun u => JoinRoomPage.allowed u = true)
                        (Js.literal (Edge.generateRoomCode draw))).
  { apply Forall_forall. intros u Hu. rewrite <- Hclean in Hu.
    apply filter_In in Hu. apply Hu. }
  unfold JoinRoomPage.handlePaste, JoinRoomPage.clean.
  rewrite (Hfix _ Hall), Hclean, Hlen. cbn [Nat.leb].
  rewrite <- Hlen at 1. rewrite firstn_all.
  unfold JoinRoomPage.handleJoin, JoinRoomPage.roomCode.
  rewrite concat_singletons, Hlen. reflexivity.
Qed.

Lemma pasted_code_is_sent_witness :
  JoinRoomPage.handleJoin
    (JoinRoomPage.handlePaste JoinRoomPage.upper_a_z
       (Js.literal (Edge.generateRoomCode (Edge.random_index Sample.alice)))
       JoinRoomPage.initial)
  = Some (Js.literal (Edge.generateRoomCode (Edge.random_index Sample.alice))).
Proof.
  apply (pasted_code_is_sent JoinRoomPage.upper_a_z
           (Edge.random_index Sample.alice) JoinRoomPage.initial).
  exact upper_a_z_fixes.
Defined.

(** ** The create page *)

(** X23. Of the durations the create page offers, the one of 3 hours can
    never create a room: the edge function answers 400 to it, [createRoom]
    throws and nothing is stored. The other three are never answered 400. *)
Theorem duration_options_against_limit
  (o : CreateRoomPage.option_) (e : Edge.env) (w : Client.world) :
  In o CreateRoomPage.DURATION_OPTIONS ->
  if CreateRoomPage.value o =? 180
  then Client.createRoom e (CreateRoomPage.value o) w
       = (inl (Client.Thrown (Client.FunctionsHttpError 400)), w)
  else Edge.http_status
         (fst (Edge.room_operations e
                 (Edge.create_request (CreateRoomPage.value o))
                 (Client.store w))) <> 400.
Proof.
  intros Ho.
  assert (Hsome : forall d, 1 <= d <= 120 ->
            Edge.http_status
              (fst (Edge.room_operations e (Edge.create_request d)
                      (Client.store w))) <> 400).
  { intros d Hd.
    change (Edge.room_operations e (Edge.create_request d) (Client.store w))
      with (Edge.create e (Edge.create_request d) (Client.store w)).
    unfold Edge.create. cbn [Edge.durationMinutes Edge.create_request].
    replace (Edge.invalid_duration (Some d)) with false
      by (unfold Edge.invalid_duration; lia).
    cbv zeta.
    destruct (Db.insert_room _ _) as [err|db1]; [cbn; lia|].
    destruct (Db.insert_participant _ _) as [err|db2]; cbn; lia. }
  destruct Ho as [<-|[<-|[<-|[<-|[]]]]]; cbn [CreateRoomPage.value Z.eqb Pos.eqb].
  - apply Hsome. lia.
  - apply Hsome. lia.
  - apply Hsome. lia.
  - unfold Client.createRoom, Client.invoke. cbn. now rewrite world_eta.
Qed.

Lemma duration_options_against_limit_witness :
  Client.createRoom Sample.alice 180 (Client.mkWorld [] Sample.empty)
  = (inl (Client.Thrown (Client.FunctionsHttpError 400)),
     Client.mkWorld [] Sample.empty).
Proof.
  apply (duration_options_against_limit
           (CreateRoomPage.mkOption 180 "3 hours") Sample.alice
           (Client.mkWorld [] Sample.empty)).
  cbn. tauto.
Defined.

(** ** What [encryptMessage] puts on the wire *)

(** X24. [encryptMessage] has two outcomes. When the IV and the ciphertext
    together are no more bytes than the engine takes as the arguments of one
    call, it returns base64 text, of a length that is a multiple of four,
    which [atob] reads back as the IV, in the clear, followed by the
    ciphertext; [btoa] never throws, since every character it is given is a
    byte. When they are more, it throws a [RangeError]. *)
Theorem encryptMessage_layout
  (max_arguments : nat) (W : Crypto.WebCrypto) (iv : list Js.byte)
  (text roomCode : Js.jsstring) :
  ((List.length (Engine.combined W iv text roomCode) <= max_arguments)%nat ->
   exists enc,
     Engine.encryptMessage max_arguments W iv text roomCode = inr enc
     /\ (List.length enc mod 4 = 0)%nat
     /\ exists binary,
          Js.atob enc = inr binary
          /\ Js.Uint8Array_from binary = Engine.combined W iv text roomCode
          /\ firstn (List.length iv) (Js.Uint8Array_from binary) = iv)
  /\ ((max_arguments < List.length (Engine.combined W iv text roomCode))%nat ->
      Engine.encryptMessage max_arguments W iv text roomCode
      = inl Engine.RangeError).
Proof.
  split; [|apply encryptMessage_beyond].
  intros Hfit. rewrite (encryptMessage_within _ _ _ _ _ Hfit).
  unfold Crypto.encryptMessage. rewrite btoa_fromCharCode.
  eexists. split; [reflexivity|]. split; [apply btoa_loop_length|].
  eexists. split; [apply atob_btoa_loop, fromCharCode_bytes|].
  rewrite Uint8Array_from_fromCharCode. split; [reflexivity|].
  rewrite firstn_app, firstn_all, Nat.sub_diag. cbn. apply app_nil_r.
Qed.

Lemma encryptMessage_layout_witness :
  (exists enc,
     Engine.encryptMessage (2 ^ 16) Crypto.Model.webcrypto Crypto.Model.iv
       (Js.literal "hi") (Js.literal "ABCDEF") = inr enc
     /\ (List.length enc mod 4 = 0)%nat
     /\ exists binary,
          Js.atob enc = inr binary
          /\ Js.Uint8Array_from binary
             = Engine.combined Crypto.Model.webcrypto Crypto.Model.iv
                 (Js.literal "hi") (Js.literal "ABCDEF")
          /\ firstn (List.length Crypto.Model.iv) (Js.Uint8Array_from binary)
             = Crypto.Model.iv)
  /\ Engine.encryptMessage 29 Crypto.Model.webcrypto Crypto.Model.iv
       (Js.literal "hi") (Js.literal "ABCDEF") = inl Engine.RangeError.
Proof.
  split.
  - apply (encryptMessage_layout (2 ^ 16) Crypto.Model.webcrypto
             Crypto.Model.iv (Js.literal "hi") (Js.literal "ABCDEF")).
    apply Nat.leb_le. vm_compute. reflexivity.
  - apply (encryptMessage_layout 29 Crypto.Model.webcrypto
             Crypto.Model.iv (Js.literal "hi") (Js.literal "ABCDEF")).
    apply Nat.ltb_lt. vm_compute. reflexivity.
Defined.
